(** * Bedtime story maker: the refinement controller of [main.py]

    A shallow embedding of [src/main.py]: the response parser
    ([parse_judge_response]), the evaluator ([judge_story]), the drafting and
    revision agents ([generate_initial_story], [revise_story]), the automated
    refinement loop ([story_pipeline]) and the human-feedback loop of [main].

    Python values are modelled by the inductive type [pyval]; a Python [str]
    is a list of Unicode code points.  Code that may raise returns a
    [result]; code that talks to the chat-completion service or to the
    console threads a [world] through a state-and-error monad [M]. *)

From Stdlib Require Import String Ascii DecimalString List ZArith NArith QArith Bool Lia.
Import ListNotations.

Local Open Scope Z_scope.

(* ================================================================= *)
(** ** Strings *)

(** A character is a Unicode code point, a [str] a sequence of them. *)
Definition char := N.
Definition str := list char.

Fixpoint bytes_of_string (s : string) : list N :=
  match s with
  | EmptyString => []
  | String a t => N_of_ascii a :: bytes_of_string t
  end.

(** Rocq string literals are byte strings; the text of [main.py] is UTF-8. *)
Fixpoint utf8_decode (bs : list N) : str :=
  match bs with
  | [] => []
  | b0 :: t =>
    if (b0 <? 128)%N then b0 :: utf8_decode t
    else if (b0 <? 224)%N then
      match t with
      | b1 :: t1 => ((b0 - 192) * 64 + (b1 - 128))%N :: utf8_decode t1
      | _ => [b0]
      end
    else if (b0 <? 240)%N then
      match t with
      | b1 :: b2 :: t2 =>
        ((b0 - 224) * 4096 + (b1 - 128) * 64 + (b2 - 128))%N :: utf8_decode t2
      | _ => [b0]
      end
    else
      match t with
      | b1 :: b2 :: b3 :: t3 =>
        ((b0 - 240) * 262144 + (b1 - 128) * 4096 + (b2 - 128) * 64 + (b3 - 128))%N
          :: utf8_decode t3
      | _ => [b0]
      end
  end.

Definition lit (s : string) : str := utf8_decode (bytes_of_string s).
Arguments lit s%_string.

Definition chr (a : ascii) : char := N_of_ascii a.
Arguments chr a%_char.

(** The characters a string literal of this file cannot hold. *)
Definition dq : str := [34%N].
Definition nl : str := [10%N].

(* ================================================================= *)
(** ** Exceptions and fallible computations *)

(** The exception classes the program can meet; all of them derive from
    [Exception]. *)
Inductive exn : Type :=
| ValueError
| TypeError
| KeyError
| IndexError
| AttributeError
| JSONDecodeError
| RecursionError
| EOFError
| UnicodeEncodeError
| OpenAIError.

Inductive result (A : Type) : Type :=
| Ok (a : A)
| Raise (e : exn).
Arguments Ok {A} a.
Arguments Raise {A} e.

Definition rbind {A B} (r : result A) (k : A -> result B) : result B :=
  match r with
  | Ok a => k a
  | Raise e => Raise e
  end.

Declare Scope result_scope.
Delimit Scope result_scope with res.
Notation "'let?' x := r 'in' k" := (rbind r (fun x => k))
  (at level 10, x name, r at level 100, k at level 200) : result_scope.

(** [try: body except Exception: handler]. *)
Definition try_except {A} (body : result A) (handler : exn -> result A)
  : result A :=
  match body with
  | Ok a => Ok a
  | Raise e => handler e
  end.

(* ================================================================= *)
(** ** The [str] methods the program calls *)

Module Str.

Fixpoint eqb (a b : str) : bool :=
  match a, b with
  | [], [] => true
  | x :: a', y :: b' => (x =? y)%N && eqb a' b'
  | _, _ => false
  end.

Fixpoint startswith (s sub : str) : bool :=
  match sub, s with
  | [], _ => true
  | p :: sub', c :: s' => (p =? c)%N && startswith s' sub'
  | _ :: _, [] => false
  end.

(** [s.find(sub)]: the lowest index where [sub] occurs, or -1. *)
Fixpoint find_from (s sub : str) (i : Z) : Z :=
  if startswith s sub then i
  else match s with
       | [] => -1
       | _ :: t => find_from t sub (i + 1)
       end.

Definition find (s sub : str) : Z := find_from s sub 0.

(** [s.index(sub)]: like [find], but raises [ValueError] when absent. *)
Definition index (s sub : str) : result Z :=
  let i := find s sub in
  if i <? 0 then Raise ValueError else Ok i.

(** [s.rfind(sub)]: the highest index where [sub] occurs, or -1. *)
Fixpoint rfind_from (s sub : str) (i : Z) : Z :=
  match s with
  | [] => if startswith [] sub then i else -1
  | _ :: t =>
    let r := rfind_from t sub (i + 1) in
    if 0 <=? r then r
    else if startswith s sub then i else -1
  end.

Definition rfind (s sub : str) : Z := rfind_from s sub 0.

(** A slice bound: negative bounds count from the end, and every bound is
    clamped to the string. *)
Definition clamp (len i : Z) : Z :=
  if i <? 0 then Z.max 0 (i + len) else Z.min i len.

(** [s[i:j]]. *)
Definition slice (s : str) (i j : Z) : str :=
  let len := Z.of_nat (length s) in
  let lo := clamp len i in
  let hi := clamp len j in
  firstn (Z.to_nat (hi - lo)) (skipn (Z.to_nat lo) s).

(** [c.isspace()]: the code points of Unicode whitespace. *)
Definition isspace (c : char) : bool :=
  ((9 <=? c) && (c <=? 13) || (28 <=? c) && (c <=? 32)
   || (c =? 133) || (c =? 160) || (c =? 5760)
   || (8192 <=? c) && (c <=? 8202)
   || (c =? 8232) || (c =? 8233) || (c =? 8239) || (c =? 8287)
   || (c =? 12288))%N.

Fixpoint lstrip (s : str) : str :=
  match s with
  | [] => []
  | c :: t => if isspace c then lstrip t else s
  end.

Definition rstrip (s : str) : str := rev (lstrip (rev s)).

(** [s.strip()]. *)
Definition strip (s : str) : str := rstrip (lstrip s).

(** [sep.join(items)] for items that are strings. *)
Fixpoint join (sep : str) (items : list str) : str :=
  match items with
  | [] => []
  | [x] => x
  | x :: rest => x ++ sep ++ join sep rest
  end.

(** *** [template.format(name=value, ...)]

    A template is literal text, the escapes [{{] and [}}], and replacement
    fields [{name}].  The templates of [main.py] use plain field names
    only, so conversions and format specifications are not modelled: a
    field's text up to the closing brace is its name. *)
Inductive piece : Type :=
| Lit (c : char)
| Field (name : str).

Definition lbrace : char := 123%N.
Definition rbrace : char := 125%N.

Fixpoint parse_format (t : str) (field : option str)
  : result (list piece) :=
  match t with
  | [] =>
    match field with
    | None => Ok []
    | Some _ => Raise ValueError
    end
  | c :: rest =>
    match field with
    | Some acc =>
      if (c =? rbrace)%N then
        (let? ps := parse_format rest None in Ok (Field (rev acc) :: ps))%res
      else if (c =? lbrace)%N then Raise ValueError
      else parse_format rest (Some (c :: acc))
    | None =>
      if (c =? lbrace)%N then
        match rest with
        | c' :: rest' =>
          if (c' =? lbrace)%N then
            (let? ps := parse_format rest' None in Ok (Lit lbrace :: ps))%res
          else parse_format rest (Some [])
        | [] => Raise ValueError
        end
      else if (c =? rbrace)%N then
        match rest with
        | c' :: rest' =>
          if (c' =? rbrace)%N then
            (let? ps := parse_format rest' None in Ok (Lit rbrace :: ps))%res
          else Raise ValueError
        | [] => Raise ValueError
        end
      else (let? ps := parse_format rest None in Ok (Lit c :: ps))%res
    end
  end.

Fixpoint lookup (kwargs : list (str * str)) (name : str) : option str :=
  match kwargs with
  | [] => None
  | (k, v) :: rest => if eqb k name then Some v else lookup rest name
  end.

Fixpoint render (ps : list piece) (kwargs : list (str * str))
  : result str :=
  match ps with
  | [] => Ok []
  | Lit c :: ps' => (let? r := render ps' kwargs in Ok (c :: r))%res
  | Field name :: ps' =>
    match name with
    | [] => Raise IndexError
    | _ =>
      match lookup kwargs name with
      | None => Raise KeyError
      | Some v => (let? r := render ps' kwargs in Ok (v ++ r))%res
      end
    end
  end.

Definition format (template : str) (kwargs : list (str * str))
  : result str :=
  (let? ps := parse_format template None in render ps kwargs)%res.

(** *** Encoding

    A surrogate code point stands for no character: UTF-8 has no encoding
    for it. *)
Definition surrogate (c : char) : bool :=
  ((55296 <=? c) && (c <=? 57343))%N.

(** [s.encode("utf-8")] succeeds. *)
Definition encodable (s : str) : bool :=
  forallb (fun c => negb (surrogate c)) s.

End Str.

(* ================================================================= *)
(** ** Python values *)

(** A [float]: not-a-number, an infinity, or the rational a finite double
    denotes. *)
Inductive pyfloat : Type :=
| FNan
| FInf (negative : bool)
| FFinite (q : Q).

#[local] Set Warnings "-register-all".

(** The values [json.loads] can produce.  A [dict] keeps its entries in
    insertion order; its keys are strings. *)
Inductive pyval : Type :=
| PyNone
| PyBool (b : bool)
| PyInt (n : Z)
| PyFloat (f : pyfloat)
| PyStr (s : str)
| PyList (items : list pyval)
| PyDict (entries : list (str * pyval)).

Module Py.

Fixpoint lookup (entries : list (str * pyval)) (key : str)
  : option pyval :=
  match entries with
  | [] => None
  | (k, v) :: rest => if Str.eqb k key then Some v else lookup rest key
  end.

(** [o.get(key, default)]; only a [dict] has the method. *)
Definition get (o : pyval) (key : str) (default : pyval) : result pyval :=
  match o with
  | PyDict entries =>
    match lookup entries key with
    | Some v => Ok v
    | None => Ok default
    end
  | _ => Raise AttributeError
  end.

(** [a < n] for an [int] [n]: numbers compare by value ([bool] is a
    subclass of [int], a not-a-number is below nothing); anything else
    is a [TypeError]. *)
Definition lt_int (a : pyval) (n : Z) : result bool :=
  match a with
  | PyInt z => Ok (z <? n)
  | PyBool b => Ok ((if b then 1 else 0) <? n)
  | PyFloat FNan => Ok false
  | PyFloat (FInf negative) => Ok negative
  | PyFloat (FFinite q) => Ok (Qnum q <? n * Zpos (Qden q))
  | _ => Raise TypeError
  end.

(** The truth value of an object. *)
Definition truthy (a : pyval) : bool :=
  match a with
  | PyNone => false
  | PyBool b => b
  | PyInt z => negb (z =? 0)
  | PyFloat FNan => true
  | PyFloat (FInf _) => true
  | PyFloat (FFinite q) => negb (Qnum q =? 0)
  | PyStr s => negb (Str.eqb s [])
  | PyList items => match items with [] => false | _ => true end
  | PyDict entries => match entries with [] => false | _ => true end
  end.

(** The items a [for] loop sees: the elements of a list, the characters of
    a string, the keys of a dict; anything else is not iterable. *)
Definition iter (a : pyval) : result (list pyval) :=
  match a with
  | PyList items => Ok items
  | PyStr s => Ok (map (fun c => PyStr [c]) s)
  | PyDict entries => Ok (map (fun kv => PyStr (fst kv)) entries)
  | _ => Raise TypeError
  end.

Fixpoint all_str (items : list pyval) : result (list str) :=
  match items with
  | [] => Ok []
  | PyStr s :: rest => (let? ss := all_str rest in Ok (s :: ss))%res
  | _ :: _ => Raise TypeError
  end.

(** [sep.join(a)]: [a] must be an iterable of strings. *)
Definition join (sep : str) (a : pyval) : result str :=
  (let? items := iter a in
   let? ss := all_str items in
   Ok (Str.join sep ss))%res.

(** [a or b] on strings. *)
Definition or_ (a b : str) : str :=
  match a with
  | [] => b
  | _ => a
  end.

(** [str(n)] for an [int]: its decimal numeral. *)
Definition str_of_int (n : Z) : str :=
  bytes_of_string (DecimalString.NilZero.string_of_int (Z.to_int n)).

(** [str(a)] can be encoded as UTF-8.  The text of a string is the string
    itself; the text of any other value is ASCII but for the strings it
    holds, and those appear as their [repr], in which a surrogate is
    escaped. *)
Definition writable (a : pyval) : bool :=
  match a with
  | PyStr s => Str.encodable s
  | _ => true
  end.

(** The arguments in front of the first one that cannot be written. *)
Fixpoint written (args : list pyval) : list pyval :=
  match args with
  | [] => []
  | a :: rest => if writable a then a :: written rest else []
  end.

End Py.

(* ================================================================= *)
(** ** The world: the chat-completion service and the console *)

Record request : Type := {
  model : str;
  content : str;
  max_tokens : Z;
  temperature : Q
}.

Record exchange : Type := {
  sent : request;
  received : result str
}.

Inductive console_event : Type :=
| Printed (args : list pyval)
| Interrupted (args : list pyval)
| Asked (prompt : str).

Record world : Type := {
  gateway_log : list exchange;
  stdin : list str;
  stdout : list console_event
}.

(** A computation reads and updates the world and returns or raises. *)
Definition M (A : Type) : Type := world -> result A * world.

Definition ret {A} (a : A) : M A := fun w => (Ok a, w).

Definition bind {A B} (c : M A) (k : A -> M B) : M B :=
  fun w =>
    match c w with
    | (Ok a, w') => k a w'
    | (Raise e, w') => (Raise e, w')
    end.

Definition lift {A} (r : result A) : M A := fun w => (r, w).

Declare Scope monad_scope.
Delimit Scope monad_scope with M.
Notation "x <- c ;; k" := (bind c (fun x => k))
  (at level 61, c at next level, right associativity) : monad_scope.
Notation "c ;; k" := (bind c (fun _ => k))
  (at level 61, right associativity) : monad_scope.
Local Open Scope monad_scope.

(** A loop run with a bound on its iterations either finishes or uses the
    bound up. *)
Inductive fueled (A : Type) : Type :=
| Done (a : A)
| OutOfFuel.
Arguments Done {A} a.
Arguments OutOfFuel {A}.

(** What the program takes from its libraries: the JSON decoder, the
    built-in [format] of a value with an empty format specification (what an
    f-string applies), and the chat-completion endpoint, whose answer may
    depend on every exchange so far. *)
Class Runtime : Type := {
  json_loads : str -> result pyval;
  builtin_format : pyval -> str;
  ChatCompletion_create : list exchange -> request -> result str
}.

(** [print(a, b, ...)] on a console that encodes as UTF-8: the arguments
    are written one after the other, each as [str] gives it, and a text that
    cannot be encoded raises [UnicodeEncodeError] when its turn comes.  The
    console records the arguments of a call that went through, and for one
    that was interrupted the arguments written before it raised. *)
Definition print (args : list pyval) : M unit :=
  fun w =>
    if forallb Py.writable args then
      (Ok tt, {| gateway_log := gateway_log w;
                 stdin := stdin w;
                 stdout := stdout w ++ [Printed args] |})
    else
      (Raise UnicodeEncodeError,
       {| gateway_log := gateway_log w;
          stdin := stdin w;
          stdout := stdout w ++ [Interrupted (Py.written args)] |}).

(** [input(prompt)]: the next line of the input, [EOFError] at its end. *)
Definition input (prompt : str) : M str :=
  fun w =>
    let out := stdout w ++ [Asked prompt] in
    match stdin w with
    | [] =>
      (Raise EOFError,
       {| gateway_log := gateway_log w; stdin := []; stdout := out |})
    | line :: rest =>
      (Ok line,
       {| gateway_log := gateway_log w; stdin := rest; stdout := out |})
    end.

(* ================================================================= *)
(** ** The prompt templates *)

Definition STORY_WRITER_PROMPT : str :=
  Str.join nl
   [ [];
    lit "You are an expert children's author.";
    [];
    lit "Write a bedtime story for a child aged between 5 and 10 years old.";
    [];
    lit "Requirements:";
    lit "- The story must be gentle, kind, and emotionally safe.";
    lit "- Use simple, concrete language that a 2ndâ€“4th grader can understand.";
    lit "- Length: about 350â€“600 words.";
    lit "- Clear beginning, middle, and end.";
    lit "- A small, non-scary problem that gets resolved positively.";
    lit "- Include a short 1â€“2 sentence moral at the end starting with " ++ dq ++ lit "Moral:" ++ dq ++ lit ".";
    [];
    lit "The child's story request is:";
    dq ++ lit "{user_request}" ++ dq;
    [];
    lit "Now write ONLY the story. Do not add any explanation or commentary.";
    [] ].

Definition JUDGE_PROMPT : str :=
  Str.join nl
   [ [];
    lit "You are a strict but kind editorial judge for children's bedtime stories (ages 5â€“10).";
    [];
    lit "Your job is to review the story below and return a JSON object ONLY, with no extra text.";
    [];
    lit "Evaluate the story on:";
    lit "- clarity (0â€“10)";
    lit "- age_appropriateness (0â€“10)";
    lit "- emotional_safety (0â€“10)";
    lit "- creativity (0â€“10)";
    lit "- narrative_structure (0â€“10)";
    [];
    lit "Also include:";
    lit "- total_score: sum of the five scores";
    lit "- issues: a short list of strings describing concrete problems";
    lit "- suggested_fixes: a short list of specific, actionable improvements";
    [];
    lit "Return JSON in this format ONLY:";
    lit "{{";
    lit "  " ++ dq ++ lit "clarity" ++ dq ++ lit ": 9,";
    lit "  " ++ dq ++ lit "age_appropriateness" ++ dq ++ lit ": 10,";
    lit "  " ++ dq ++ lit "emotional_safety" ++ dq ++ lit ": 9,";
    lit "  " ++ dq ++ lit "creativity" ++ dq ++ lit ": 8,";
    lit "  " ++ dq ++ lit "narrative_structure" ++ dq ++ lit ": 9,";
    lit "  " ++ dq ++ lit "total_score" ++ dq ++ lit ": 45,";
    lit "  " ++ dq ++ lit "issues" ++ dq ++ lit ": [" ++ dq ++ lit "issue 1" ++ dq ++ lit ", " ++ dq ++ lit "issue 2" ++ dq ++ lit "],";
    lit "  " ++ dq ++ lit "suggested_fixes" ++ dq ++ lit ": [" ++ dq ++ lit "fix 1" ++ dq ++ lit ", " ++ dq ++ lit "fix 2" ++ dq ++ lit "]";
    lit "}}";
    [];
    lit "Here is the story to judge:";
    dq ++ dq ++ dq ++ lit "{story}" ++ dq ++ dq ++ dq;
    [] ].

Definition REVISION_PROMPT : str :=
  Str.join nl
   [ [];
    lit "You are revising a children's bedtime story for ages 5â€“10.";
    [];
    lit "Original story:";
    dq ++ dq ++ dq ++ lit "{story}" ++ dq ++ dq ++ dq;
    [];
    lit "Feedback from a quality judge:";
    [];
    lit "Issues:";
    lit "{issues}";
    [];
    lit "Suggested fixes:";
    lit "{fixes}";
    [];
    lit "Rewrite the story to address this feedback while:";
    lit "- Keeping it between 350â€“600 words";
    lit "- Preserving the core theme and characters";
    lit "- Making it even clearer, kinder, and more engaging";
    lit "- Ending with a short moral that starts with " ++ dq ++ lit "Moral:" ++ dq;
    [];
    lit "Return ONLY the improved story, with no explanation or comments.";
    [] ].

Definition USER_FEEDBACK_PROMPT : str :=
  Str.join nl
   [ [];
    lit "You are a children's story rewriter.";
    [];
    lit "Here is the current story:";
    dq ++ dq ++ dq ++ lit "{story}" ++ dq ++ dq ++ dq;
    [];
    lit "Here is additional feedback from the human reader:";
    dq ++ dq ++ dq ++ lit "{feedback}" ++ dq ++ dq ++ dq;
    [];
    lit "Rewrite the story to incorporate this feedback while:";
    lit "- Keeping it appropriate and emotionally safe for ages 5â€“10";
    lit "- Keeping roughly the same length";
    lit "- Keeping a clear beginning, middle, and end";
    lit "- Ending with a moral starting with " ++ dq ++ lit "Moral:" ++ dq;
    [];
    lit "Return ONLY the new story.";
    [] ].

(* ================================================================= *)
(** ** The program *)

Section Program.

Context {rt : Runtime}.

(** [call_model(prompt, max_tokens, temperature)]: one request to the
    chat-completion endpoint; the exchange is recorded whether it answers
    or raises.  Every caller passes both sampling parameters. *)
Definition call_model (prompt : str) (max_tokens : Z) (temperature : Q)
  : M str :=
  fun w =>
    let req := {| model := lit "gpt-3.5-turbo";
                  content := prompt;
                  max_tokens := max_tokens;
                  temperature := temperature |} in
    let resp := ChatCompletion_create (gateway_log w) req in
    (resp,
     {| gateway_log := gateway_log w ++ [{| sent := req; received := resp |}];
        stdin := stdin w;
        stdout := stdout w |}).

Definition generate_initial_story (user_request : str) : M str :=
  prompt <- lift (Str.format STORY_WRITER_PROMPT
                    [(lit "user_request", user_request)]) ;;
  call_model prompt 900 (8 # 10).

(** The object the parser answers with when it cannot decode the reply. *)
Definition fallback_record : pyval :=
  PyDict
    [ (lit "clarity", PyInt 0);
      (lit "age_appropriateness", PyInt 0);
      (lit "emotional_safety", PyInt 0);
      (lit "creativity", PyInt 0);
      (lit "narrative_structure", PyInt 0);
      (lit "total_score", PyInt 0);
      (lit "issues",
       PyList [PyStr (lit "Could not parse judge response as JSON.")]);
      (lit "suggested_fixes",
       PyList [PyStr (lit "Regenerate the story with clearer structure, simpler language, and explicit moral.")]) ].

(** The body of the [try] block of [parse_judge_response]. *)
Definition parse_judge_response_try (raw : str) : result pyval :=
  (let? start := Str.index raw (lit "{") in
   let end_ := Str.rfind raw (lit "}") in
   let json_str := Str.slice raw start (end_ + 1) in
   json_loads json_str)%res.

Definition parse_judge_response (raw : str) : result pyval :=
  try_except (parse_judge_response_try raw) (fun _ => Ok fallback_record).

Definition judge_story (story : str) : M pyval :=
  prompt <- lift (Str.format JUDGE_PROMPT [(lit "story", story)]) ;;
  raw <- call_model prompt 600 (2 # 10) ;;
  lift (parse_judge_response raw).

(** ["\n".join(f"- {i}" for i in items)]. *)
Definition bullet_text (items : pyval) : result str :=
  (let? elements := Py.iter items in
   Ok (Str.join nl (map (fun i => lit "- " ++ builtin_format i) elements)))%res.

(** The prompt [revise_story] sends. *)
Definition revision_prompt (story : str) (judge_data : pyval)
  : result str :=
  (let? issues := Py.get judge_data (lit "issues") (PyList []) in
   let? issues_text := bullet_text issues in
   let? fixes := Py.get judge_data (lit "suggested_fixes") (PyList []) in
   let? fixes_text := bullet_text fixes in
   Str.format REVISION_PROMPT
     [ (lit "story", story);
       (lit "issues", Py.or_ issues_text (lit "- (no issues listed)"));
       (lit "fixes", Py.or_ fixes_text (lit "- (no fixes listed)")) ])%res.

Definition revise_story (story : str) (judge_data : pyval) : M str :=
  prompt <- lift (revision_prompt story judge_data) ;;
  call_model prompt 900 (7 # 10).

(** [judge_data.get("total_score", 0) < min_score and
    round_idx < max_rounds], the condition of the refinement loop. *)
Definition loop_condition (judge_data : pyval)
           (min_score round_idx max_rounds : Z) : result bool :=
  (let? total := Py.get judge_data (lit "total_score") (PyInt 0) in
   let? below := Py.lt_int total min_score in
   Ok (below && (round_idx <? max_rounds)))%res.

(** The three [print] calls that report a round when [verbose]. *)
Definition report_round (heading : str) (judge_data : pyval) : M unit :=
  print [PyStr heading] ;;
  score <- lift (Py.get judge_data (lit "total_score") PyNone) ;;
  print [PyStr (lit "Score:"); score] ;;
  issues <- lift (Py.get judge_data (lit "issues") PyNone) ;;
  print [PyStr (lit "Issues:"); issues; PyStr nl].

(** The body of the [while] loop of [story_pipeline]; it returns the new
    values of the variables of the loop. *)
Definition refine_body (verbose : bool) (round_idx : Z) (story : str)
           (judge_data : pyval) : M (Z * str * pyval) :=
  let round_idx := round_idx + 1 in
  story <- revise_story story judge_data ;;
  judge_data <- judge_story story ;;
  (if verbose then
     report_round
       (lit "--- Judge evaluation: round "
          ++ Py.str_of_int round_idx ++ lit " ---")
       judge_data
   else ret tt) ;;
  ret (round_idx, story, judge_data).

(** The [while] loop of [story_pipeline], with a bound on the number of
    iterations. *)
Fixpoint refine_loop (fuel : nat) (min_score max_rounds : Z)
         (verbose : bool) (round_idx : Z) (story : str)
         (judge_data : pyval) : M (fueled (str * pyval)) :=
  continue <- lift (loop_condition judge_data min_score round_idx max_rounds) ;;
  if continue then
    match fuel with
    | O => ret OutOfFuel
    | S fuel' =>
      vars <- refine_body verbose round_idx story judge_data ;;
      let '(round_idx, story, judge_data) := vars in
      refine_loop fuel' min_score max_rounds verbose round_idx story
                  judge_data
    end
  else ret (Done (story, judge_data)).

(** [story_pipeline] up to its loop: the first draft and its evaluation,
    round 1. *)
Definition first_round (user_request : str) (verbose : bool)
  : M (str * pyval) :=
  story <- generate_initial_story user_request ;;
  judge_data <- judge_story story ;;
  (if verbose then
     report_round (nl ++ lit "--- Judge evaluation: round 1 ---") judge_data
   else ret tt) ;;
  ret (story, judge_data).

Definition story_pipeline_fuel (fuel : nat) (user_request : str)
           (min_score max_rounds : Z) (verbose : bool)
  : M (fueled (str * pyval)) :=
  start <- first_round user_request verbose ;;
  let '(story, judge_data) := start in
  let round_idx := 1 in
  refine_loop fuel min_score max_rounds verbose round_idx story judge_data.

(** [story_pipeline(user_request, min_score, max_rounds, verbose)]; the
    defaults of the source are [min_score = 40], [max_rounds = 3] and
    [verbose = True]. *)
Definition story_pipeline (user_request : str) (min_score max_rounds : Z)
           (verbose : bool) : M (fueled (str * pyval)) :=
  story_pipeline_fuel (Z.to_nat max_rounds) user_request min_score
                      max_rounds verbose.

(** The issue report that [main] prints in three places, with the three
    wordings of its two branches. *)
Definition report_issues (some_reported none_reported : str)
           (issues : pyval) : M unit :=
  if Py.truthy issues then
    print [PyStr some_reported] ;;
    joined <- lift (Py.join (nl ++ lit "- ") issues) ;;
    print [PyStr (lit "- " ++ joined)]
  else
    print [PyStr none_reported].

(** The prompt for a rewrite from the reader's feedback. *)
Definition user_feedback_prompt (current_story user_feedback : str)
  : result str :=
  Str.format USER_FEEDBACK_PROMPT
    [ (lit "story", current_story); (lit "feedback", user_feedback) ].

(** The question the loop of [main] asks on every pass. *)
Definition feedback_question : str :=
  lit "Optional: Would you like to tweak the story again?" ++ nl
    ++ lit "Type feedback like 'shorter', 'more funny', 'add a talking cat', or press Enter with no text to finish."
    ++ nl ++ lit "> ".

(** The branch of the loop of [main] that ends it: the last report. *)
Definition say_goodnight (current_judge_data : pyval) : M unit :=
  print [PyStr (nl ++ lit "No more changes requested.")] ;;
  score <- lift (Py.get current_judge_data (lit "total_score") PyNone) ;;
  print [PyStr (lit "Final internal judge score:"); score] ;;
  final_issues <- lift (Py.get current_judge_data (lit "issues") (PyList [])) ;;
  report_issues (lit "Final judge issues:")
                (lit "Final judge issues: (none reported)") final_issues ;;
  print [PyStr (lit "Goodnight! ðŸŒ™")].

(** The report of a rewrite and of its evaluation. *)
Definition report_update (current_story : str) (updated_judge_data : pyval)
  : M unit :=
  print [PyStr (nl ++ lit "========= UPDATED STORY =========" ++ nl)] ;;
  print [PyStr current_story] ;;
  print [PyStr (nl ++ lit "=================================" ++ nl)] ;;
  print [PyStr (lit "--- Judge evaluation for updated story ---")] ;;
  score <- lift (Py.get updated_judge_data (lit "total_score") PyNone) ;;
  print [PyStr (lit "Total score:"); score] ;;
  issues <- lift (Py.get updated_judge_data (lit "issues") (PyList [])) ;;
  report_issues (lit "Issues:") (lit "Issues: (none reported)") issues ;;
  print [].

(** The other branch: the rewrite from the feedback, its evaluation, and
    the report of both; it returns the new current story and evaluation. *)
Definition apply_feedback (current_story user_feedback : str)
  : M (str * pyval) :=
  feedback_prompt <- lift (user_feedback_prompt current_story user_feedback) ;;
  updated_story <- call_model feedback_prompt 900 (7 # 10) ;;
  updated_judge_data <- judge_story updated_story ;;
  let current_story := updated_story in
  let current_judge_data := updated_judge_data in
  report_update current_story updated_judge_data ;;
  ret (current_story, current_judge_data).

(** One pass through the body of the [while True] loop of [main]: [None]
    when the loop breaks, the new story and evaluation otherwise. *)
Definition feedback_iteration (current_story : str)
           (current_judge_data : pyval) : M (option (str * pyval)) :=
  line <- input feedback_question ;;
  let user_feedback := Str.strip line in
  if negb (Py.truthy (PyStr user_feedback)) then
    say_goodnight current_judge_data ;;
    ret None
  else
    updated <- apply_feedback current_story user_feedback ;;
    ret (Some updated).

(** The [while True] loop of [main]; it ends with the story and the
    evaluation that are current when the reader stops. *)
Fixpoint feedback_loop (fuel : nat) (current_story : str)
         (current_judge_data : pyval) : M (fueled (str * pyval)) :=
  match fuel with
  | O => ret OutOfFuel
  | S fuel' =>
    next <- feedback_iteration current_story current_judge_data ;;
    match next with
    | None => ret (Done (current_story, current_judge_data))
    | Some (story, judge_data) => feedback_loop fuel' story judge_data
    end
  end.

(** [main()] up to the feedback loop: the request, the pipeline and the
    report of its result. *)
Definition main_pipeline : M (fueled (str * pyval)) :=
  print [PyStr (lit "Welcome to the Bedtime Story Maker (ages 5â€“10) ðŸŒ™" ++ nl)] ;;
  user_request <- input
    (lit "What kind of story would you like?" ++ nl
       ++ lit "(For example: 'A dragon who is afraid of the dark but learns to be brave')"
       ++ nl ++ lit "> ") ;;
  outcome <- story_pipeline user_request 40 3 true ;;
  match outcome with
  | OutOfFuel => ret OutOfFuel
  | Done (final_story, final_judge_data) =>
    print [PyStr (nl ++ lit "================= YOUR BEDTIME STORY =================" ++ nl)] ;;
    print [PyStr final_story] ;;
    print [PyStr (nl ++ lit "======================================================")] ;;
    score <- lift (Py.get final_judge_data (lit "total_score") PyNone) ;;
    print [PyStr (lit "(Internal judge total score: "
                    ++ builtin_format score ++ lit ")")] ;;
    original_issues <- lift (Py.get final_judge_data (lit "issues") (PyList [])) ;;
    report_issues (lit "Internal judge issues for this story:")
                  (lit "Internal judge issues for this story: (none reported)")
                  original_issues ;;
    print [] ;;
    ret (Done (final_story, final_judge_data))
  end.

(** [main()]: every pass of the feedback loop reads a line, so one pass
    more than there are lines left is enough. *)
Definition main : M (fueled (str * pyval)) :=
  outcome <- main_pipeline ;;
  match outcome with
  | OutOfFuel => ret OutOfFuel
  | Done (current_story, current_judge_data) =>
    fun w => feedback_loop (S (length (stdin w))) current_story
                           current_judge_data w
  end.

End Program.

(* ================================================================= *)
(** ** A scripted runtime

    A runtime to run the program on.  Its decoder reads JSON documents whose
    numbers are integers or the constant [NaN] (it declines a fraction or
    an exponent, and the escape [\u]); its formatter renders strings, integers, booleans and
    [None] as Python does and containers without escaping; its endpoint
    answers from a script, whatever the prompt.  The theorems below hold for
    every runtime; this one runs their scenarios. *)

Module Mock.

Definition is_ws (c : char) : bool :=
  ((c =? 32) || (c =? 9) || (c =? 10) || (c =? 13))%N.

Fixpoint skip_ws (s : str) : str :=
  match s with
  | c :: t => if is_ws c then skip_ws t else s
  | [] => []
  end.

Fixpoint strip_prefix (p s : str) : option str :=
  match p, s with
  | [], _ => Some s
  | x :: p', y :: s' => if (x =? y)%N then strip_prefix p' s' else None
  | _ :: _, [] => None
  end.

Definition unescape (c : char) : option char :=
  if (c =? 34)%N then Some 34%N
  else if (c =? 92)%N then Some 92%N
  else if (c =? 47)%N then Some 47%N
  else if (c =? chr "b")%N then Some 8%N
  else if (c =? chr "f")%N then Some 12%N
  else if (c =? chr "n")%N then Some 10%N
  else if (c =? chr "r")%N then Some 13%N
  else if (c =? chr "t")%N then Some 9%N
  else None.

(** The rest of a string literal, after its opening quote. *)
Fixpoint scan_string (s acc : str) : result (str * str) :=
  match s with
  | [] => Raise JSONDecodeError
  | c :: t =>
    if (c =? 34)%N then Ok (rev acc, t)
    else if (c =? 92)%N then
      match t with
      | e :: t' =>
        match unescape e with
        | Some c' => scan_string t' (c' :: acc)
        | None => Raise JSONDecodeError
        end
      | [] => Raise JSONDecodeError
      end
    else if (c <? 32)%N then Raise JSONDecodeError
    else scan_string t (c :: acc)
  end.

Definition is_digit (c : char) : bool := ((48 <=? c) && (c <=? 57))%N.

Fixpoint scan_digits (s : str) (acc : Z) : Z * str :=
  match s with
  | c :: t =>
    if is_digit c then scan_digits t (10 * acc + (Z.of_N c - 48)) else (acc, s)
  | [] => (acc, [])
  end.

(** An integer literal without its sign: [0], or digits that do not start
    with [0]; a fraction or an exponent after it is declined. *)
Definition scan_int (s : str) : result (Z * str) :=
  match s with
  | c :: t =>
    if negb (is_digit c) then Raise JSONDecodeError
    else
      let '(n, rest) :=
        if (c =? 48)%N then (0, t) else scan_digits s 0 in
      match rest with
      | d :: _ =>
        if ((d =? chr ".") || (d =? chr "e") || (d =? chr "E"))%N
        then Raise JSONDecodeError else Ok (n, rest)
      | [] => Ok (n, rest)
      end
  | [] => Raise JSONDecodeError
  end.

(** Setting a key keeps the place of an entry that is already there. *)
Fixpoint dict_set (entries : list (str * pyval)) (k : str) (v : pyval)
  : list (str * pyval) :=
  match entries with
  | [] => [(k, v)]
  | (k', v') :: rest =>
    if Str.eqb k' k then (k', v) :: rest else (k', v') :: dict_set rest k v
  end.

Fixpoint parse_value (fuel : nat) (s : str) : result (pyval * str) :=
  match fuel with
  | O => Raise RecursionError
  | S fuel' =>
    match s with
    | [] => Raise JSONDecodeError
    | c :: t =>
      if (c =? 34)%N then
        (let? r := scan_string t [] in Ok (PyStr (fst r), snd r))%res
      else if (c =? chr "{")%N then
        match skip_ws t with
        | c' :: t' =>
          if (c' =? chr "}")%N then Ok (PyDict [], t')
          else parse_members fuel' (c' :: t') []
        | [] => Raise JSONDecodeError
        end
      else if (c =? chr "[")%N then
        match skip_ws t with
        | c' :: t' =>
          if (c' =? chr "]")%N then Ok (PyList [], t')
          else parse_items fuel' (c' :: t') []
        | [] => Raise JSONDecodeError
        end
      else if (c =? chr "-")%N then
        (let? r := scan_int t in Ok (PyInt (- fst r), snd r))%res
      else if is_digit c then
        (let? r := scan_int s in Ok (PyInt (fst r), snd r))%res
      else
        match strip_prefix (lit "null") s with
        | Some rest => Ok (PyNone, rest)
        | None =>
        match strip_prefix (lit "true") s with
        | Some rest => Ok (PyBool true, rest)
        | None =>
        match strip_prefix (lit "false") s with
        | Some rest => Ok (PyBool false, rest)
        | None =>
        match strip_prefix (lit "NaN") s with
        | Some rest => Ok (PyFloat FNan, rest)
        | None => Raise JSONDecodeError
        end end end end
    end
  end

(** The members of an object from the first key on, up to the brace. *)
with parse_members (fuel : nat) (s : str) (acc : list (str * pyval))
  : result (pyval * str) :=
  match fuel with
  | O => Raise RecursionError
  | S fuel' =>
    match s with
    | c :: t =>
      if negb (c =? 34)%N then Raise JSONDecodeError
      else
        (let? key := scan_string t [] in
         match skip_ws (snd key) with
         | colon :: after =>
           if negb (colon =? chr ":")%N then Raise JSONDecodeError
           else
             let? value := parse_value fuel' (skip_ws after) in
             let acc' := dict_set acc (fst key) (fst value) in
             match skip_ws (snd value) with
             | d :: rest =>
               if (d =? chr "}")%N then Ok (PyDict acc', rest)
               else if (d =? chr ",")%N
               then parse_members fuel' (skip_ws rest) acc'
               else Raise JSONDecodeError
             | [] => Raise JSONDecodeError
             end
         | [] => Raise JSONDecodeError
         end)%res
    | [] => Raise JSONDecodeError
    end
  end

(** The items of an array from the first one on, up to the bracket. *)
with parse_items (fuel : nat) (s : str) (acc : list pyval)
  : result (pyval * str) :=
  match fuel with
  | O => Raise RecursionError
  | S fuel' =>
    (let? value := parse_value fuel' s in
     let acc' := acc ++ [fst value] in
     match skip_ws (snd value) with
     | d :: rest =>
       if (d =? chr "]")%N then Ok (PyList acc', rest)
       else if (d =? chr ",")%N
       then parse_items fuel' (skip_ws rest) acc'
       else Raise JSONDecodeError
     | [] => Raise JSONDecodeError
     end)%res
  end.

(** The whole document: one value between optional whitespace. *)
Definition loads (s : str) : result pyval :=
  (let? r := parse_value (S (length s)) (skip_ws s) in
   match skip_ws (snd r) with
   | [] => Ok (fst r)
   | _ :: _ => Raise JSONDecodeError
   end)%res.

Definition decimal (z : Z) : str := Py.str_of_int z.

(** [repr] when [quote], [str] otherwise: they differ on strings. *)
Fixpoint render (quote : bool) (v : pyval) : str :=
  match v with
  | PyNone => lit "None"
  | PyBool b => if b then lit "True" else lit "False"
  | PyInt z => decimal z
  | PyFloat _ => lit "<float>"
  | PyStr s => if quote then lit "'" ++ s ++ lit "'" else s
  | PyList items =>
    lit "[" ++ Str.join (lit ", ") (map (render true) items) ++ lit "]"
  | PyDict entries =>
    lit "{"
      ++ Str.join (lit ", ")
           (map (fun kv => lit "'" ++ fst kv ++ lit "': " ++ render true (snd kv))
                entries)
      ++ lit "}"
  end.

Definition format (v : pyval) : str := render false v.

(** The endpoint answers its n-th request with the n-th entry of the
    script and fails once the script is used up. *)
Definition scripted (script : list (result str))
  : list exchange -> request -> result str :=
  fun log _ => nth (length log) script (Raise OpenAIError).

Definition runtime (script : list (result str)) : Runtime :=
  {| json_loads := loads;
     builtin_format := format;
     ChatCompletion_create := scripted script |}.

Definition fresh (lines : list str) : world :=
  {| gateway_log := []; stdin := lines; stdout := [] |}.

(** A judge's reply that reports nothing but a total. *)
Definition verdict (total : Z) : str :=
  lit "{" ++ dq ++ lit "total_score" ++ dq ++ lit ": " ++ decimal total
    ++ lit "}".

(** A script for three rounds that total 25, 30 and 20, and for one rewrite
    from feedback that totals 44. *)
Definition three_rounds : list (result str) :=
  [ Ok (lit "A first draft."); Ok (verdict 25);
    Ok (lit "A second draft."); Ok (verdict 30);
    Ok (lit "A third draft."); Ok (verdict 20);
    Ok (lit "A funnier draft."); Ok (verdict 44) ].



End Mock.

(* ================================================================= *)
(** ** What the theorems observe *)

Section Observations.

Context {rt : Runtime}.

(** The text [parse_judge_response] hands to the decoder when the reply
    holds an opening brace: [raw[start:end + 1]]. *)
Definition candidate (raw : str) : str :=
  Str.slice raw (Str.find raw (lit "{")) (Str.rfind raw (lit "}") + 1).


(** The bullet block the specification describes: one line per item, or
    the placeholder when there is none. *)
Definition bullets (items : list str) (placeholder : str) : str :=
  match items with
  | [] => placeholder
  | _ :: _ => Str.join nl (map (fun item => lit "- " ++ item) items)
  end.

(** The revision template with its three fields filled in. *)
Definition revision_prompt_text (story issues fixes : str) : str :=
  Str.join nl
    [ [];
      lit "You are revising a children's bedtime story for ages 5â€“10.";
      [];
      lit "Original story:";
      dq ++ dq ++ dq ]
  ++ story
  ++ Str.join nl
       [ dq ++ dq ++ dq;
         [];
         lit "Feedback from a quality judge:";
         [];
         lit "Issues:";
         [] ]
  ++ issues
  ++ Str.join nl [ []; []; lit "Suggested fixes:"; [] ]
  ++ fixes
  ++ Str.join nl
       [ [];
         [];
         lit "Rewrite the story to address this feedback while:";
         lit "- Keeping it between 350â€“600 words";
         lit "- Preserving the core theme and characters";
         lit "- Making it even clearer, kinder, and more engaging";
         lit "- Ending with a short moral that starts with " ++ dq ++ lit "Moral:" ++ dq;
         [];
         lit "Return ONLY the improved story, with no explanation or comments.";
         [] ].

(** *** Requests and exchanges *)

Definition chat_request (prompt : str) (max_tokens : Z) (temperature : Q)
  : request :=
  {| model := lit "gpt-3.5-turbo";
     content := prompt;
     max_tokens := max_tokens;
     temperature := temperature |}.

(** The answer of the endpoint in a world, and the world after it. *)
Definition ask (w : world) (req : request) : result str :=
  ChatCompletion_create (gateway_log w) req.

Definition after (w : world) (req : request) : world :=
  {| gateway_log := gateway_log w ++ [{| sent := req; received := ask w req |}];
     stdin := stdin w;
     stdout := stdout w |}.

(** A template with its fields filled in; the templates of the program are
    well formed, so the default is never used. *)
Definition prompt_text (template : str) (kwargs : list (str * str)) : str :=
  match Str.format template kwargs with
  | Ok prompt => prompt
  | Raise _ => []
  end.

Definition draft_request (user_request : str) : request :=
  chat_request
    (prompt_text STORY_WRITER_PROMPT [(lit "user_request", user_request)])
    900 (8 # 10).

Definition judge_request (story : str) : request :=
  chat_request (prompt_text JUDGE_PROMPT [(lit "story", story)]) 600 (2 # 10).

Definition revise_request (prompt : str) : request :=
  chat_request prompt 900 (7 # 10).

Definition rewrite_request (current_story user_feedback : str) : request :=
  chat_request
    (prompt_text USER_FEEDBACK_PROMPT
       [ (lit "story", current_story); (lit "feedback", user_feedback) ])
    900 (7 # 10).

(** Only [judge_story] asks for 600 tokens at temperature 0.2: these are the
    evaluation calls. *)
Definition is_judge_request (req : request) : bool :=
  (max_tokens req =? 600) && Qeq_bool (temperature req) (2 # 10).

Definition judge_requests (log : list exchange) : nat :=
  length (filter (fun e => is_judge_request (sent e)) log).

(** The exchanges of a run from [w] to [w']. *)
Definition exchanges_since (w w' : world) : list exchange :=
  skipn (length (gateway_log w)) (gateway_log w').

(** *** Rounds and their scores *)

(** The total an evaluation reports, when it is an integer; 0 when the
    record does not hold the key. *)
Definition total_score_of (judge_data : pyval) : option Z :=
  match Py.get judge_data (lit "total_score") (PyInt 0) with
  | Ok (PyInt z) => Some z
  | _ => None
  end.

(** The totals of the current round and of [more] rounds after it, when the
    rounds are run one after the other whatever their scores. *)
Fixpoint scores_from (more : nat) (verbose : bool) (round_idx : Z)
         (story : str) (judge_data : pyval) (w : world) : option (list Z) :=
  match total_score_of judge_data with
  | None => None
  | Some s =>
    match more with
    | O => Some [s]
    | S more' =>
      match refine_body verbose round_idx story judge_data w with
      | (Ok (round_idx', story', judge_data'), w') =>
        option_map (cons s)
          (scores_from more' verbose round_idx' story' judge_data' w')
      | (Raise _, _) => None
      end
    end
  end.

(** The totals of rounds 1 to [rounds] (of round 1 alone when [rounds] is
    0: the first evaluation is always made). *)
Definition round_scores (rounds : nat) (user_request : str)
           (verbose : bool) (w : world) : option (list Z) :=
  match first_round user_request verbose w with
  | (Ok (story, judge_data), w') =>
    scores_from (pred rounds) verbose 1 story judge_data w'
  | (Raise _, _) => None
  end.

(** The first round, counted from 1, whose total reaches the threshold. *)
Fixpoint first_passing (min_score : Z) (scores : list Z) : option nat :=
  match scores with
  | [] => None
  | s :: rest =>
    if min_score <=? s then Some 1%nat
    else option_map S (first_passing min_score rest)
  end.

(** What [<] compares with an [int]. *)
Definition numeric (v : pyval) : bool :=
  match v with
  | PyInt _ | PyBool _ | PyFloat _ => true
  | _ => false
  end.










(** In world [w] the evaluation [judge_data] is what [judge_story] made of
    [story], the last text the endpoint wrote, and nothing was asked
    since. *)
Definition judged (story : str) (judge_data : pyval) (w : world) : Prop :=
  exists w0 w1 log0 e_story,
    gateway_log w0 = log0 ++ [e_story]
    /\ received e_story = Ok story
    /\ is_judge_request (sent e_story) = false
    /\ judge_story story w0 = (Ok judge_data, w1)
    /\ gateway_log w = gateway_log w1.

(** *** The console *)

(** The value [d.get(key, default)] reads from the entries of a dict. *)
Definition entry (entries : list (str * pyval)) (key : str)
           (default : pyval) : pyval :=
  match Py.lookup entries key with
  | Some v => v
  | None => default
  end.

(** The issue report goes through: there are no issues, or they can be
    joined and the text they give can be written. *)
Definition issues_reportable (issues : pyval) : bool :=
  if Py.truthy issues then
    match Py.join (nl ++ lit "- ") issues with
    | Ok joined => Str.encodable joined
    | Raise _ => false
    end
  else true.

(** The reports of [main] go through on an evaluation: its score can be
    read and written, and so can its issues. *)
Definition reportable (judge_data : pyval) : bool :=
  match Py.get judge_data (lit "total_score") PyNone,
        Py.get judge_data (lit "issues") (PyList []) with
  | Ok score, Ok issues => Py.writable score && issues_reportable issues
  | _, _ => false
  end.

(** The report of a round goes through on the entries of an evaluation:
    the heading, the score and the issues can be written. *)
Definition round_reportable (heading : str) (entries : list (str * pyval))
  : bool :=
  Str.encodable heading
  && Py.writable (entry entries (lit "total_score") PyNone)
  && Py.writable (entry entries (lit "issues") PyNone).

(** A line that holds nothing but whitespace. *)
Definition whitespace (line : str) : bool := forallb Str.isspace line.

(** A text that neither starts nor ends with whitespace and is not
    empty. *)
Definition trimmed (core : str) : bool :=
  match core with
  | [] => false
  | c :: _ => negb (Str.isspace c) && negb (Str.isspace (last core c))
  end.

(** From [w] to [w'] nothing was asked or read; the console may have
    printed. *)
Definition quiet (w w' : world) : Prop :=
  gateway_log w' = gateway_log w
  /\ stdin w' = stdin w
  /\ exists out, stdout w' = stdout w ++ out.

(** The world after [input] has read a line. *)
Definition after_input (w : world) (prompt : str) : world :=
  {| gateway_log := gateway_log w;
     stdin := tl (stdin w);
     stdout := stdout w ++ [Asked prompt] |}.

End Observations.

(* ================================================================= *)
(** ** Sessions with the endpoint *)

(** The drafting template around the request. *)
Definition story_writer_prompt_text (user_request : str) : str :=
  Str.join nl
    [ [];
      lit "You are an expert children's author.";
      [];
      lit "Write a bedtime story for a child aged between 5 and 10 years old.";
      [];
      lit "Requirements:";
      lit "- The story must be gentle, kind, and emotionally safe.";
      lit "- Use simple, concrete language that a 2ndâ€“4th grader can understand.";
      lit "- Length: about 350â€“600 words.";
      lit "- Clear beginning, middle, and end.";
      lit "- A small, non-scary problem that gets resolved positively.";
      lit "- Include a short 1â€“2 sentence moral at the end starting with " ++ dq ++ lit "Moral:" ++ dq ++ lit ".";
      [];
      lit "The child's story request is:";
      dq ]
  ++ user_request
  ++ Str.join nl
      [ dq;
        [];
        lit "Now write ONLY the story. Do not add any explanation or commentary.";
        [] ].

(** The judge template around the story; its doubled braces have become
    the braces of the JSON example. *)
Definition judge_prompt_text (story : str) : str :=
  Str.join nl
    [ [];
      lit "You are a strict but kind editorial judge for children's bedtime stories (ages 5â€“10).";
      [];
      lit "Your job is to review the story below and return a JSON object ONLY, with no extra text.";
      [];
      lit "Evaluate the story on:";
      lit "- clarity (0â€“10)";
      lit "- age_appropriateness (0â€“10)";
      lit "- emotional_safety (0â€“10)";
      lit "- creativity (0â€“10)";
      lit "- narrative_structure (0â€“10)";
      [];
      lit "Also include:";
      lit "- total_score: sum of the five scores";
      lit "- issues: a short list of strings describing concrete problems";
      lit "- suggested_fixes: a short list of specific, actionable improvements";
      [];
      lit "Return JSON in this format ONLY:";
      lit "{";
      lit "  " ++ dq ++ lit "clarity" ++ dq ++ lit ": 9,";
      lit "  " ++ dq ++ lit "age_appropriateness" ++ dq ++ lit ": 10,";
      lit "  " ++ dq ++ lit "emotional_safety" ++ dq ++ lit ": 9,";
      lit "  " ++ dq ++ lit "creativity" ++ dq ++ lit ": 8,";
      lit "  " ++ dq ++ lit "narrative_structure" ++ dq ++ lit ": 9,";
      lit "  " ++ dq ++ lit "total_score" ++ dq ++ lit ": 45,";
      lit "  " ++ dq ++ lit "issues" ++ dq ++ lit ": [" ++ dq ++ lit "issue 1" ++ dq ++ lit ", " ++ dq ++ lit "issue 2" ++ dq ++ lit "],";
      lit "  " ++ dq ++ lit "suggested_fixes" ++ dq ++ lit ": [" ++ dq ++ lit "fix 1" ++ dq ++ lit ", " ++ dq ++ lit "fix 2" ++ dq ++ lit "]";
      lit "}";
      [];
      lit "Here is the story to judge:";
      dq ++ dq ++ dq ]
  ++ story
  ++ Str.join nl
      [ dq ++ dq ++ dq;
        [] ].

(** The feedback template around the story and the feedback. *)
Definition user_feedback_prompt_text (story feedback : str) : str :=
  Str.join nl
    [ [];
      lit "You are a children's story rewriter.";
      [];
      lit "Here is the current story:";
      dq ++ dq ++ dq ]
  ++ story
  ++ Str.join nl
      [ dq ++ dq ++ dq;
        [];
        lit "Here is additional feedback from the human reader:";
        dq ++ dq ++ dq ]
  ++ feedback
  ++ Str.join nl
      [ dq ++ dq ++ dq;
        [];
        lit "Rewrite the story to incorporate this feedback while:";
        lit "- Keeping it appropriate and emotionally safe for ages 5â€“10";
        lit "- Keeping roughly the same length";
        lit "- Keeping a clear beginning, middle, and end";
        lit "- Ending with a moral starting with " ++ dq ++ lit "Moral:" ++ dq;
        [];
        lit "Return ONLY the new story.";
        [] ].

(** An exchange that the endpoint answered. *)
Definition answered (e : exchange) : Prop :=
  exists text, received e = Ok text.

(** The shape of the exchanges of a session: every text the endpoint writes
    is judged in the very next exchange, and an exchange that fails is the
    last one. *)
Inductive session_log : list exchange -> Prop :=
| session_end : session_log []
| session_failed_text (e : exchange) (err : exn) :
    is_judge_request (sent e) = false ->
    received e = Raise err ->
    session_log [e]
| session_failed_judge (e1 e2 : exchange) (text : str) (err : exn) :
    is_judge_request (sent e1) = false ->
    received e1 = Ok text ->
    sent e2 = judge_request text ->
    received e2 = Raise err ->
    session_log [e1; e2]
| session_round (e1 e2 : exchange) (text raw : str) (rest : list exchange) :
    is_judge_request (sent e1) = false ->
    received e1 = Ok text ->
    sent e2 = judge_request text ->
    received e2 = Ok raw ->
    session_log rest ->
    session_log (e1 :: e2 :: rest).

(** Two worlds with the same exchanges and the same input left: they may
    differ in what the console has printed. *)
Definition same_service (w1 w2 : world) : Prop :=
  gateway_log w1 = gateway_log w2 /\ stdin w1 = stdin w2.

(** Two runs that end alike: the same result, in worlds that differ in the
    console output at most. *)
Definition agree {A} (x y : result A * world) : Prop :=
  fst x = fst y /\ same_service (snd x) (snd y).

(** The first run was cut short by a [print] that could not encode its
    text: it raised [UnicodeEncodeError] when the second run, which goes on,
    had had the same exchanges and no more; the input is the same. *)
Definition cut_short {A} (x y : result A * world) : Prop :=
  fst x = Raise UnicodeEncodeError
  /\ (exists more, gateway_log (snd y) = gateway_log (snd x) ++ more)
  /\ stdin (snd x) = stdin (snd y).

(** A line of input that is blank once stripped. *)
Definition blank (line : str) : Prop := Str.strip line = [].

(** What a [for] loop runs over. *)
Definition iterable (v : pyval) : bool :=
  match v with
  | PyList _ | PyStr _ | PyDict _ => true
  | _ => false
  end.

(** A computation that only talks: whatever it ends with, it asked the
    endpoint nothing, read no input and took nothing back from the
    console. *)
Definition talks {A} (c : M A) : Prop :=
  forall (w w' : world) (r : result A), c w = (r, w') -> quiet w w'.

(** A computation that leaves the console as it is. *)
Definition silent {A} (c : M A) : Prop :=
  forall w : world, stdout (snd (c w)) = stdout w.

(** A computation that touches the console only: it asks the endpoint
    nothing and reads no input, whatever it ends with. *)
Definition console_only {A} (c : M A) : Prop :=
  forall (w w' : world) (r : result A),
    c w = (r, w') -> gateway_log w' = gateway_log w /\ stdin w' = stdin w.

(** *** An endpoint that always answers *)

Module Steady.

(** The endpoint answers every request for an evaluation with [verdict] and
    every other request with [text]. *)
Definition endpoint (text verdict : str)
  : list exchange -> request -> result str :=
  fun _ req => Ok (if is_judge_request req then verdict else text).

Definition runtime (text verdict : str) : Runtime :=
  {| json_loads := Mock.loads;
     builtin_format := Mock.format;
     ChatCompletion_create := endpoint text verdict |}.

End Steady.

(* ================================================================= *)
(** ** Facts about the string methods *)

Module StrFacts.

Lemma eqb_eq (a b : str) : Str.eqb a b = true <-> a = b.
Proof.
  revert b; induction a as [|x a IH]; intros [|y b]; simpl;
    try (split; (reflexivity || discriminate)).
  rewrite andb_true_iff, N.eqb_eq, IH.
  split; [intros [-> ->]; reflexivity | intros H; inversion H; auto].
Qed.

Lemma startswith_char (c : char) (s : str) :
  Str.startswith s [c]
  = match s with x :: _ => (c =? x)%N | [] => false end.
Proof.
  destruct s as [|x s]; simpl; [reflexivity|].
  destruct s; apply andb_true_r.
Qed.

Lemma find_from_cons (c x : char) (s : str) (i : Z) :
  Str.find_from (x :: s) [c] i
  = if (c =? x)%N then i else Str.find_from s [c] (i + 1).
Proof.
  change (Str.find_from (x :: s) [c] i)
    with (if Str.startswith (x :: s) [c] then i
          else Str.find_from s [c] (i + 1)).
  rewrite startswith_char; reflexivity.
Qed.

Lemma find_from_absent (c : char) (s : str) (i : Z) :
  ~ In c s -> Str.find_from s [c] i = -1.
Proof.
  revert i; induction s as [|x s IH]; intros i Hc; [reflexivity|].
  rewrite find_from_cons.
  destruct (N.eqb_spec c x) as [->|_]; [exfalso; apply Hc; left; reflexivity|].
  apply IH; intros H; apply Hc; right; exact H.
Qed.

Lemma find_from_first (c : char) (pre rest : str) (i : Z) :
  ~ In c pre ->
  Str.find_from (pre ++ c :: rest) [c] i = i + Z.of_nat (length pre).
Proof.
  revert i; induction pre as [|x pre IH]; intros i Hc.
  - simpl app. rewrite find_from_cons, N.eqb_refl. simpl; lia.
  - simpl app. rewrite find_from_cons.
    destruct (N.eqb_spec c x) as [->|_];
      [exfalso; apply Hc; left; reflexivity|].
    rewrite IH by (intros H; apply Hc; right; exact H).
    simpl length; lia.
Qed.

(** An occurrence splits the string at its first occurrence. *)
Lemma in_split_first (c : char) (s : str) :
  In c s -> exists pre rest, s = pre ++ c :: rest /\ ~ In c pre.
Proof.
  induction s as [|x s IH]; intros H; [destruct H|].
  destruct (N.eq_dec x c) as [->|Hne].
  - exists [], s; split; [reflexivity | intros []].
  - destruct H as [H|H]; [contradiction|].
    destruct (IH H) as (pre & rest & -> & Hpre).
    exists (x :: pre), rest; split; [reflexivity|].
    intros [E|E]; [contradiction | exact (Hpre E)].
Qed.

Lemma find_present (c : char) (s : str) : In c s -> 0 <= Str.find s [c].
Proof.
  intros H; destruct (in_split_first c s H) as (pre & rest & -> & Hpre).
  unfold Str.find; rewrite find_from_first by exact Hpre; lia.
Qed.

Lemma index_absent (c : char) (s : str) :
  ~ In c s -> Str.index s [c] = Raise ValueError.
Proof.
  intros H; unfold Str.index, Str.find.
  rewrite find_from_absent by exact H; reflexivity.
Qed.

Lemma index_present (c : char) (s : str) :
  In c s -> Str.index s [c] = Ok (Str.find s [c]).
Proof.
  intros H; unfold Str.index.
  pose proof (find_present c s H) as Hge.
  destruct (Z.ltb_spec (Str.find s [c]) 0); [lia | reflexivity].
Qed.

Lemma index_first (c : char) (pre rest : str) :
  ~ In c pre ->
  Str.index (pre ++ c :: rest) [c] = Ok (Z.of_nat (length pre)).
Proof.
  intros H; unfold Str.index, Str.find.
  rewrite find_from_first by exact H.
  destruct (Z.ltb_spec (0 + Z.of_nat (length pre)) 0); [lia | f_equal; lia].
Qed.

Lemma rfind_from_cons (c x : char) (s : str) (i : Z) :
  Str.rfind_from (x :: s) [c] i
  = if 0 <=? Str.rfind_from s [c] (i + 1) then Str.rfind_from s [c] (i + 1)
    else if (c =? x)%N then i else -1.
Proof.
  change (Str.rfind_from (x :: s) [c] i)
    with (if 0 <=? Str.rfind_from s [c] (i + 1)
          then Str.rfind_from s [c] (i + 1)
          else if Str.startswith (x :: s) [c] then i else -1).
  rewrite startswith_char; reflexivity.
Qed.

Lemma rfind_from_absent (c : char) (s : str) (i : Z) :
  ~ In c s -> Str.rfind_from s [c] i = -1.
Proof.
  revert i; induction s as [|x s IH]; intros i Hc; [reflexivity|].
  rewrite rfind_from_cons, IH by (intros H; apply Hc; right; exact H).
  simpl.
  destruct (N.eqb_spec c x) as [->|_];
    [exfalso; apply Hc; left; reflexivity | reflexivity].
Qed.

Lemma rfind_from_last (c : char) (pre suf : str) (i : Z) :
  0 <= i -> ~ In c suf ->
  Str.rfind_from (pre ++ c :: suf) [c] i = i + Z.of_nat (length pre).
Proof.
  revert i; induction pre as [|x pre IH]; intros i Hi Hc.
  - simpl app. rewrite rfind_from_cons, rfind_from_absent by exact Hc.
    simpl. rewrite N.eqb_refl; lia.
  - simpl app. rewrite rfind_from_cons, IH by (lia || exact Hc).
    destruct (Z.leb_spec 0 (i + 1 + Z.of_nat (length pre)));
      [simpl length; lia | lia].
Qed.

Lemma rfind_absent (c : char) (s : str) : ~ In c s -> Str.rfind s [c] = -1.
Proof. apply rfind_from_absent. Qed.

Lemma rfind_last (c : char) (pre suf : str) :
  ~ In c suf -> Str.rfind (pre ++ c :: suf) [c] = Z.of_nat (length pre).
Proof.
  intros H; unfold Str.rfind; rewrite rfind_from_last by (lia || exact H); lia.
Qed.

Lemma rfind_from_lower (sub s : str) (i : Z) :
  0 <= i -> -1 <= Str.rfind_from s sub i.
Proof.
  revert i; induction s as [|x s IH]; intros i Hi; cbn [Str.rfind_from].
  - destruct (Str.startswith [] sub); lia.
  - specialize (IH (i + 1) ltac:(lia)).
    destruct (Z.leb_spec 0 (Str.rfind_from s sub (i + 1))); [lia|].
    destruct (Str.startswith (x :: s) sub); lia.
Qed.

Lemma rfind_lower (sub s : str) : -1 <= Str.rfind s sub.
Proof. apply rfind_from_lower; lia. Qed.

(** A slice whose upper bound does not exceed its lower bound is empty. *)
Lemma slice_empty (s : str) (i j : Z) :
  0 <= j <= i -> Str.slice s i j = [].
Proof.
  intros H; unfold Str.slice, Str.clamp.
  destruct (Z.ltb_spec i 0); [lia|].
  destruct (Z.ltb_spec j 0); [lia|].
  replace (Z.to_nat _) with 0%nat by lia.
  reflexivity.
Qed.

(** The slice between the lengths of a prefix and of a prefix and a middle
    part is the middle part. *)
Lemma slice_middle (pre mid suf : str) :
  Str.slice (pre ++ mid ++ suf) (Z.of_nat (length pre))
            (Z.of_nat (length pre) + Z.of_nat (length mid))
  = mid.
Proof.
  unfold Str.slice, Str.clamp.
  rewrite !length_app.
  destruct (Z.ltb_spec (Z.of_nat (length pre)) 0); [lia|].
  destruct (Z.ltb_spec (Z.of_nat (length pre) + Z.of_nat (length mid)) 0);
    [lia|].
  rewrite !Z.min_l by lia.
  rewrite Nat2Z.id.
  replace (Z.to_nat _) with (length mid) by lia.
  rewrite skipn_app, skipn_all, Nat.sub_diag. simpl.
  rewrite firstn_app, firstn_all, Nat.sub_diag. simpl.
  apply app_nil_r.
Qed.

(** *** [strip] *)

Lemma lstrip_whitespace (s : str) :
  forallb Str.isspace s = true -> Str.lstrip s = [].
Proof.
  induction s as [|c t IH]; [reflexivity|].
  cbn [forallb Str.lstrip]. intros H.
  apply andb_true_iff in H as [-> Ht]. apply IH. exact Ht.
Qed.

Lemma lstrip_app (pre s : str) :
  forallb Str.isspace pre = true -> Str.lstrip (pre ++ s) = Str.lstrip s.
Proof.
  induction pre as [|c t IH]; [reflexivity|].
  cbn [forallb app Str.lstrip]. intros H.
  apply andb_true_iff in H as [-> Ht]. apply IH. exact Ht.
Qed.

Lemma lstrip_head (c : char) (t : str) :
  Str.isspace c = false -> Str.lstrip (c :: t) = c :: t.
Proof. intros H. cbn [Str.lstrip]. rewrite H. reflexivity. Qed.

(** What [lstrip] leaves is whitespace only when it is empty. *)
Lemma lstrip_left (s : str) :
  forallb Str.isspace (Str.lstrip s) = true -> Str.lstrip s = [].
Proof.
  induction s as [|c t IH]; [reflexivity|].
  cbn [Str.lstrip]. destruct (Str.isspace c) eqn:Hc; [exact IH|].
  cbn [forallb]. rewrite Hc. discriminate.
Qed.

Lemma lstrip_nil (s : str) :
  Str.lstrip s = [] -> forallb Str.isspace s = true.
Proof.
  induction s as [|c t IH]; [reflexivity|].
  cbn [Str.lstrip forallb]. destruct (Str.isspace c); [exact IH|discriminate].
Qed.

Lemma forallb_rev (f : char -> bool) (s : str) :
  forallb f (rev s) = forallb f s.
Proof.
  induction s as [|c t IH]; [reflexivity|].
  cbn [rev forallb]. rewrite forallb_app, IH. cbn [forallb].
  rewrite andb_true_r. apply andb_comm.
Qed.

Lemma rev_nil (s : str) : rev s = [] -> s = [].
Proof.
  intros H. apply (f_equal (@rev char)) in H.
  rewrite rev_involutive in H. exact H.
Qed.

(** A line is blank once stripped exactly when it holds nothing but
    whitespace. *)
Lemma strip_blank (s : str) :
  Str.strip s = [] <-> forallb Str.isspace s = true.
Proof.
  unfold Str.strip, Str.rstrip. split.
  - intros H. apply rev_nil in H. apply lstrip_nil in H.
    rewrite forallb_rev in H. apply lstrip_left in H.
    apply lstrip_nil. exact H.
  - intros H. rewrite (lstrip_whitespace _ H). reflexivity.
Qed.

(** Whitespace around a text that neither starts nor ends with whitespace
    is what [strip] removes. *)
Lemma strip_core (pre core suf : str) (c : char) (t : str) :
  forallb Str.isspace pre = true ->
  forallb Str.isspace suf = true ->
  core = c :: t ->
  Str.isspace c = false ->
  Str.isspace (last core c) = false ->
  Str.strip (pre ++ core ++ suf) = core.
Proof.
  intros Hpre Hsuf Hcore Hfirst Hlast.
  unfold Str.strip, Str.rstrip.
  rewrite (lstrip_app _ _ Hpre).
  rewrite Hcore at 1. cbn [app]. rewrite (lstrip_head _ _ Hfirst).
  change (c :: t ++ suf) with ((c :: t) ++ suf). rewrite <- Hcore.
  rewrite rev_app_distr.
  rewrite lstrip_app by (rewrite forallb_rev; exact Hsuf).
  assert (Hne : core <> []) by (rewrite Hcore; discriminate).
  rewrite (app_removelast_last c Hne) at 1.
  rewrite rev_app_distr. cbn [rev app].
  rewrite (lstrip_head _ _ Hlast).
  change (last core c :: rev (removelast core))
    with (rev [last core c] ++ rev (removelast core)).
  rewrite <- rev_app_distr, <- (app_removelast_last c Hne).
  apply rev_involutive.
Qed.

End StrFacts.

(* ================================================================= *)
(** ** The response parser *)

Section Parser.

Context {rt : Runtime}.

Lemma try_with_brace (raw : str) :
  In Str.lbrace raw ->
  parse_judge_response_try raw = json_loads (candidate raw).
Proof.
  intros H; unfold parse_judge_response_try, candidate.
  change (lit "{") with [Str.lbrace].
  rewrite (StrFacts.index_present _ _ H); reflexivity.
Qed.

Lemma try_without_brace (raw : str) :
  ~ In Str.lbrace raw -> parse_judge_response_try raw = Raise ValueError.
Proof.
  intros H; unfold parse_judge_response_try.
  change (lit "{") with [Str.lbrace].
  rewrite (StrFacts.index_absent _ _ H); reflexivity.
Qed.

Lemma parse_of_try_failure (raw : str) (e : exn) :
  parse_judge_response_try raw = Raise e ->
  parse_judge_response raw = Ok fallback_record.
Proof. intros H; unfold parse_judge_response; rewrite H; reflexivity. Qed.

Lemma parse_of_try_success (raw : str) (record : pyval) :
  parse_judge_response_try raw = Ok record ->
  parse_judge_response raw = Ok record.
Proof. intros H; unfold parse_judge_response; rewrite H; reflexivity. Qed.

Lemma candidate_without_closing (raw : str) :
  In Str.lbrace raw -> ~ In Str.rbrace raw -> candidate raw = [].
Proof.
  intros Hl Hr; unfold candidate.
  change (lit "}") with [Str.rbrace]; change (lit "{") with [Str.lbrace].
  rewrite (StrFacts.rfind_absent _ _ Hr).
  apply StrFacts.slice_empty.
  pose proof (StrFacts.find_present _ _ Hl); lia.
Qed.

Lemma candidate_closing_first (raw : str) :
  In Str.lbrace raw ->
  Str.rfind raw (lit "}") < Str.find raw (lit "{") ->
  candidate raw = [].
Proof.
  intros Hl Hlt; unfold candidate.
  apply StrFacts.slice_empty.
  pose proof (StrFacts.rfind_lower (lit "}") raw); lia.
Qed.

Lemma candidate_embedded (pre body suf : str) :
  ~ In Str.lbrace pre -> ~ In Str.rbrace suf ->
  candidate (pre ++ lit "{" ++ body ++ lit "}" ++ suf)
  = lit "{" ++ body ++ lit "}".
Proof.
  intros Hpre Hsuf; unfold candidate.
  change (lit "{") with [Str.lbrace]; change (lit "}") with [Str.rbrace].
  cbn [app].
  unfold Str.find; rewrite StrFacts.find_from_first by exact Hpre.
  replace (pre ++ Str.lbrace :: body ++ Str.rbrace :: suf)
    with ((pre ++ Str.lbrace :: body) ++ Str.rbrace :: suf)
    by (rewrite <- app_assoc; reflexivity).
  rewrite StrFacts.rfind_last by exact Hsuf.
  replace ((pre ++ Str.lbrace :: body) ++ Str.rbrace :: suf)
    with (pre ++ (Str.lbrace :: body ++ [Str.rbrace]) ++ suf)
    by (rewrite <- !app_assoc; cbn [app]; rewrite <- app_assoc; reflexivity).
  replace (Z.of_nat (length (pre ++ Str.lbrace :: body)) + 1)
    with (Z.of_nat (length pre)
          + Z.of_nat (length (Str.lbrace :: body ++ [Str.rbrace])))
    by (rewrite !length_app; cbn [length]; rewrite length_app;
        cbn [length]; lia).
  rewrite Z.add_0_l.
  apply StrFacts.slice_middle.
Qed.

(** C3.  Whenever parsing fails (the reply has no opening brace or no
    closing brace, the decoder rejects the text between the braces, or the
    [try] block raises anything at all) [parse_judge_response] returns the
    fixed fallback record: the five sub-scores and the total 0, the one
    issue, the one suggested fix. *)
Theorem parse_failure_returns_fallback (raw : str) :
  (exists e, json_loads [] = Raise e) ->
  (~ In Str.lbrace raw
   \/ ~ In Str.rbrace raw
   \/ (exists e, json_loads (candidate raw) = Raise e)
   \/ (exists e, parse_judge_response_try raw = Raise e)) ->
  parse_judge_response raw
  = Ok (PyDict
          [ (lit "clarity", PyInt 0);
            (lit "age_appropriateness", PyInt 0);
            (lit "emotional_safety", PyInt 0);
            (lit "creativity", PyInt 0);
            (lit "narrative_structure", PyInt 0);
            (lit "total_score", PyInt 0);
            (lit "issues",
             PyList [PyStr (lit "Could not parse judge response as JSON.")]);
            (lit "suggested_fixes",
             PyList [PyStr (lit "Regenerate the story with clearer structure, simpler language, and explicit moral.")]) ]).
Proof.
  intros [e0 Hempty] Hfail.
  change (parse_judge_response raw = Ok fallback_record).
  destruct (in_dec N.eq_dec Str.lbrace raw) as [Hl|Hl].
  - destruct Hfail as [H|[H|[[e H]|[e H]]]].
    + contradiction.
    + apply parse_of_try_failure with e0.
      rewrite try_with_brace, candidate_without_closing by assumption.
      exact Hempty.
    + apply parse_of_try_failure with e.
      rewrite try_with_brace by assumption. exact H.
    + apply parse_of_try_failure with e. exact H.
  - apply parse_of_try_failure with ValueError.
    apply try_without_brace; exact Hl.
Qed.

(** C4.  A reply that wraps one JSON object in commentary, with no opening
    brace before the object and no closing brace after it, parses to what the
    decoder makes of the object alone, unchanged. *)
Theorem parse_embedded_object (pre body suf : str) (record : pyval) :
  ~ In Str.lbrace pre ->
  ~ In Str.rbrace suf ->
  json_loads (lit "{" ++ body ++ lit "}") = Ok record ->
  parse_judge_response (pre ++ lit "{" ++ body ++ lit "}" ++ suf) = Ok record.
Proof.
  intros Hpre Hsuf Hvalid.
  apply parse_of_try_success.
  rewrite try_with_brace.
  - rewrite candidate_embedded by assumption. exact Hvalid.
  - apply in_or_app; right; left; reflexivity.
Qed.

(** C8.  The issue string of the fallback record holds no brace, so parsing
    it gives the fallback record again. *)
Theorem fallback_idempotent :
  Py.get fallback_record (lit "issues") PyNone
  = Ok (PyList [PyStr (lit "Could not parse judge response as JSON.")])
  /\ parse_judge_response (lit "Could not parse judge response as JSON.")
     = Ok fallback_record.
Proof. split; vm_compute; reflexivity. Qed.

(** C9.  [parse_judge_response] returns a record on every input.  A reply
    with an opening brace but no closing one, or whose last closing brace
    comes before its first opening one, gives the decoder the empty text and
    so the fallback record; the handler turns every exception of the [try]
    block into the fallback record, the [ValueError] of [index] as well as
    the errors of the decoder. *)
Theorem parse_judge_response_total (raw : str) :
  (exists e, json_loads [] = Raise e) ->
  (exists record, parse_judge_response raw = Ok record)
  /\ (In Str.lbrace raw -> ~ In Str.rbrace raw ->
      candidate raw = [] /\ parse_judge_response raw = Ok fallback_record)
  /\ (In Str.lbrace raw ->
      Str.rfind raw (lit "}") < Str.find raw (lit "{") ->
      candidate raw = [] /\ parse_judge_response raw = Ok fallback_record)
  /\ (~ In Str.lbrace raw ->
      parse_judge_response_try raw = Raise ValueError
      /\ parse_judge_response raw = Ok fallback_record)
  /\ (forall e, parse_judge_response_try raw = Raise e ->
      parse_judge_response raw = Ok fallback_record).
Proof.
  intros [e0 Hempty].
  assert (Hcatch : forall e, parse_judge_response_try raw = Raise e ->
                             parse_judge_response raw = Ok fallback_record)
    by (intros e; apply parse_of_try_failure).
  repeat split.
  - unfold parse_judge_response.
    destruct (parse_judge_response_try raw) as [record|e]; simpl; eauto.
  - apply candidate_without_closing; assumption.
  - apply Hcatch with e0.
    rewrite try_with_brace, candidate_without_closing by assumption.
    exact Hempty.
  - apply candidate_closing_first; assumption.
  - apply Hcatch with e0.
    rewrite try_with_brace, candidate_closing_first by assumption.
    exact Hempty.
  - apply try_without_brace; assumption.
  - apply Hcatch with ValueError. apply try_without_brace; assumption.
  - exact Hcatch.
Qed.

End Parser.

(** The theorems of the parser on the scripted runtime: a reply with
    malformed JSON between its braces, a reply with commentary around an
    object, and a reply whose braces are the wrong way round. *)
Lemma parse_failure_returns_fallback_witness :
  parse_judge_response (rt := Mock.runtime []) (lit "Score: {total_score = 45}")
  = Ok fallback_record.
Proof.
  apply (parse_failure_returns_fallback (rt := Mock.runtime [])).
  - exists JSONDecodeError. reflexivity.
  - right; right; left. exists JSONDecodeError. vm_compute. reflexivity.
Defined.

Lemma parse_embedded_object_witness :
  parse_judge_response (rt := Mock.runtime [])
    (lit "Here you go: " ++ lit "{" ++ (dq ++ lit "total_score" ++ dq ++ lit ": 45")
       ++ lit "}" ++ lit " Hope this helps!")
  = Ok (PyDict [(lit "total_score", PyInt 45)]).
Proof.
  apply (parse_embedded_object (rt := Mock.runtime [])).
  - vm_compute. intuition discriminate.
  - vm_compute. intuition discriminate.
  - vm_compute. reflexivity.
Defined.

Lemma parse_judge_response_total_witness :
  candidate (lit "} and {") = []
  /\ parse_judge_response (rt := Mock.runtime []) (lit "} and {")
     = Ok fallback_record.
Proof.
  apply (parse_judge_response_total (rt := Mock.runtime []) (lit "} and {")).
  - exists JSONDecodeError. reflexivity.
  - vm_compute. intuition.
  - vm_compute. reflexivity.
Defined.

(* ================================================================= *)
(** ** The revision prompt *)

Section Revision.

Context {rt : Runtime}.

Lemma format_revision_template (story issues fixes : str) :
  Str.format REVISION_PROMPT
    [ (lit "story", story); (lit "issues", issues); (lit "fixes", fixes) ]
  = Ok (revision_prompt_text story issues fixes).
Proof. vm_compute. reflexivity. Qed.

Lemma bullet_text_list (items : list pyval) :
  bullet_text (PyList items)
  = Ok (Str.join nl (map (fun item => lit "- " ++ item)
                         (map builtin_format items))).
Proof. unfold bullet_text; cbn [Py.iter rbind]. rewrite map_map. reflexivity. Qed.

Lemma or_bullets (items : list str) (placeholder : str) :
  Py.or_ (Str.join nl (map (fun item => lit "- " ++ item) items)) placeholder
  = bullets items placeholder.
Proof.
  destruct items as [|item rest]; [reflexivity|].
  cbn [map bullets].
  generalize (map (fun item => lit "- " ++ item) rest) as tail.
  intros [|next tail]; reflexivity.
Qed.

Lemma revision_prompt_of_lists (story : str) (entries : list (str * pyval))
      (issues fixes : list pyval) :
  Py.get (PyDict entries) (lit "issues") (PyList []) = Ok (PyList issues) ->
  Py.get (PyDict entries) (lit "suggested_fixes") (PyList [])
  = Ok (PyList fixes) ->
  revision_prompt story (PyDict entries)
  = Ok (revision_prompt_text story
          (bullets (map builtin_format issues) (lit "- (no issues listed)"))
          (bullets (map builtin_format fixes) (lit "- (no fixes listed)"))).
Proof.
  intros Hissues Hfixes. unfold revision_prompt.
  rewrite Hissues, Hfixes. cbn [rbind].
  rewrite !bullet_text_list. cbn [rbind].
  rewrite !or_bullets.
  apply format_revision_template.
Qed.



End Revision.


(* ================================================================= *)
(** ** How the agents run *)

Section Runs.

Context {rt : Runtime}.

Lemma bind_ok {A B} (c : M A) (k : A -> M B) (w w' : world) (b : B) :
  bind c k w = (Ok b, w') ->
  exists a w1, c w = (Ok a, w1) /\ k a w1 = (Ok b, w').
Proof.
  unfold bind. destruct (c w) as [[a|e] w1]; intros H.
  - exists a, w1. split; [reflexivity | exact H].
  - discriminate H.
Qed.

Lemma lift_ok {A} (r : result A) (w w' : world) (a : A) :
  lift r w = (Ok a, w') -> r = Ok a /\ w' = w.
Proof. unfold lift; intros H; inversion H; subst; auto. Qed.

Lemma ret_ok {A} (x a : A) (w w' : world) :
  ret x w = (Ok a, w') -> a = x /\ w' = w.
Proof. unfold ret; intros H; inversion H; subst; auto. Qed.

Lemma format_draft_template (user_request : str) :
  Str.format STORY_WRITER_PROMPT [(lit "user_request", user_request)]
  = Ok (prompt_text STORY_WRITER_PROMPT [(lit "user_request", user_request)]).
Proof. vm_compute. reflexivity. Qed.

Lemma format_judge_template (story : str) :
  Str.format JUDGE_PROMPT [(lit "story", story)]
  = Ok (prompt_text JUDGE_PROMPT [(lit "story", story)]).
Proof. vm_compute. reflexivity. Qed.

Lemma format_feedback_template (current_story user_feedback : str) :
  Str.format USER_FEEDBACK_PROMPT
    [ (lit "story", current_story); (lit "feedback", user_feedback) ]
  = Ok (prompt_text USER_FEEDBACK_PROMPT
          [ (lit "story", current_story); (lit "feedback", user_feedback) ]).
Proof. vm_compute. reflexivity. Qed.

Lemma call_model_run (prompt : str) (max_tokens : Z) (temperature : Q)
      (w : world) :
  call_model prompt max_tokens temperature w
  = (ask w (chat_request prompt max_tokens temperature),
     after w (chat_request prompt max_tokens temperature)).
Proof. reflexivity. Qed.

Lemma generate_initial_story_run (user_request : str) (w : world) :
  generate_initial_story user_request w
  = (ask w (draft_request user_request), after w (draft_request user_request)).
Proof.
  unfold generate_initial_story, bind, lift.
  rewrite format_draft_template, call_model_run.
  unfold draft_request. destruct (ask w _); reflexivity.
Qed.

Lemma judge_story_run (story : str) (w : world) :
  judge_story story w
  = (rbind (ask w (judge_request story)) parse_judge_response,
     after w (judge_request story)).
Proof.
  unfold judge_story, bind, lift.
  rewrite format_judge_template, call_model_run.
  unfold judge_request. destruct (ask w _); reflexivity.
Qed.

Lemma revise_story_run (story : str) (judge_data : pyval) (w : world) :
  revise_story story judge_data w
  = match revision_prompt story judge_data with
    | Ok prompt => (ask w (revise_request prompt), after w (revise_request prompt))
    | Raise e => (Raise e, w)
    end.
Proof.
  unfold revise_story, bind, lift.
  destruct (revision_prompt story judge_data) as [prompt|e]; [|reflexivity].
  rewrite call_model_run. unfold revise_request.
  destruct (ask w _); reflexivity.
Qed.

Lemma console_only_bind {A B} (c : M A) (k : A -> M B) :
  console_only c -> (forall a, console_only (k a)) -> console_only (bind c k).
Proof.
  intros Hc Hk w w' r H. unfold bind in H.
  destruct (c w) as [[a|e] w1] eqn:Hrun; apply Hc in Hrun as [Hlog Hin].
  - apply Hk in H as [Hlog' Hin']. split; congruence.
  - injection H as <- <-. split; assumption.
Qed.

Lemma console_only_print (args : list pyval) : console_only (print args).
Proof.
  intros w w' r H. unfold print in H.
  destruct (forallb Py.writable args); injection H as <- <-;
    split; reflexivity.
Qed.

Lemma print_ok (args : list pyval) (w : world) :
  forallb Py.writable args = true ->
  print args w
  = (Ok tt, {| gateway_log := gateway_log w;
               stdin := stdin w;
               stdout := stdout w ++ [Printed args] |}).
Proof. intros H. unfold print. rewrite H. reflexivity. Qed.

Lemma console_only_lift {A} (r : result A) : console_only (lift r).
Proof. intros w w' r' H. injection H as <- <-. split; reflexivity. Qed.

Lemma console_only_ret {A} (a : A) : console_only (ret a).
Proof. intros w w' r' H. injection H as <- <-. split; reflexivity. Qed.

Lemma console_only_report_round (heading : str) (judge_data : pyval) :
  console_only (report_round heading judge_data).
Proof.
  unfold report_round.
  repeat (apply console_only_bind;
          [first [apply console_only_print | apply console_only_lift]
          | intros ?]).
  apply console_only_print.
Qed.

(** A report talks to the console only. *)
Lemma report_round_quiet (heading : str) (judge_data : pyval)
      (w w' : world) (r : result unit) :
  report_round heading judge_data w = (r, w') ->
  gateway_log w' = gateway_log w /\ stdin w' = stdin w.
Proof. apply console_only_report_round. Qed.

Lemma optional_report_quiet (verbose : bool) (heading : str)
      (judge_data : pyval) (w w' : world) (r : result unit) :
  (if verbose then report_round heading judge_data else ret tt) w = (r, w') ->
  gateway_log w' = gateway_log w /\ stdin w' = stdin w.
Proof.
  destruct verbose; [apply report_round_quiet|].
  unfold ret; intros H; inversion H; subst; auto.
Qed.

Lemma judge_requests_app (l l' : list exchange) :
  judge_requests (l ++ l') = (judge_requests l + judge_requests l')%nat.
Proof. unfold judge_requests. rewrite filter_app, length_app. reflexivity. Qed.

Lemma exchanges_since_app (w w' : world) (new : list exchange) :
  gateway_log w' = gateway_log w ++ new -> exchanges_since w w' = new.
Proof.
  intros H; unfold exchanges_since. rewrite H.
  rewrite skipn_app, skipn_all, Nat.sub_diag. reflexivity.
Qed.

(** One evaluation: the request, its answer, the record. *)
Lemma judge_story_ok (story : str) (w w' : world) (judge_data : pyval) :
  judge_story story w = (Ok judge_data, w') ->
  w' = after w (judge_request story)
  /\ exists raw, ask w (judge_request story) = Ok raw
                 /\ parse_judge_response raw = Ok judge_data.
Proof.
  rewrite judge_story_run. intros H.
  destruct (ask w (judge_request story)) as [raw|e] eqn:Hask;
    cbn [rbind] in H; [|discriminate H].
  injection H as Hr Hw. subst w'.
  split; [reflexivity|].
  exists raw; split; [reflexivity | exact Hr].
Qed.

(** The first round: a draft, then its evaluation. *)
Lemma first_round_ok (user_request : str) (verbose : bool) (w w' : world)
      (story : str) (judge_data : pyval) :
  first_round user_request verbose w = (Ok (story, judge_data), w') ->
  ask w (draft_request user_request) = Ok story
  /\ judge_story story (after w (draft_request user_request))
     = (Ok judge_data,
        after (after w (draft_request user_request)) (judge_request story))
  /\ gateway_log w'
     = gateway_log w
         ++ [ {| sent := draft_request user_request; received := Ok story |};
              {| sent := judge_request story;
                 received := ask (after w (draft_request user_request))
                                 (judge_request story) |} ].
Proof.
  unfold first_round. intros H.
  apply bind_ok in H as (story0 & w1 & Hdraft & H).
  apply bind_ok in H as (jd0 & w2 & Hjudge & H).
  apply bind_ok in H as ([] & w3 & Hreport & H).
  apply ret_ok in H as [Heq ->]. inversion Heq; subst story0 jd0; clear Heq.
  rewrite generate_initial_story_run in Hdraft.
  inversion Hdraft as [[Hstory Hw1]]. subst w1.
  destruct (judge_story_ok _ _ _ _ Hjudge) as [Hw2 _]. subst w2.
  apply optional_report_quiet in Hreport as [Hlog _].
  repeat split; try assumption.
  rewrite Hlog. cbn [after gateway_log]. rewrite Hstory.
  rewrite <- app_assoc. reflexivity.
Qed.

(** A round of the loop: a revision, then its evaluation. *)
Lemma refine_body_ok (verbose : bool) (round_idx round_idx' : Z)
      (story story' : str) (judge_data judge_data' : pyval) (w w' : world) :
  refine_body verbose round_idx story judge_data w
  = (Ok (round_idx', story', judge_data'), w') ->
  round_idx' = round_idx + 1
  /\ exists prompt,
      revision_prompt story judge_data = Ok prompt
      /\ ask w (revise_request prompt) = Ok story'
      /\ judge_story story' (after w (revise_request prompt))
         = (Ok judge_data',
            after (after w (revise_request prompt)) (judge_request story'))
      /\ gateway_log w'
         = gateway_log w
             ++ [ {| sent := revise_request prompt; received := Ok story' |};
                  {| sent := judge_request story';
                     received := ask (after w (revise_request prompt))
                                     (judge_request story') |} ].
Proof.
  unfold refine_body. intros H.
  apply bind_ok in H as (story0 & w1 & Hrevise & H).
  apply bind_ok in H as (jd0 & w2 & Hjudge & H).
  apply bind_ok in H as ([] & w3 & Hreport & H).
  apply ret_ok in H as [Heq ->].
  inversion Heq; subst round_idx' story0 jd0; clear Heq.
  split; [reflexivity|].
  rewrite revise_story_run in Hrevise.
  destruct (revision_prompt story judge_data) as [prompt|e];
    [|discriminate Hrevise].
  inversion Hrevise as [[Hstory Hw1]]. subst w1.
  destruct (judge_story_ok _ _ _ _ Hjudge) as [Hw2 _]. subst w2.
  apply optional_report_quiet in Hreport as [Hlog _].
  exists prompt. repeat split; try assumption.
  rewrite Hlog. cbn [after gateway_log]. rewrite Hstory.
  rewrite <- app_assoc. reflexivity.
Qed.

End Runs.

(* ================================================================= *)
(** ** The refinement loop *)

Section Pipeline.

Context {rt : Runtime}.

Lemma total_score_gate (judge_data : pyval)
      (s min_score round_idx max_rounds : Z) :
  total_score_of judge_data = Some s ->
  loop_condition judge_data min_score round_idx max_rounds
  = Ok ((s <? min_score) && (round_idx <? max_rounds)).
Proof.
  unfold total_score_of, loop_condition.
  destruct (Py.get judge_data (lit "total_score") (PyInt 0)) as [v|e];
    [|discriminate].
  destruct v; try discriminate.
  intros H; injection H as ->. reflexivity.
Qed.

Lemma first_passing_range (min_score : Z) (scores : list Z) (k : nat) :
  first_passing min_score scores = Some k ->
  (1 <= k <= length scores)%nat.
Proof.
  revert k; induction scores as [|s rest IH]; intros k; cbn [first_passing].
  - discriminate.
  - destruct (min_score <=? s).
    + intros H; injection H as <-. cbn [length]; lia.
    + destruct (first_passing min_score rest) as [k'|]; [|discriminate].
      intros H; injection H as <-. specialize (IH k' eq_refl).
      cbn [length]; lia.
Qed.

Lemma judged_intro (w w1 w' : world) (req : request) (story : str)
      (judge_data : pyval) :
  is_judge_request req = false ->
  ask w req = Ok story ->
  judge_story story (after w req) = (Ok judge_data, w1) ->
  gateway_log w' = gateway_log w1 ->
  judged story judge_data w'.
Proof.
  intros Hreq Hask Hjudge Hlog.
  exists (after w req), w1, (gateway_log w),
         {| sent := req; received := ask w req |}.
  repeat split; try assumption.
Qed.

Lemma first_round_judged (user_request : str) (verbose : bool)
      (w w' : world) (story : str) (judge_data : pyval) :
  first_round user_request verbose w = (Ok (story, judge_data), w') ->
  judged story judge_data w'.
Proof.
  intros H. apply first_round_ok in H as (Hask & Hjudge & Hlog).
  eapply judged_intro; [| exact Hask | exact Hjudge |].
  - reflexivity.
  - rewrite Hlog. cbn [after gateway_log]. rewrite Hask.
    rewrite <- app_assoc. reflexivity.
Qed.

Lemma refine_body_judged (verbose : bool) (round_idx round_idx' : Z)
      (story story' : str) (judge_data judge_data' : pyval) (w w' : world) :
  refine_body verbose round_idx story judge_data w
  = (Ok (round_idx', story', judge_data'), w') ->
  judged story' judge_data' w'.
Proof.
  intros H. apply refine_body_ok in H as (_ & prompt & _ & Hask & Hjudge & Hlog).
  eapply judged_intro; [| exact Hask | exact Hjudge |].
  - reflexivity.
  - rewrite Hlog. cbn [after gateway_log]. rewrite Hask.
    rewrite <- app_assoc. reflexivity.
Qed.

(** Whatever the loop returns was judged last. *)
Lemma refine_loop_judged (fuel : nat) :
  forall (min_score max_rounds : Z) (verbose : bool) (round_idx : Z)
         (story : str) (judge_data : pyval) (w w' : world)
         (story' : str) (judge_data' : pyval),
    refine_loop fuel min_score max_rounds verbose round_idx story judge_data w
    = (Ok (Done (story', judge_data')), w') ->
    judged story judge_data w ->
    judged story' judge_data' w'.
Proof.
  induction fuel as [|fuel IH]; intros min_score max_rounds verbose round_idx
    story judge_data w w' story' judge_data' Hrun Hinv;
    cbn [refine_loop] in Hrun;
    apply bind_ok in Hrun as (continue & w1 & Hcond & Hrun);
    apply lift_ok in Hcond as [_ ->];
    destruct continue.
  - apply ret_ok in Hrun as [Hrun _]. discriminate Hrun.
  - apply ret_ok in Hrun as [Hrun ->]. injection Hrun as -> ->. exact Hinv.
  - apply bind_ok in Hrun as ([[idx1 story1] jd1] & w1 & Hbody & Hrun).
    eapply IH; [exact Hrun|].
    eapply refine_body_judged; exact Hbody.
  - apply ret_ok in Hrun as [Hrun ->]. injection Hrun as -> ->. exact Hinv.
Qed.

Lemma scores_from_length (more : nat) :
  forall (verbose : bool) (round_idx : Z) (story : str) (judge_data : pyval)
         (w : world) (scores : list Z),
    scores_from more verbose round_idx story judge_data w = Some scores ->
    length scores = S more.
Proof.
  induction more as [|more IH]; intros verbose round_idx story judge_data w
    scores H; cbn [scores_from] in H;
    destruct (total_score_of judge_data) as [s|]; try discriminate.
  - injection H as <-. reflexivity.
  - destruct (refine_body verbose round_idx story judge_data w)
      as [[[[idx1 story1] jd1]|e] w1]; [|discriminate].
    destruct (scores_from more verbose idx1 story1 jd1 w1) as [rest|] eqn:Hrest;
      [|discriminate].
    injection H as <-. cbn [length]. f_equal. eapply IH; exact Hrest.
Qed.

(** The loop against the scores of the rounds: it stops at the first total
    that reaches the threshold, or when the rounds are used up.  The scores
    need not go beyond the round that stops the loop. *)
Lemma refine_loop_scores (more : nat) :
  forall (fuel : nat) (min_score max_rounds : Z) (verbose : bool)
         (round_idx : Z) (story : str) (judge_data : pyval) (w : world)
         (scores : list Z),
    scores_from more verbose round_idx story judge_data w = Some scores ->
    Z.of_nat more = Z.max 0 (max_rounds - round_idx)
    \/ (Z.of_nat more < max_rounds - round_idx
        /\ first_passing min_score scores <> None) ->
    (more <= fuel)%nat ->
    exists story' judge_data' w' new extra s',
      refine_loop fuel min_score max_rounds verbose round_idx story
                  judge_data w
      = (Ok (Done (story', judge_data')), w')
      /\ gateway_log w' = gateway_log w ++ new
      /\ length new = (2 * extra)%nat
      /\ judge_requests new = extra
      /\ extra = match first_passing min_score scores with
                 | Some k => Nat.min (pred k) more
                 | None => more
                 end
      /\ nth_error scores extra = Some s'
      /\ total_score_of judge_data' = Some s'.
Proof.
  induction more as [|more IH]; intros fuel min_score max_rounds verbose
    round_idx story judge_data w scores Hscores Hmore Hfuel;
    cbn [scores_from] in Hscores;
    destruct (total_score_of judge_data) as [s|] eqn:Hs; try discriminate.
  - injection Hscores as <-.
    assert (Hstop : (s <? min_score) && (round_idx <? max_rounds) = false).
    { destruct Hmore as [Hmore|[_ Hpass]].
      - replace (round_idx <? max_rounds) with false
          by (symmetry; apply Z.ltb_ge; lia).
        apply andb_false_r.
      - cbn [first_passing] in Hpass.
        destruct (Z.leb_spec min_score s) as [Hreach|Hbelow];
          [|contradiction Hpass; reflexivity].
        replace (s <? min_score) with false
          by (symmetry; apply Z.ltb_ge; lia).
        reflexivity. }
    exists story, judge_data, w, [], 0%nat, s.
    split.
    { destruct fuel; cbn [refine_loop]; unfold bind, lift;
        rewrite (total_score_gate _ _ _ _ _ Hs), Hstop; reflexivity. }
    split; [symmetry; apply app_nil_r|].
    split; [reflexivity|]. split; [reflexivity|].
    split; [|split; [reflexivity | exact Hs]].
    cbn [first_passing]. destruct (min_score <=? s); reflexivity.
  - destruct (refine_body verbose round_idx story judge_data w)
      as [[[[idx1 story1] jd1]|e] w1] eqn:Hbody; [|discriminate].
    destruct (scores_from more verbose idx1 story1 jd1 w1) as [rest|] eqn:Hrest;
      [|discriminate].
    injection Hscores as <-.
    destruct fuel as [|fuel]; [lia|].
    assert (Hlt : (round_idx <? max_rounds) = true)
      by (apply Z.ltb_lt; destruct Hmore as [?|[? _]]; lia).
    cbn [first_passing] in Hmore.
    cbn [refine_loop first_passing]. unfold bind at 1, lift.
    rewrite (total_score_gate _ _ _ _ _ Hs), Hlt, andb_true_r.
    destruct (Z.ltb_spec s min_score) as [Hbelow|Hreach].
    + replace (min_score <=? s) with false in *
        by (symmetry; apply Z.leb_gt; lia).
      unfold bind at 1. rewrite Hbody.
      pose proof (refine_body_ok _ _ _ _ _ _ _ _ _ Hbody)
        as (-> & prompt & _ & _ & _ & Hlog1).
      assert (Hmore' : Z.of_nat more = Z.max 0 (max_rounds - (round_idx + 1))
                       \/ (Z.of_nat more < max_rounds - (round_idx + 1)
                           /\ first_passing min_score rest <> None)).
      { destruct Hmore as [Hmore|[Hmore Hpass]]; [left; lia|].
        right. split; [lia|].
        destruct (first_passing min_score rest);
          [discriminate | contradiction Hpass; reflexivity]. }
      destruct (IH fuel min_score max_rounds verbose (round_idx + 1) story1
                   jd1 w1 rest Hrest Hmore' ltac:(lia))
        as (story' & jd' & w' & new & extra & s' & Hrun & Hlog & Hlen
            & Hcount & Hextra & Hnth & Hscore).
      set (e1 := {| sent := revise_request prompt; received := Ok story1 |})
        in Hlog1.
      set (e2 := {| sent := judge_request story1;
                    received := ask (after w (revise_request prompt))
                                    (judge_request story1) |}) in Hlog1.
      exists story', jd', w', (e1 :: e2 :: new), (S extra), s'.
      split; [exact Hrun|].
      split; [rewrite Hlog, Hlog1, <- app_assoc; reflexivity|].
      split; [cbn [length]; lia|].
      split.
      { change (e1 :: e2 :: new) with ([e1; e2] ++ new).
        rewrite judge_requests_app, Hcount. reflexivity. }
      split; [|split; [exact Hnth | exact Hscore]].
      rewrite Hextra.
      destruct (first_passing min_score rest) as [k|] eqn:Hk; cbn [option_map].
      * apply first_passing_range in Hk. lia.
      * reflexivity.
    + replace (min_score <=? s) with true by (symmetry; apply Z.leb_le; lia).
      exists story, judge_data, w, [], 0%nat, s.
      split; [reflexivity|].
      split; [symmetry; apply app_nil_r|].
      repeat split. exact Hs.
Qed.

Lemma story_pipeline_judged (user_request : str) (min_score max_rounds : Z)
      (verbose : bool) (w w' : world) (story : str) (judge_data : pyval) :
  story_pipeline user_request min_score max_rounds verbose w
  = (Ok (Done (story, judge_data)), w') ->
  judged story judge_data w'.
Proof.
  unfold story_pipeline, story_pipeline_fuel. intros H.
  apply bind_ok in H as ([story1 jd1] & w1 & Hfirst & Hloop).
  eapply refine_loop_judged; [exact Hloop|].
  eapply first_round_judged; exact Hfirst.
Qed.

(** The pipeline against the scores of its rounds: those of all
    [max_rounds] rounds, or of fewer when one of them reaches the
    threshold. *)
Lemma story_pipeline_run (user_request : str) (min_score max_rounds : Z)
      (verbose : bool) (w : world) (rounds : nat) (scores : list Z) :
  round_scores rounds user_request verbose w = Some scores ->
  (rounds <= Z.to_nat max_rounds)%nat ->
  rounds = Z.to_nat max_rounds \/ first_passing min_score scores <> None ->
  exists story judge_data w' run s,
    story_pipeline user_request min_score max_rounds verbose w
    = (Ok (Done (story, judge_data)), w')
    /\ judge_requests (exchanges_since w w') = run
    /\ length (exchanges_since w w') = (2 * run)%nat
    /\ run = S (match first_passing min_score scores with
                | Some k => Nat.min (pred k) (pred rounds)
                | None => pred rounds
                end)
    /\ length scores = S (pred rounds)
    /\ nth_error scores (pred run) = Some s
    /\ total_score_of judge_data = Some s.
Proof.
  unfold round_scores. intros Hscores Hle Hcover.
  destruct (first_round user_request verbose w) as [[[story1 jd1]|e] w1]
    eqn:Hfirst; [|discriminate].
  assert (Hmore : Z.of_nat (pred rounds) = Z.max 0 (max_rounds - 1)
                  \/ (Z.of_nat (pred rounds) < max_rounds - 1
                      /\ first_passing min_score scores <> None)).
  { destruct (Z.eq_dec (Z.of_nat (pred rounds)) (Z.max 0 (max_rounds - 1)))
      as [Heq|Hne]; [left; exact Heq|].
    right. split; [lia|].
    destruct Hcover as [Hall|Hpass]; [lia | exact Hpass]. }
  destruct (refine_loop_scores _ (Z.to_nat max_rounds) min_score max_rounds
              _ _ _ _ _ _ Hscores Hmore ltac:(lia))
    as (story & jd & w' & new & extra & s & Hrun & Hlog & Hlen & Hcount
        & Hextra & Hnth & Hscore).
  apply first_round_ok in Hfirst as Hfirst'.
  destruct Hfirst' as (_ & _ & Hlog1).
  set (e1 := {| sent := draft_request user_request; received := Ok story1 |})
    in Hlog1.
  set (e2 := {| sent := judge_request story1;
                received := ask (after w (draft_request user_request))
                                (judge_request story1) |}) in Hlog1.
  assert (Hsince : exchanges_since w w' = [e1; e2] ++ new).
  { apply exchanges_since_app. rewrite Hlog, Hlog1, <- app_assoc. reflexivity. }
  exists story, jd, w', (S extra), s.
  split.
  { unfold story_pipeline, story_pipeline_fuel, bind.
    rewrite Hfirst. exact Hrun. }
  rewrite Hsince.
  split; [rewrite judge_requests_app, Hcount; reflexivity|].
  split; [rewrite length_app, Hlen; cbn [length]; lia|].
  split; [rewrite Hextra; reflexivity|].
  split; [eapply scores_from_length; exact Hscores|].
  split; [exact Hnth | exact Hscore].
Qed.









(** C2.  [story_pipeline] returns the last story the endpoint wrote and the
    evaluation of that story, the last answer of the endpoint; the total it
    returns is the total of the last round run, whatever the earlier rounds
    scored.  With totals 25, 30 and 20 under the threshold 40 and three
    rounds, three evaluations are made and the returned total is 20. *)
Theorem story_pipeline_keeps_last_round (user_request : str)
        (min_score max_rounds : Z) (verbose : bool) (w : world) :
  (forall story judge_data w',
      story_pipeline user_request min_score max_rounds verbose w
      = (Ok (Done (story, judge_data)), w') ->
      exists log0 e_story raw,
        gateway_log w'
        = log0 ++ [ e_story;
                    {| sent := judge_request story; received := Ok raw |} ]
        /\ received e_story = Ok story
        /\ is_judge_request (sent e_story) = false
        /\ parse_judge_response raw = Ok judge_data)
  /\ (forall rounds scores,
        round_scores rounds user_request verbose w = Some scores ->
        (rounds <= Z.to_nat max_rounds)%nat ->
        rounds = Z.to_nat max_rounds
        \/ first_passing min_score scores <> None ->
        exists story judge_data w' s,
          story_pipeline user_request min_score max_rounds verbose w
          = (Ok (Done (story, judge_data)), w')
          /\ nth_error scores
                       (pred (judge_requests (exchanges_since w w')))
             = Some s
          /\ total_score_of judge_data = Some s)
  /\ (round_scores 3 user_request verbose w = Some [25; 30; 20] ->
      exists story judge_data w',
        story_pipeline user_request 40 3 verbose w
        = (Ok (Done (story, judge_data)), w')
        /\ judge_requests (exchanges_since w w') = 3%nat
        /\ total_score_of judge_data = Some 20).
Proof.
  split; [|split].
  - intros story jd w' Hrun.
    apply story_pipeline_judged in Hrun
      as (w0 & w1 & log0 & e_story & Hlog0 & Hstory & Hkind & Hjudge & Hlog).
    apply judge_story_ok in Hjudge as (-> & raw & Hask & Hparse).
    exists log0, e_story, raw.
    repeat split; try assumption.
    rewrite Hlog. cbn [after gateway_log]. rewrite Hlog0, Hask, <- app_assoc.
    reflexivity.
  - intros rounds scores Hscores Hle Hcover.
    destruct (story_pipeline_run user_request min_score max_rounds verbose w
                rounds scores Hscores Hle Hcover)
      as (story & jd & w' & run & s & Hrun & Hcount & _ & _ & _ & Hnth & Hs).
    exists story, jd, w', s. rewrite Hcount. auto.
  - intros Hscores.
    destruct (story_pipeline_run user_request 40 3 verbose w 3 [25; 30; 20]
                Hscores ltac:(cbn; lia) ltac:(left; reflexivity))
      as (story & jd & w' & run & s & Hrun & Hcount & _ & Hrounds & _ & Hnth
          & Hs).
    exists story, jd, w'.
    assert (run = 3%nat) as -> by (rewrite Hrounds; reflexivity).
    cbn in Hnth. injection Hnth as <-.
    auto.
Qed.

End Pipeline.



Lemma story_pipeline_keeps_last_round_witness :
  exists story judge_data w',
    story_pipeline (rt := Mock.runtime Mock.three_rounds)
      (lit "a cat who is afraid of the dark") 40 3 true (Mock.fresh [])
    = (Ok (Done (story, judge_data)), w')
    /\ judge_requests (exchanges_since (Mock.fresh []) w') = 3%nat
    /\ total_score_of judge_data = Some 20.
Proof.
  apply (story_pipeline_keeps_last_round (rt := Mock.runtime Mock.three_rounds)
           (lit "a cat who is afraid of the dark") 40 3 true (Mock.fresh [])).
  vm_compute. reflexivity.
Defined.

(* ================================================================= *)
(** ** The human-feedback loop *)

Section Feedback.

Context {rt : Runtime}.

Lemma quiet_refl (w : world) : quiet w w.
Proof. repeat split. exists []. symmetry; apply app_nil_r. Qed.

Lemma quiet_trans (w1 w2 w3 : world) :
  quiet w1 w2 -> quiet w2 w3 -> quiet w1 w3.
Proof.
  intros (Hl1 & Hi1 & out1 & Ho1) (Hl2 & Hi2 & out2 & Ho2).
  repeat split; [congruence | congruence |].
  exists (out1 ++ out2). rewrite Ho2, Ho1, app_assoc. reflexivity.
Qed.

Lemma quiet_printed (w w' : world) (x : console_event) :
  quiet w w' -> In x (stdout w) -> In x (stdout w').
Proof.
  intros (_ & _ & out & Ho) H. rewrite Ho. apply in_or_app; left; exact H.
Qed.

Lemma print_quiet (args : list pyval) (w : world) :
  forallb Py.writable args = true ->
  exists w', print args w = (Ok tt, w')
             /\ quiet w w' /\ In (Printed args) (stdout w').
Proof.
  intros Hw. eexists; split; [apply print_ok; exact Hw|]. split.
  - repeat split. eexists; reflexivity.
  - cbn. apply in_or_app; right; left; reflexivity.
Qed.

Lemma bind_run {A B} (c : M A) (k : A -> M B) (w w1 : world) (a : A) :
  c w = (Ok a, w1) -> bind c k w = k a w1.
Proof. intros H; unfold bind; rewrite H; reflexivity. Qed.

Lemma bind_raise {A B} (c : M A) (k : A -> M B) (w w1 : world) (e : exn) :
  c w = (Raise e, w1) -> bind c k w = (Raise e, w1).
Proof. intros H; unfold bind; rewrite H; reflexivity. Qed.

Lemma bind_lift {A B} (r : result A) (k : A -> M B) (w : world) :
  bind (lift r) k w
  = match r with
    | Ok a => k a w
    | Raise e => (Raise e, w)
    end.
Proof. unfold bind, lift; destruct r; reflexivity. Qed.

Lemma talks_bind {A B} (c : M A) (k : A -> M B) :
  talks c -> (forall a, talks (k a)) -> talks (bind c k).
Proof.
  intros Hc Hk w w' r H. unfold bind in H.
  destruct (c w) as [[a|e] w1] eqn:Hrun; apply Hc in Hrun.
  - apply Hk in H. eapply quiet_trans; eassumption.
  - injection H as <- <-. exact Hrun.
Qed.

Lemma talks_print (args : list pyval) : talks (print args).
Proof.
  intros w w' r H. unfold print in H.
  destruct (forallb Py.writable args); injection H as <- <-;
    repeat split; eexists; reflexivity.
Qed.

Lemma talks_lift {A} (r : result A) : talks (lift r).
Proof. intros w w' r' H. injection H as <- <-. apply quiet_refl. Qed.

Lemma talks_ret {A} (a : A) : talks (ret a).
Proof. intros w w' r' H. injection H as <- <-. apply quiet_refl. Qed.

Lemma talks_report_issues (some_reported none_reported : str)
      (issues : pyval) :
  talks (report_issues some_reported none_reported issues).
Proof.
  unfold report_issues. destruct (Py.truthy issues).
  - apply talks_bind; [apply talks_print|]. intros _.
    apply talks_bind; [apply talks_lift|]. intros joined.
    apply talks_print.
  - apply talks_print.
Qed.

Lemma talks_say_goodnight (judge_data : pyval) :
  talks (say_goodnight judge_data).
Proof.
  unfold say_goodnight.
  repeat (apply talks_bind;
          [first [apply talks_print | apply talks_lift
                  | apply talks_report_issues]
          | intros ?]).
  apply talks_print.
Qed.

Lemma talks_report_update (story : str) (judge_data : pyval) :
  talks (report_update story judge_data).
Proof.
  unfold report_update.
  repeat (apply talks_bind;
          [first [apply talks_print | apply talks_lift
                  | apply talks_report_issues]
          | intros ?]).
  apply talks_print.
Qed.

Lemma talks_console_only {A} (c : M A) : talks c -> console_only c.
Proof.
  intros H w w' r Hrun. destruct (H _ _ _ Hrun) as (Hlog & Hin & _).
  split; assumption.
Qed.

Lemma console_only_report_issues (some_reported none_reported : str)
      (issues : pyval) :
  console_only (report_issues some_reported none_reported issues).
Proof. apply talks_console_only, talks_report_issues. Qed.

Lemma console_only_report_update (story : str) (judge_data : pyval) :
  console_only (report_update story judge_data).
Proof.
  unfold report_update.
  repeat (apply console_only_bind;
          [first [apply console_only_print | apply console_only_lift
                  | apply console_only_report_issues]
          | intros ?]).
  apply console_only_print.
Qed.

Lemma console_only_say_goodnight (judge_data : pyval) :
  console_only (say_goodnight judge_data).
Proof.
  unfold say_goodnight.
  repeat (apply console_only_bind;
          [first [apply console_only_print | apply console_only_lift
                  | apply console_only_report_issues]
          | intros ?]).
  apply console_only_print.
Qed.

(** The report of [main] on the result of the pipeline. *)
Lemma console_only_main_report (final_story : str) (final_judge_data : pyval) :
  console_only
    (print [PyStr (nl ++ lit "================= YOUR BEDTIME STORY =================" ++ nl)] ;;
     print [PyStr final_story] ;;
     print [PyStr (nl ++ lit "======================================================")] ;;
     score <- lift (Py.get final_judge_data (lit "total_score") PyNone) ;;
     print [PyStr (lit "(Internal judge total score: "
                     ++ builtin_format score ++ lit ")")] ;;
     original_issues <- lift (Py.get final_judge_data (lit "issues") (PyList [])) ;;
     report_issues (lit "Internal judge issues for this story:")
                   (lit "Internal judge issues for this story: (none reported)")
                   original_issues ;;
     print [] ;;
     ret (Done (final_story, final_judge_data))).
Proof.
  repeat (apply console_only_bind;
          [first [apply console_only_print | apply console_only_lift
                  | apply console_only_report_issues]
          | intros ?]).
  apply console_only_ret.
Qed.

(** The issue report goes through when its headings and its issues can be
    written. *)
Lemma report_issues_ok (some_reported none_reported : str) (issues : pyval)
      (w : world) :
  Str.encodable some_reported = true ->
  Str.encodable none_reported = true ->
  issues_reportable issues = true ->
  exists w',
    report_issues some_reported none_reported issues w = (Ok tt, w')
    /\ quiet w w'.
Proof.
  intros Hsome Hnone Hrep. unfold report_issues, issues_reportable in *.
  destruct (Py.truthy issues).
  - destruct (Py.join (nl ++ lit "- ") issues) as [joined|e];
      [|discriminate].
    destruct (print_quiet [PyStr some_reported] w) as (w1 & Hp1 & Hq1 & _);
      [cbn [forallb Py.writable]; rewrite Hsome; reflexivity|].
    rewrite (bind_run _ _ _ _ _ Hp1), bind_lift.
    destruct (print_quiet [PyStr (lit "- " ++ joined)] w1)
      as (w2 & Hp2 & Hq2 & _).
    { cbn [forallb Py.writable]. unfold Str.encodable in *.
      rewrite forallb_app, Hrep. reflexivity. }
    exists w2. split; [exact Hp2 | eapply quiet_trans; eassumption].
  - destruct (print_quiet [PyStr none_reported] w) as (w1 & Hp1 & Hq1 & _);
      [cbn [forallb Py.writable]; rewrite Hnone; reflexivity|].
    exists w1. auto.
Qed.

Ltac step_print H :=
  match type of H with
  | context [bind (print ?args) _ ?w] =>
    let w1 := fresh "w" in
    let Hp := fresh "Hp" in
    let Hq := fresh "Hq" in
    let Hin := fresh "Hin" in
    destruct (print_quiet args w eq_refl) as (w1 & Hp & Hq & Hin);
    rewrite (bind_run _ _ _ _ _ Hp) in H
  end.

Ltac chain_quiet :=
  repeat (first [eassumption | apply quiet_refl
                 | eapply quiet_trans; [eassumption|]]).

Lemma say_goodnight_run (judge_data : pyval) (w w' : world)
      (r : result unit) :
  say_goodnight judge_data w = (r, w') ->
  quiet w w'
  /\ (reportable judge_data = true ->
      r = Ok tt
      /\ exists score,
          Py.get judge_data (lit "total_score") PyNone = Ok score
          /\ In (Printed [PyStr (lit "Final internal judge score:"); score])
                (stdout w')).
Proof.
  intros H. split; [eapply talks_say_goodnight; exact H|].
  unfold reportable. intros Hrep.
  destruct (Py.get judge_data (lit "total_score") PyNone) as [score|e]
    eqn:Hscore; [|discriminate Hrep].
  destruct (Py.get judge_data (lit "issues") (PyList [])) as [issues|e]
    eqn:Hissues; [|discriminate Hrep].
  apply andb_true_iff in Hrep as [Hwrite Hrep].
  unfold say_goodnight in H.
  step_print H. rewrite bind_lift, Hscore in H.
  destruct (print_quiet [PyStr (lit "Final internal judge score:"); score]
                        w0) as (w1 & Hp1 & Hq1 & Hin1);
    [cbn [forallb Py.writable]; rewrite Hwrite; reflexivity|].
  rewrite (bind_run _ _ _ _ _ Hp1), bind_lift, Hissues in H.
  destruct (report_issues_ok (lit "Final judge issues:")
              (lit "Final judge issues: (none reported)") issues w1
              eq_refl eq_refl Hrep) as (w2 & Hp2 & Hq2).
  rewrite (bind_run _ _ _ _ _ Hp2) in H.
  destruct (print_quiet [PyStr (lit "Goodnight! ðŸŒ™")] w2 eq_refl)
    as (w3 & Hp3 & Hq3 & _).
  rewrite Hp3 in H. injection H as <- <-.
  split; [reflexivity|].
  exists score. split; [reflexivity|].
  eapply quiet_printed; [|exact Hin1]. chain_quiet.
Qed.

Lemma report_update_run (story : str) (judge_data : pyval) (w w' : world)
      (r : result unit) :
  report_update story judge_data w = (r, w') ->
  quiet w w'
  /\ (Str.encodable story = true ->
      reportable judge_data = true ->
      r = Ok tt /\ In (Printed [PyStr story]) (stdout w')).
Proof.
  intros H. split; [eapply talks_report_update; exact H|].
  unfold reportable. intros Hstory Hrep.
  destruct (Py.get judge_data (lit "total_score") PyNone) as [score|e]
    eqn:Hscore; [|discriminate Hrep].
  destruct (Py.get judge_data (lit "issues") (PyList [])) as [issues|e]
    eqn:Hissues; [|discriminate Hrep].
  apply andb_true_iff in Hrep as [Hwrite Hrep].
  unfold report_update in H.
  step_print H.
  destruct (print_quiet [PyStr story] w0) as (w1 & Hp1 & Hq1 & Hin1);
    [cbn [forallb Py.writable]; rewrite Hstory; reflexivity|].
  rewrite (bind_run _ _ _ _ _ Hp1) in H.
  do 2 step_print H. rewrite bind_lift, Hscore in H.
  destruct (print_quiet [PyStr (lit "Total score:"); score] w3)
    as (w4 & Hp4 & Hq4 & _);
    [cbn [forallb Py.writable]; rewrite Hwrite; reflexivity|].
  rewrite (bind_run _ _ _ _ _ Hp4), bind_lift, Hissues in H.
  destruct (report_issues_ok (lit "Issues:") (lit "Issues: (none reported)")
              issues w4 eq_refl eq_refl Hrep) as (w5 & Hp5 & Hq5).
  rewrite (bind_run _ _ _ _ _ Hp5) in H.
  destruct (print_quiet [] w5 eq_refl) as (w6 & Hp6 & Hq6 & _).
  rewrite Hp6 in H. injection H as <- <-.
  split; [reflexivity|].
  eapply quiet_printed; [|exact Hin1]. chain_quiet.
Qed.

Lemma input_run (prompt : str) (w : world) :
  input prompt w
  = (match stdin w with
     | [] => Raise EOFError
     | line :: _ => Ok line
     end,
     after_input w prompt).
Proof. unfold input, after_input. destruct (stdin w); reflexivity. Qed.

(** A rewrite from feedback: one request for the rewrite and, when it is
    answered, one request for its evaluation; then the report. *)
Lemma apply_feedback_run (story feedback : str) (w w' : world)
      (r : result (str * pyval)) :
  apply_feedback story feedback w = (r, w') ->
  match ask w (rewrite_request story feedback) with
  | Raise e => r = Raise e /\ w' = after w (rewrite_request story feedback)
  | Ok story' =>
    quiet (after (after w (rewrite_request story feedback))
                 (judge_request story')) w'
    /\ match rbind (ask (after w (rewrite_request story feedback))
                        (judge_request story')) parse_judge_response with
       | Raise e => r = Raise e
       | Ok judge_data' =>
         (forall p, r = Ok p -> p = (story', judge_data'))
         /\ (Str.encodable story' = true ->
             reportable judge_data' = true ->
             r = Ok (story', judge_data')
             /\ In (Printed [PyStr story']) (stdout w'))
       end
  end.
Proof.
  unfold apply_feedback, user_feedback_prompt. intros H.
  rewrite bind_lift, format_feedback_template in H.
  unfold bind at 1 in H. rewrite call_model_run in H.
  change (chat_request _ 900 (7 # 10))
    with (rewrite_request story feedback) in H.
  destruct (ask w (rewrite_request story feedback)) as [story'|e].
  - unfold bind at 1 in H. rewrite judge_story_run in H.
    destruct (rbind (ask (after w (rewrite_request story feedback))
                         (judge_request story')) parse_judge_response)
      as [judge_data'|e].
    + unfold bind at 1 in H.
      destruct (report_update story' judge_data'
                  (after (after w (rewrite_request story feedback))
                         (judge_request story'))) as [r3 wr] eqn:Hreport.
      apply report_update_run in Hreport as [Hq Hok].
      destruct r3 as [[]|e].
      * injection H as <- <-. split; [exact Hq|]. split.
        -- intros p Hp. injection Hp as <-. reflexivity.
        -- intros Hstory Hrep. destruct (Hok Hstory Hrep) as [_ Hin]. auto.
      * injection H as <- <-. split; [exact Hq|]. split.
        -- intros p Hp. discriminate Hp.
        -- intros Hstory Hrep. destruct (Hok Hstory Hrep) as [Hr _].
           discriminate Hr.
    + injection H as <- <-. split; [apply quiet_refl | reflexivity].
  - injection H as <- <-. auto.
Qed.

(** One pass of the loop of [main], by the line it reads. *)
Lemma feedback_iteration_run (story : str) (judge_data : pyval)
      (w w' : world) (r : result (option (str * pyval))) :
  feedback_iteration story judge_data w = (r, w') ->
  match stdin w with
  | [] => r = Raise EOFError /\ w' = after_input w feedback_question
  | line :: rest =>
    match Str.strip line with
    | [] =>
      quiet (after_input w feedback_question) w'
      /\ (r = Ok None \/ exists e, r = Raise e)
      /\ (reportable judge_data = true ->
          r = Ok None
          /\ exists score,
              Py.get judge_data (lit "total_score") PyNone = Ok score
              /\ In (Printed [PyStr (lit "Final internal judge score:");
                              score]) (stdout w'))
    | c :: t =>
      exists r0,
      apply_feedback story (c :: t) (after_input w feedback_question)
      = (r0, w')
      /\ r = match r0 with
             | Ok updated => Ok (Some updated)
             | Raise e => Raise e
             end
    end
  end.
Proof.
  unfold feedback_iteration. intros H.
  unfold bind at 1 in H. rewrite input_run in H.
  destruct (stdin w) as [|line rest].
  - injection H as <- <-. auto.
  - destruct (Str.strip line) as [|c t]; cbn [Py.truthy Str.eqb negb] in H.
    + unfold bind at 1 in H.
      destruct (say_goodnight judge_data (after_input w feedback_question))
        as [r1 w1] eqn:Hbye.
      apply say_goodnight_run in Hbye as [Hq Hok].
      destruct r1 as [[]|e].
      * injection H as <- <-. split; [exact Hq|]. split; [left; reflexivity|].
        intros Hrep. destruct (Hok Hrep) as [_ Hscore]. auto.
      * injection H as <- <-. split; [exact Hq|]. split; [right; eauto|].
        intros Hrep. destruct (Hok Hrep) as [Hr _]. discriminate Hr.
    + unfold bind at 1 in H.
      destruct (apply_feedback story (c :: t)
                  (after_input w feedback_question)) as [r0 w0].
      exists r0. destruct r0 as [updated|e]; injection H as <- <-; auto.
Qed.

Lemma judged_quiet (story : str) (judge_data : pyval) (w w' : world) :
  judged story judge_data w -> gateway_log w' = gateway_log w ->
  judged story judge_data w'.
Proof.
  intros (w0 & w1 & log0 & e & H0 & H1 & H2 & H3 & H4) Hlog.
  exists w0, w1, log0, e. repeat split; try assumption. congruence.
Qed.

(** A pass that reads feedback: the line is used up, the rewrite is asked
    for and, when it is answered, so is its evaluation. *)
Lemma feedback_cycle (story : str) (judge_data : pyval) (w w' : world)
      (line : str) (rest : list str) (c : char) (t : str)
      (r : result (option (str * pyval))) :
  stdin w = line :: rest ->
  Str.strip line = c :: t ->
  feedback_iteration story judge_data w = (r, w') ->
  stdin w' = rest
  /\ match ask w (rewrite_request story (c :: t)) with
     | Raise e =>
       r = Raise e
       /\ gateway_log w'
          = gateway_log w
              ++ [ {| sent := rewrite_request story (c :: t);
                      received := Raise e |} ]
     | Ok story' =>
       gateway_log w'
       = gateway_log w
           ++ [ {| sent := rewrite_request story (c :: t);
                   received := Ok story' |};
                {| sent := judge_request story';
                   received := ask (after w (rewrite_request story (c :: t)))
                                   (judge_request story') |} ]
       /\ match rbind (ask (after w (rewrite_request story (c :: t)))
                           (judge_request story')) parse_judge_response with
          | Raise e => r = Raise e
          | Ok judge_data' =>
            (forall p, r = Ok p ->
                       p = Some (story', judge_data')
                       /\ judged story' judge_data' w')
            /\ (Str.encodable story' = true ->
                reportable judge_data' = true ->
                r = Ok (Some (story', judge_data'))
                /\ In (Printed [PyStr story']) (stdout w'))
          end
     end.
Proof.
  intros Hin Hstrip H.
  apply feedback_iteration_run in H. rewrite Hin, Hstrip in H.
  destruct H as (r0 & Happ & ->).
  apply apply_feedback_run in Happ.
  set (wi := after_input w feedback_question) in *.
  set (req := rewrite_request story (c :: t)) in *.
  assert (Hwi : forall q, ask wi q = ask w q) by reflexivity.
  assert (Hwi2 : forall q q', ask (after wi q) q' = ask (after w q) q').
  { intros q q'. unfold ask, after. cbn [gateway_log]. rewrite Hwi.
    reflexivity. }
  rewrite Hwi in Happ.
  destruct (ask w req) as [story'|e] eqn:Hask.
  - destruct Happ as [Hq Happ]. rewrite Hwi2 in Happ.
    assert (Hlog : gateway_log w'
                   = gateway_log w
                       ++ [ {| sent := req; received := Ok story' |};
                            {| sent := judge_request story';
                               received := ask (after w req)
                                               (judge_request story') |} ]).
    { destruct Hq as (-> & _ & _). cbn [after gateway_log].
      rewrite Hwi2, Hwi, Hask, <- app_assoc. reflexivity. }
    split; [destruct Hq as (_ & -> & _); subst wi; cbn; rewrite Hin;
            reflexivity|].
    split; [exact Hlog|].
    destruct (rbind (ask (after w req) (judge_request story'))
                    parse_judge_response) as [judge_data'|e] eqn:Hjudge.
    + destruct Happ as [Hinv Hok].
      split.
      * intros p Hp. destruct r0 as [updated|e]; [|discriminate Hp].
        injection Hp as <-. rewrite (Hinv updated eq_refl).
        split; [reflexivity|].
        eapply (judged_intro w _ w' req); [reflexivity | exact Hask | |].
        -- rewrite judge_story_run, Hjudge. reflexivity.
        -- rewrite Hlog. cbn [after gateway_log]. rewrite Hask, <- app_assoc.
           reflexivity.
      * intros Hstory Hrep. destruct (Hok Hstory Hrep) as [-> Hprinted].
        auto.
    + subst r0. reflexivity.
  - destruct Happ as [-> ->].
    split; [subst wi; cbn; rewrite Hin; reflexivity|].
    split; [reflexivity|].
    cbn [after gateway_log]. rewrite Hwi, Hask. reflexivity.
Qed.

(** A pass that reads a blank line: nothing is asked, the loop ends. *)
Lemma feedback_stop (story : str) (judge_data : pyval) (w w' : world)
      (line : str) (rest : list str)
      (r : result (option (str * pyval))) :
  stdin w = line :: rest ->
  Str.strip line = [] ->
  feedback_iteration story judge_data w = (r, w') ->
  gateway_log w' = gateway_log w
  /\ stdin w' = rest
  /\ (exists out, stdout w' = stdout w ++ out)
  /\ (r = Ok None \/ exists e, r = Raise e)
  /\ (reportable judge_data = true ->
      r = Ok None
      /\ exists score,
          Py.get judge_data (lit "total_score") PyNone = Ok score
          /\ In (Printed [PyStr (lit "Final internal judge score:"); score])
                (stdout w')).
Proof.
  intros Hin Hstrip H.
  apply feedback_iteration_run in H. rewrite Hin, Hstrip in H.
  destruct H as ((Hlog & Hstdin & out & Hout) & Hr & Hok).
  split; [exact Hlog|].
  split; [rewrite Hstdin; cbn; rewrite Hin; reflexivity|].
  split; [|split; assumption].
  exists (Asked feedback_question :: out). rewrite Hout. cbn [after_input stdout].
  rewrite <- app_assoc. reflexivity.
Qed.

(** A pass that returns: either it read a blank line and asked nothing, or
    it read feedback and asked for one rewrite and one evaluation. *)
Lemma feedback_iteration_ok (story : str) (judge_data : pyval)
      (w w1 : world) (next : option (str * pyval)) :
  feedback_iteration story judge_data w = (Ok next, w1) ->
  exists line rest,
    stdin w = line :: rest
    /\ stdin w1 = rest
    /\ match next with
       | None => Str.strip line = [] /\ gateway_log w1 = gateway_log w
       | Some (story1, judge_data1) =>
         Str.strip line <> []
         /\ judged story1 judge_data1 w1
         /\ exists e1 e2,
             gateway_log w1 = gateway_log w ++ [e1; e2]
             /\ e1 = {| sent := rewrite_request story (Str.strip line);
                        received := Ok story1 |}
             /\ sent e2 = judge_request story1
       end.
Proof.
  intros H.
  destruct (stdin w) as [|line rest] eqn:Hin.
  { apply feedback_iteration_run in H. rewrite Hin in H.
    destruct H as [H _]. discriminate H. }
  exists line, rest. split; [reflexivity|].
  destruct (Str.strip line) as [|c t] eqn:Hstrip.
  - destruct (feedback_stop _ _ _ _ _ _ _ Hin Hstrip H)
      as (Hlog & Hstdin & _ & [Hr|[e Hr]] & _); [|discriminate Hr].
    injection Hr as ->. auto.
  - destruct (feedback_cycle _ _ _ _ _ _ _ _ _ Hin Hstrip H) as [Hstdin Hrun].
    split; [exact Hstdin|].
    destruct (ask w (rewrite_request story (c :: t))) as [story'|e];
      [|destruct Hrun as [Hr _]; discriminate Hr].
    destruct Hrun as [Hlog Hrun].
    destruct (rbind _ parse_judge_response) as [judge_data'|e];
      [|discriminate Hrun].
    destruct Hrun as [Hinv _].
    destruct (Hinv next eq_refl) as [-> Hjudged].
    split; [discriminate|]. split; [exact Hjudged|].
    eexists _, _. split; [exact Hlog|]. split; reflexivity.
Qed.

Lemma feedback_loop_judged (fuel : nat) :
  forall (story : str) (judge_data : pyval) (w w' : world) (story' : str)
         (judge_data' : pyval),
    feedback_loop fuel story judge_data w
    = (Ok (Done (story', judge_data')), w') ->
    judged story judge_data w ->
    judged story' judge_data' w'.
Proof.
  induction fuel as [|fuel IH]; intros story judge_data w w' story'
    judge_data' H Hinv; cbn [feedback_loop] in H.
  - apply ret_ok in H as [H _]. discriminate H.
  - apply bind_ok in H as (next & w1 & Hiter & H).
    apply feedback_iteration_ok in Hiter as (line & rest & _ & _ & Hnext).
    destruct next as [[story1 jd1]|].
    + destruct Hnext as (_ & Hjudged & _). eapply IH; eassumption.
    + destruct Hnext as [_ Hlog].
      apply ret_ok in H as [H ->]. injection H as <- <-.
      eapply judged_quiet; eassumption.
Qed.

(** One pass for every line that is left is enough. *)
Lemma feedback_loop_fuel (fuel : nat) :
  forall (story : str) (judge_data : pyval) (w w' : world),
    (length (stdin w) < fuel)%nat ->
    feedback_loop fuel story judge_data w <> (Ok OutOfFuel, w').
Proof.
  induction fuel as [|fuel IH]; intros story judge_data w w' Hlen H;
    [lia|].
  cbn [feedback_loop] in H.
  apply bind_ok in H as (next & w1 & Hiter & H).
  apply feedback_iteration_ok in Hiter as (line & rest & Hin & Hrest & _).
  destruct next as [[story1 jd1]|].
  - apply IH in H; [exact H|]. rewrite Hrest. rewrite Hin in Hlen.
    cbn [length] in Hlen. lia.
  - apply ret_ok in H as [H _]. discriminate H.
Qed.

(** The loop over lines of feedback closed by a blank line: one rewrite and
    one evaluation per line, however many lines and whatever the scores. *)
Lemma feedback_loop_lines (lines : list str) :
  forall (fuel : nat) (story : str) (judge_data : pyval) (w w' : world)
         (stop : str) (rest : list str) (story' : str)
         (judge_data' : pyval),
    Forall (fun line => Str.strip line <> []) lines ->
    Str.strip stop = [] ->
    stdin w = lines ++ stop :: rest ->
    feedback_loop fuel story judge_data w
    = (Ok (Done (story', judge_data')), w') ->
    exists new,
      gateway_log w' = gateway_log w ++ new
      /\ length new = (2 * length lines)%nat
      /\ judge_requests new = length lines
      /\ stdin w' = rest.
Proof.
  induction lines as [|line lines IH]; intros fuel story judge_data w w' stop
    rest story' judge_data' Hlines Hstop Hin H;
    (destruct fuel as [|fuel]; cbn [feedback_loop] in H;
     [apply ret_ok in H as [H _]; discriminate H|]);
    apply bind_ok in H as (next & w1 & Hiter & H);
    apply feedback_iteration_ok in Hiter as (l & r & Hin' & Hrest & Hnext);
    rewrite Hin in Hin'; cbn [app] in Hin'; injection Hin' as <- <-.
  - destruct next as [[story1 jd1]|].
    + destruct Hnext as [Hne _]. contradiction.
    + destruct Hnext as [_ Hlog]. apply ret_ok in H as [_ ->].
      exists []. rewrite app_nil_r. auto.
  - inversion Hlines as [|? ? Hline Hlines']; subst.
    destruct next as [[story1 jd1]|].
    + destruct Hnext as (_ & _ & e1 & e2 & Hlog1 & He1 & He2).
      destruct (IH fuel story1 jd1 w1 w' stop rest story' judge_data'
                   Hlines' Hstop Hrest H)
        as (new & Hlog & Hlen & Hcount & Hstdin).
      exists (e1 :: e2 :: new).
      split; [rewrite Hlog, Hlog1, <- app_assoc; reflexivity|].
      split; [cbn [length]; lia|].
      split; [|exact Hstdin].
      change (e1 :: e2 :: new) with ([e1; e2] ++ new).
      rewrite judge_requests_app, Hcount.
      unfold judge_requests. cbn [filter]. rewrite He1, He2. reflexivity.
    + destruct Hnext as [Hblank _]. contradiction.
Qed.

(** Feedback, then a blank line, with whitespace around the feedback and
    in the blank line. *)
Lemma feedback_once (fuel : nat) (story : str) (judge_data : pyval)
      (w : world) (pre suf stop : str) (rest : list str)
      (story' raw : str) (judge_data' : pyval) :
  stdin w = (pre ++ lit "make it funnier" ++ suf) :: stop :: rest ->
  whitespace pre = true ->
  whitespace suf = true ->
  whitespace stop = true ->
  ask w (rewrite_request story (lit "make it funnier")) = Ok story' ->
  ask (after w (rewrite_request story (lit "make it funnier")))
      (judge_request story') = Ok raw ->
  parse_judge_response raw = Ok judge_data' ->
  Str.encodable story' = true ->
  reportable judge_data' = true ->
  exists w',
    feedback_loop (S (S fuel)) story judge_data w
    = (Ok (Done (story', judge_data')), w')
    /\ gateway_log w'
       = gateway_log w
           ++ [ {| sent := rewrite_request story (lit "make it funnier");
                   received := Ok story' |};
                {| sent := judge_request story'; received := Ok raw |} ]
    /\ stdin w' = rest
    /\ In (Printed [PyStr story']) (stdout w')
    /\ exists score,
        Py.get judge_data' (lit "total_score") PyNone = Ok score
        /\ In (Printed [PyStr (lit "Final internal judge score:"); score])
              (stdout w').
Proof.
  intros Hin Hpre Hsuf Hstop Hask Hjudge Hparse Hstory Hrep.
  assert (Hstrip : Str.strip (pre ++ lit "make it funnier" ++ suf)
                   = 109%N :: lit "ake it funnier").
  { apply (StrFacts.strip_core pre (lit "make it funnier") suf
             109%N (lit "ake it funnier") Hpre Hsuf);
      vm_compute; reflexivity. }
  apply StrFacts.strip_blank in Hstop.
  destruct (feedback_iteration story judge_data w) as [r1 w1] eqn:H1.
  destruct (feedback_cycle _ _ _ _ _ _ _ _ _ Hin Hstrip H1) as [Hin1 Hrun].
  change (109%N :: lit "ake it funnier") with (lit "make it funnier") in Hrun.
  rewrite Hask in Hrun. destruct Hrun as [Hlog1 Hrun].
  rewrite Hjudge in Hrun. cbn [rbind] in Hrun. rewrite Hparse in Hrun.
  destruct Hrun as [_ Hok]. destruct (Hok Hstory Hrep) as [-> Hprinted].
  destruct (feedback_iteration story' judge_data' w1) as [r2 w2] eqn:H2.
  destruct (feedback_stop _ _ _ _ _ _ _ Hin1 Hstop H2)
    as (Hlog2 & Hin2 & (out & Hout) & _ & Hbye).
  destruct (Hbye Hrep) as [-> (score & Hscore & Hfinal)].
  exists w2.
  split.
  { cbn [feedback_loop]. unfold bind at 1. rewrite H1.
    unfold bind at 1. rewrite H2. reflexivity. }
  split; [rewrite Hlog2, Hlog1, Hjudge; reflexivity|].
  split; [exact Hin2|].
  split; [rewrite Hout; apply in_or_app; left; exact Hprinted|].
  exists score. auto.
Qed.

Lemma trimmed_core (core : str) :
  trimmed core = true ->
  exists c t,
    core = c :: t
    /\ Str.isspace c = false
    /\ Str.isspace (last core c) = false.
Proof.
  unfold trimmed. destruct core as [|c t]; [discriminate|].
  intros H. apply andb_true_iff in H as [Hfirst Hlast].
  apply negb_true_iff in Hfirst, Hlast. eauto.
Qed.

Lemma strip_nonblank (line : str) :
  whitespace line = false -> Str.strip line <> [].
Proof.
  unfold whitespace. intros H Hstrip.
  apply StrFacts.strip_blank in Hstrip. congruence.
Qed.

(** C5.  In the loop of [main] a line that holds nothing but whitespace
    ends the loop with the current story and evaluation and asks the
    endpoint nothing.  Any other line asks for exactly one rewrite, from
    the line without the whitespace around it, and then, when the rewrite
    is answered, for exactly one evaluation of it, and the pair they give
    becomes the current one: the pass looks at no score and counts no
    rounds, so lines of feedback closed by a blank line cost one rewrite and
    one evaluation each, and the loop never runs out of passes.  After
    [make it funnier] and a blank line, whatever whitespace surrounds the
    one and makes up the other, there was one rewrite and one evaluation,
    and the story and score of that cycle were printed.  The reports go
    through when the story, the score and the issues can be written. *)
Theorem feedback_loop_cycles (story : str) (judge_data : pyval) (w : world) :
  (forall fuel line rest r w',
      stdin w = line :: rest ->
      whitespace line = true ->
      feedback_loop (S fuel) story judge_data w = (r, w') ->
      gateway_log w' = gateway_log w
      /\ stdin w' = rest
      /\ (r = Ok (Done (story, judge_data)) \/ exists e, r = Raise e)
      /\ (reportable judge_data = true -> r = Ok (Done (story, judge_data))))
  /\ (forall pre core suf rest r w' story',
        stdin w = (pre ++ core ++ suf) :: rest ->
        whitespace pre = true ->
        whitespace suf = true ->
        trimmed core = true ->
        feedback_iteration story judge_data w = (r, w') ->
        ask w (rewrite_request story core) = Ok story' ->
        gateway_log w'
        = gateway_log w
            ++ [ {| sent := rewrite_request story core;
                    received := Ok story' |};
                 {| sent := judge_request story';
                    received :=
                      ask (after w (rewrite_request story core))
                          (judge_request story') |} ]
        /\ stdin w' = rest
        /\ (forall next, r = Ok next ->
                         exists judge_data',
                           next = Some (story', judge_data')
                           /\ judged story' judge_data' w')
        /\ (forall raw judge_data',
               ask (after w (rewrite_request story core))
                   (judge_request story') = Ok raw ->
               parse_judge_response raw = Ok judge_data' ->
               Str.encodable story' = true ->
               reportable judge_data' = true ->
               r = Ok (Some (story', judge_data'))))
  /\ (forall fuel lines stop rest story' judge_data' w',
        Forall (fun line => whitespace line = false) lines ->
        whitespace stop = true ->
        stdin w = lines ++ stop :: rest ->
        feedback_loop fuel story judge_data w
        = (Ok (Done (story', judge_data')), w') ->
        length (exchanges_since w w') = (2 * length lines)%nat
        /\ judge_requests (exchanges_since w w') = length lines
        /\ stdin w' = rest)
  /\ (forall fuel w',
        (length (stdin w) < fuel)%nat ->
        feedback_loop fuel story judge_data w <> (Ok OutOfFuel, w'))
  /\ (forall fuel pre suf stop rest story' raw judge_data',
        stdin w = (pre ++ lit "make it funnier" ++ suf) :: stop :: rest ->
        whitespace pre = true ->
        whitespace suf = true ->
        whitespace stop = true ->
        ask w (rewrite_request story (lit "make it funnier")) = Ok story' ->
        ask (after w (rewrite_request story (lit "make it funnier")))
            (judge_request story') = Ok raw ->
        parse_judge_response raw = Ok judge_data' ->
        Str.encodable story' = true ->
        reportable judge_data' = true ->
        exists w',
          feedback_loop (S (S fuel)) story judge_data w
          = (Ok (Done (story', judge_data')), w')
          /\ exchanges_since w w'
             = [ {| sent := rewrite_request story (lit "make it funnier");
                    received := Ok story' |};
                 {| sent := judge_request story'; received := Ok raw |} ]
          /\ stdin w' = rest
          /\ In (Printed [PyStr story']) (stdout w')
          /\ exists score,
              Py.get judge_data' (lit "total_score") PyNone = Ok score
              /\ In (Printed [PyStr (lit "Final internal judge score:");
                              score]) (stdout w')).
Proof.
  split; [|split; [|split; [|split]]].
  - intros fuel line rest r w' Hin Hblank H.
    apply StrFacts.strip_blank in Hblank.
    cbn [feedback_loop] in H. unfold bind at 1 in H.
    destruct (feedback_iteration story judge_data w) as [r1 w1] eqn:H1.
    destruct (feedback_stop _ _ _ _ _ _ _ Hin Hblank H1)
      as (Hlog & Hstdin & _ & Hr & Hok).
    destruct r1 as [next|e].
    + destruct Hr as [Hr|[e Hr]]; [|discriminate Hr]. injection Hr as ->.
      injection H as <- <-. repeat split; auto.
    + injection H as <- <-. repeat split; eauto.
      intros Hrep. destruct (Hok Hrep) as [Hr' _]. discriminate Hr'.
  - intros pre core suf rest r w' story' Hin Hpre Hsuf Hcore H Hask.
    destruct (trimmed_core _ Hcore) as (c & t & Heq & Hfirst & Hlast).
    pose proof (StrFacts.strip_core pre core suf c t Hpre Hsuf Heq Hfirst
                                    Hlast) as Hstrip.
    rewrite Heq in Hstrip at 2.
    destruct (feedback_cycle _ _ _ _ _ _ _ _ _ Hin Hstrip H) as [Hstdin Hrun].
    rewrite <- Heq in Hrun.
    rewrite Hask in Hrun. destruct Hrun as [Hlog Hrun].
    split; [exact Hlog|]. split; [exact Hstdin|].
    destruct (rbind _ parse_judge_response) as [jd1|e] eqn:Hjudge.
    + destruct Hrun as [Hinv Hok]. split.
      * intros next Hnext. exists jd1. apply Hinv. exact Hnext.
      * intros raw jd' Hraw Hparse Hstory Hrep.
        rewrite Hraw in Hjudge. cbn [rbind] in Hjudge.
        rewrite Hparse in Hjudge. injection Hjudge as <-.
        apply Hok; assumption.
    + split.
      * intros next Hnext. rewrite Hrun in Hnext. discriminate Hnext.
      * intros raw jd' Hraw Hparse _ _.
        rewrite Hraw in Hjudge. cbn [rbind] in Hjudge.
        rewrite Hparse in Hjudge. discriminate Hjudge.
  - intros fuel lines stop rest story' jd' w' Hlines Hstop Hin H.
    apply StrFacts.strip_blank in Hstop.
    assert (Hlines' : Forall (fun line => Str.strip line <> []) lines).
    { eapply Forall_impl; [|exact Hlines].
      intros line Hline. apply strip_nonblank. exact Hline. }
    destruct (feedback_loop_lines _ _ _ _ _ _ _ _ _ _ Hlines' Hstop Hin H)
      as (new & Hlog & Hlen & Hcount & Hstdin).
    rewrite (exchanges_since_app _ _ _ Hlog). auto.
  - intros fuel w' Hlen. apply feedback_loop_fuel. exact Hlen.
  - intros fuel pre suf stop rest story' raw jd' Hin Hpre Hsuf Hstop Hask
      Hjudge Hparse Hstory Hrep.
    destruct (feedback_once fuel story judge_data w pre suf stop rest story'
                raw jd' Hin Hpre Hsuf Hstop Hask Hjudge Hparse Hstory Hrep)
      as (w' & Hrun & Hlog & Hstdin & Hprinted & Hscore).
    exists w'. split; [exact Hrun|].
    split; [apply exchanges_since_app; exact Hlog|].
    split; [exact Hstdin|]. split; assumption.
Qed.

(** *** The whole session *)

Lemma loop_condition_true (judge_data : pyval)
      (min_score round_idx max_rounds : Z) :
  loop_condition judge_data min_score round_idx max_rounds = Ok true ->
  round_idx < max_rounds.
Proof.
  unfold loop_condition.
  destruct (Py.get judge_data (lit "total_score") (PyInt 0)) as [total|e];
    [|discriminate].
  cbn [rbind]. destruct (Py.lt_int total min_score) as [below|e];
    [|discriminate].
  cbn [rbind]. intros H. injection H as H.
  apply andb_true_iff in H as [_ H]. apply Z.ltb_lt. exact H.
Qed.

(** The rounds that are left bound the passes of the refinement loop. *)
Lemma refine_loop_fuel (fuel : nat) :
  forall (min_score max_rounds : Z) (verbose : bool) (round_idx : Z)
         (story : str) (judge_data : pyval) (w w' : world),
    (Z.to_nat (max_rounds - round_idx) <= fuel)%nat ->
    refine_loop fuel min_score max_rounds verbose round_idx story judge_data w
    <> (Ok OutOfFuel, w').
Proof.
  induction fuel as [|fuel IH]; intros min_score max_rounds verbose round_idx
    story judge_data w w' Hfuel H; cbn [refine_loop] in H;
    apply bind_ok in H as (continue & w1 & Hcond & H);
    apply lift_ok in Hcond as [Hcond ->];
    (destruct continue; [|apply ret_ok in H as [H _]; discriminate H]);
    apply loop_condition_true in Hcond.
  - lia.
  - apply bind_ok in H as ([[idx1 story1] jd1] & w1 & Hbody & H).
    apply refine_body_ok in Hbody as [-> _].
    apply IH in H; [exact H | lia].
Qed.

Lemma story_pipeline_never_out_of_fuel (user_request : str)
      (min_score max_rounds : Z) (verbose : bool) (w w' : world) :
  story_pipeline user_request min_score max_rounds verbose w
  <> (Ok OutOfFuel, w').
Proof.
  unfold story_pipeline, story_pipeline_fuel. intros H.
  apply bind_ok in H as ([story jd] & w1 & _ & H).
  apply refine_loop_fuel in H; [exact H | lia].
Qed.

Lemma main_pipeline_judged (w w' : world) (story : str)
      (judge_data : pyval) :
  main_pipeline w = (Ok (Done (story, judge_data)), w') ->
  judged story judge_data w'.
Proof.
  unfold main_pipeline. intros H.
  apply bind_ok in H as ([] & w0 & _ & H).
  unfold bind at 1 in H. rewrite input_run in H.
  destruct (stdin w0) as [|user_request rest]; [discriminate H|].
  apply bind_ok in H as (outcome & w2 & Hpipe & H).
  destruct outcome as [[story0 jd0]|];
    [|apply ret_ok in H as [H _]; discriminate H].
  apply story_pipeline_judged in Hpipe.
  pose proof (console_only_main_report story0 jd0 _ _ _ H) as [Hlog _].
  repeat (apply bind_ok in H as (? & ? & _ & H)).
  apply ret_ok in H as [H _]. injection H as <- <-.
  eapply judged_quiet; [exact Hpipe | exact Hlog].
Qed.

Lemma main_judged (w w' : world) (story : str) (judge_data : pyval) :
  main w = (Ok (Done (story, judge_data)), w') ->
  judged story judge_data w'.
Proof.
  unfold main. intros H.
  apply bind_ok in H as (outcome & w1 & Hpipe & H).
  destruct outcome as [[story0 jd0]|];
    [|apply ret_ok in H as [H _]; discriminate H].
  eapply feedback_loop_judged; [exact H|].
  eapply main_pipeline_judged. exact Hpipe.
Qed.

Lemma judged_of_judge_story (story : str) (judge_data : pyval) (w : world) :
  judged story judge_data w ->
  exists w0 w1,
    judge_story story w0 = (Ok judge_data, w1)
    /\ gateway_log w = gateway_log w1.
Proof.
  intros (w0 & w1 & _ & _ & _ & _ & _ & Hjudge & Hlog). eauto.
Qed.

(** C10.  Wherever a story is returned or becomes current with an
    evaluation (at the return of [story_pipeline], after a cycle of the
    feedback loop, at the end of [main]) the evaluation is the result of
    [judge_story] on that very story, and the endpoint was asked nothing
    since. *)
Theorem evaluation_is_of_its_story :
  (forall user_request min_score max_rounds verbose w w' story judge_data,
      story_pipeline user_request min_score max_rounds verbose w
      = (Ok (Done (story, judge_data)), w') ->
      exists w0 w1,
        judge_story story w0 = (Ok judge_data, w1)
        /\ gateway_log w' = gateway_log w1)
  /\ (forall current_story current_judge_data w w' story judge_data,
        feedback_iteration current_story current_judge_data w
        = (Ok (Some (story, judge_data)), w') ->
        exists w0 w1,
          judge_story story w0 = (Ok judge_data, w1)
          /\ gateway_log w' = gateway_log w1)
  /\ (forall w w' story judge_data,
        main_pipeline w = (Ok (Done (story, judge_data)), w') ->
        exists w0 w1,
          judge_story story w0 = (Ok judge_data, w1)
          /\ gateway_log w' = gateway_log w1)
  /\ (forall w w' story judge_data,
        main w = (Ok (Done (story, judge_data)), w') ->
        exists w0 w1,
          judge_story story w0 = (Ok judge_data, w1)
          /\ gateway_log w' = gateway_log w1).
Proof.
  split; [|split; [|split]].
  - intros user_request min_score max_rounds verbose w w' story jd H.
    apply judged_of_judge_story.
    eapply story_pipeline_judged; exact H.
  - intros current_story current_jd w w' story jd H.
    apply judged_of_judge_story.
    apply feedback_iteration_ok in H as (_ & _ & _ & _ & _ & Hjudged & _).
    exact Hjudged.
  - intros w w' story jd H.
    apply judged_of_judge_story. eapply main_pipeline_judged. exact H.
  - intros w w' story jd H.
    apply judged_of_judge_story. eapply main_judged. exact H.
Qed.

(** [main] never uses up the passes it allows its loops. *)
Lemma main_never_out_of_fuel (w w' : world) : main w <> (Ok OutOfFuel, w').
Proof.
  unfold main. intros H.
  apply bind_ok in H as (outcome & w1 & Hpipe & H).
  destruct outcome as [[story jd]|].
  - apply feedback_loop_fuel in H; [exact H | lia].
  - unfold main_pipeline in Hpipe.
    apply bind_ok in Hpipe as ([] & w0 & _ & Hpipe).
    unfold bind at 1 in Hpipe. rewrite input_run in Hpipe.
    destruct (stdin w0) as [|user_request rest]; [discriminate Hpipe|].
    apply bind_ok in Hpipe as (outcome & w2 & Hrun & Hpipe).
    destruct outcome as [[story jd]|].
    + repeat (apply bind_ok in Hpipe as (? & ? & _ & Hpipe)).
      apply ret_ok in Hpipe as [Hpipe _]. discriminate Hpipe.
    + apply story_pipeline_never_out_of_fuel in Hrun. exact Hrun.
Qed.

End Feedback.

(** The scenario of C5 on the scripted runtime: after the three rounds of
    the script, the reader types [make it funnier] and then a blank line. *)
Lemma feedback_loop_cycles_witness :
  exists w',
    feedback_loop
      (rt := Mock.runtime [Ok (lit "A funnier draft."); Ok (Mock.verdict 44)])
      2 (lit "A third draft.") (PyDict [(lit "total_score", PyInt 20)])
      (Mock.fresh [ lit "  make it funnier "; [32%N; 9%N];
                    lit "never read" ])
    = (Ok (Done (lit "A funnier draft.",
                 PyDict [(lit "total_score", PyInt 44)])), w')
    /\ exchanges_since
         (Mock.fresh [ lit "  make it funnier "; [32%N; 9%N];
                       lit "never read" ]) w'
       = [ {| sent := rewrite_request (lit "A third draft.")
                                      (lit "make it funnier");
              received := Ok (lit "A funnier draft.") |};
           {| sent := judge_request (lit "A funnier draft.");
              received := Ok (Mock.verdict 44) |} ]
    /\ stdin w' = [lit "never read"]
    /\ In (Printed [PyStr (lit "A funnier draft.")]) (stdout w')
    /\ exists score,
        Py.get (PyDict [(lit "total_score", PyInt 44)]) (lit "total_score")
               PyNone = Ok score
        /\ In (Printed [PyStr (lit "Final internal judge score:"); score])
              (stdout w').
Proof.
  destruct (feedback_loop_cycles
              (rt := Mock.runtime [Ok (lit "A funnier draft.");
                                   Ok (Mock.verdict 44)])
              (lit "A third draft.") (PyDict [(lit "total_score", PyInt 20)])
              (Mock.fresh [ lit "  make it funnier "; [32%N; 9%N];
                            lit "never read" ]))
    as (_ & _ & _ & _ & Hscenario).
  apply (Hscenario 0%nat (lit "  ") (lit " ") [32%N; 9%N]
                   [lit "never read"] (lit "A funnier draft.")
                   (Mock.verdict 44)
                   (PyDict [(lit "total_score", PyInt 44)]));
    vm_compute; reflexivity.
Defined.

(** C10 on the scripted runtime: a whole session, three rounds and one
    rewrite from feedback. *)
Lemma evaluation_is_of_its_story_witness :
  exists w0 w1,
    judge_story (rt := Mock.runtime Mock.three_rounds)
      (lit "A funnier draft.") w0
    = (Ok (PyDict [(lit "total_score", PyInt 44)]), w1)
    /\ gateway_log
         (snd (main (rt := Mock.runtime Mock.three_rounds)
                 (Mock.fresh [ lit "a cat who is afraid of the dark";
                               lit "make it funnier"; [] ])))
       = gateway_log w1.
Proof.
  destruct (evaluation_is_of_its_story (rt := Mock.runtime Mock.three_rounds))
    as (_ & _ & _ & Hmain).
  apply (Hmain (Mock.fresh [ lit "a cat who is afraid of the dark";
                             lit "make it funnier"; [] ])).
  vm_compute. reflexivity.
Defined.

(* ================================================================= *)
(** ** Reading fields that are not there *)

Section Defaults.

Context {rt : Runtime}.



Lemma encodable_app (a b : str) :
  Str.encodable (a ++ b) = Str.encodable a && Str.encodable b.
Proof. apply forallb_app. Qed.

(** Text made of bytes holds no surrogate. *)
Lemma encodable_bytes (s : string) : Str.encodable (bytes_of_string s) = true.
Proof.
  induction s as [|a t IH]; [reflexivity|].
  cbn [bytes_of_string Str.encodable forallb]. fold (Str.encodable (bytes_of_string t)).
  rewrite IH, andb_true_r. unfold Str.surrogate.
  pose proof (N_ascii_bounded a) as Hbound.
  replace (55296 <=? N_of_ascii a)%N with false
    by (symmetry; apply N.leb_gt; lia).
  reflexivity.
Qed.

Lemma encodable_str_of_int (n : Z) : Str.encodable (Py.str_of_int n) = true.
Proof. apply encodable_bytes. Qed.

(** What the report of a round ends with on a dict: it reads each field
    with [get], so nothing but the encoding can fail. *)
Lemma report_round_result (heading : str) (entries : list (str * pyval))
      (w : world) :
  fst (report_round heading (PyDict entries) w)
  = if round_reportable heading entries then Ok tt
    else Raise UnicodeEncodeError.
Proof.
  unfold report_round, round_reportable, entry, bind, lift, print.
  cbn [Py.get].
  destruct (Py.lookup entries (lit "total_score")) as [score|];
    destruct (Py.lookup entries (lit "issues")) as [issues|];
    cbn [forallb Py.writable];
    change (Str.encodable (lit "Score:")) with true;
    change (Str.encodable (lit "Issues:")) with true;
    change (Str.encodable nl) with true;
    cbn [andb]; rewrite ?andb_true_r;
    destruct (Str.encodable heading); cbn [andb fst]; try reflexivity;
    try (destruct (Py.writable score); cbn [andb fst]; try reflexivity);
    try (destruct (Py.writable issues); cbn [andb fst]; reflexivity).
Qed.

Lemma report_round_dict (heading : str) (entries : list (str * pyval))
      (w : world) :
  round_reportable heading entries = true ->
  fst (report_round heading (PyDict entries) w) = Ok tt.
Proof. intros H. rewrite report_round_result, H. reflexivity. Qed.


End Defaults.



(* ================================================================= *)
(** ** The agents, one call at a time *)

Section Agents.

Context {rt : Runtime}.

Lemma prompt_text_story_writer (user_request : str) :
  prompt_text STORY_WRITER_PROMPT [(lit "user_request", user_request)]
  = story_writer_prompt_text user_request.
Proof. vm_compute. reflexivity. Qed.

Lemma prompt_text_judge (story : str) :
  prompt_text JUDGE_PROMPT [(lit "story", story)] = judge_prompt_text story.
Proof. vm_compute. reflexivity. Qed.

Lemma prompt_text_user_feedback (story feedback : str) :
  prompt_text USER_FEEDBACK_PROMPT
    [ (lit "story", story); (lit "feedback", feedback) ]
  = user_feedback_prompt_text story feedback.
Proof. vm_compute. reflexivity. Qed.

(** The templates are well-formed format strings and a value is never read
    as a template: whatever the request, the story or the feedback holds
    (braces, field names), formatting succeeds and gives the text of the
    template with the value put in as it is. *)
Theorem prompts_embed_text_verbatim (user_request story feedback : str) :
  Str.format STORY_WRITER_PROMPT [(lit "user_request", user_request)]
  = Ok (story_writer_prompt_text user_request)
  /\ Str.format JUDGE_PROMPT [(lit "story", story)]
     = Ok (judge_prompt_text story)
  /\ user_feedback_prompt story feedback
     = Ok (user_feedback_prompt_text story feedback).
Proof.
  split; [|split].
  - rewrite format_draft_template, prompt_text_story_writer. reflexivity.
  - rewrite format_judge_template, prompt_text_judge. reflexivity.
  - unfold user_feedback_prompt.
    rewrite format_feedback_template, prompt_text_user_feedback. reflexivity.
Qed.

(** [judge_story] asks exactly once, for 600 tokens at temperature 0.2, with
    the judge prompt around the story.  It raises only what the endpoint
    raises: any answer, parsable or not, gives a record. *)
Theorem judge_story_one_request (story : str) (w : world) :
  let req := chat_request (judge_prompt_text story) 600 (2 # 10) in
  let answer := ChatCompletion_create (gateway_log w) req in
  snd (judge_story story w)
  = {| gateway_log := gateway_log w ++ [{| sent := req; received := answer |}];
       stdin := stdin w;
       stdout := stdout w |}
  /\ match answer with
     | Ok raw =>
       exists record,
         fst (judge_story story w) = Ok record
         /\ parse_judge_response raw = Ok record
     | Raise e => fst (judge_story story w) = Raise e
     end.
Proof.
  intros req answer.
  rewrite judge_story_run. unfold judge_request.
  rewrite prompt_text_judge. fold req. unfold ask. fold answer.
  split; [reflexivity|].
  destruct answer as [raw|e]; cbn [fst rbind]; [|reflexivity].
  unfold parse_judge_response.
  destruct (parse_judge_response_try raw) as [record|e]; cbn [try_except];
    eauto.
Qed.

(** Text around the braces does not matter: a reply with commentary before
    its first opening brace and after its last closing brace parses to what
    the text between the braces parses to, whether that text is valid JSON
    or not. *)
Theorem parse_ignores_commentary (pre body suf : str) :
  ~ In Str.lbrace pre ->
  ~ In Str.rbrace suf ->
  parse_judge_response (pre ++ lit "{" ++ body ++ lit "}" ++ suf)
  = parse_judge_response (lit "{" ++ body ++ lit "}").
Proof.
  intros Hpre Hsuf.
  assert (Hin : forall a b, In Str.lbrace (a ++ lit "{" ++ b))
    by (intros a b; apply in_or_app; right; left; reflexivity).
  unfold parse_judge_response.
  rewrite (try_with_brace (pre ++ lit "{" ++ body ++ lit "}" ++ suf))
    by apply Hin.
  rewrite (try_with_brace (lit "{" ++ body ++ lit "}"))
    by apply (Hin []).
  rewrite candidate_embedded by assumption.
  pose proof (candidate_embedded [] body []
                (fun H : In Str.lbrace [] => H)
                (fun H : In Str.rbrace [] => H)) as Hself.
  cbn [app] in Hself. rewrite !app_nil_r in Hself.
  cbn [app]. rewrite Hself. reflexivity.
Qed.

End Agents.

(** A reply whose braces hold no JSON, with and without its commentary. *)
Lemma parse_ignores_commentary_witness :
  parse_judge_response (rt := Mock.runtime [])
    (lit "My verdict: " ++ lit "{" ++ lit "score 45" ++ lit "}" ++ lit " Bye.")
  = parse_judge_response (rt := Mock.runtime [])
      (lit "{" ++ lit "score 45" ++ lit "}").
Proof.
  apply (parse_ignores_commentary (rt := Mock.runtime [])).
  - vm_compute. intuition discriminate.
  - vm_compute. intuition discriminate.
Defined.

(* ================================================================= *)
(** ** What a session asks of the endpoint *)

Section SessionLogs.

Context {rt : Runtime}.

Lemma session_log_app (a b : list exchange) :
  session_log a -> Forall answered a -> session_log b -> session_log (a ++ b).
Proof.
  intros Ha. induction Ha as [|e err Hk Hr|e1 e2 text err H1 H2 H3 H4
                              |e1 e2 text raw rest H1 H2 H3 H4 Hrest IH];
    intros Hall Hb.
  - exact Hb.
  - inversion Hall as [|? ? [t Ht] _]; subst. congruence.
  - inversion Hall as [|? ? _ Hall']; subst.
    inversion Hall' as [|? ? [t Ht] _]; subst. congruence.
  - cbn [app]. apply session_round with text raw; try assumption.
    apply IH; [|exact Hb].
    inversion Hall as [|? ? _ Hall']; subst.
    inversion Hall' as [|? ? _ Hall'']; subst. exact Hall''.
Qed.

Lemma judge_request_is_judge (text : str) :
  is_judge_request (judge_request text) = true.
Proof. reflexivity. Qed.

(** In a session every evaluation request follows a request for a text. *)
Lemma session_log_judges (new : list exchange) :
  session_log new -> (2 * judge_requests new <= length new)%nat.
Proof.
  intros H. induction H as [|e err Hk Hr|e1 e2 text err H1 H2 H3 H4
                            |e1 e2 text raw rest H1 H2 H3 H4 Hrest IH];
    unfold judge_requests in *; cbn [filter length].
  - lia.
  - rewrite Hk. cbn [length]. lia.
  - rewrite H1, H3, judge_request_is_judge. cbn [length]. lia.
  - rewrite H1, H3, judge_request_is_judge. cbn [length] in *. lia.
Qed.

(** The exchanges a request for a text and the evaluation of the text
    leave. *)
Lemma text_then_judge_log (req : request) (w : world) :
  is_judge_request req = false ->
  match ask w req with
  | Raise e => session_log [{| sent := req; received := Raise e |}]
  | Ok text =>
    session_log
      [ {| sent := req; received := Ok text |};
        {| sent := judge_request text;
           received := ask (after w req) (judge_request text) |} ]
  end.
Proof.
  intros Hreq. destruct (ask w req) as [text|e].
  - destruct (ask (after w req) (judge_request text)) as [raw|e] eqn:Hj.
    + eapply session_round; try reflexivity; [exact Hreq | constructor].
    + eapply session_failed_judge; try reflexivity. exact Hreq.
  - eapply session_failed_text; [exact Hreq | reflexivity].
Qed.

(** A round in general: a text is asked for, the text is judged, something
    is reported.  Whatever the outcome, at most two exchanges are made, and
    a round that returns has made both. *)
Lemma round_log {A} (req : request) (report : str -> pyval -> M unit)
      (finish : str -> pyval -> A) (w w' : world) (r : result A) :
  is_judge_request req = false ->
  (forall text jd w1 w2 r0,
      report text jd w1 = (r0, w2) ->
      gateway_log w2 = gateway_log w1 /\ stdin w2 = stdin w1) ->
  bind (fun w0 => (ask w0 req, after w0 req))
       (fun text =>
          bind (judge_story text)
               (fun jd => bind (report text jd)
                               (fun _ => ret (finish text jd)))) w
  = (r, w') ->
  exists new,
    gateway_log w' = gateway_log w ++ new
    /\ stdin w' = stdin w
    /\ session_log new
    /\ (1 <= length new <= 2)%nat
    /\ (exists e rest, new = e :: rest /\ sent e = req)
    /\ (forall a, r = Ok a ->
                  exists text raw jd,
                    new = [ {| sent := req; received := Ok text |};
                            {| sent := judge_request text;
                               received := Ok raw |} ]
                    /\ parse_judge_response raw = Ok jd
                    /\ a = finish text jd).
Proof.
  intros Hreq Hreport H.
  pose proof (text_then_judge_log req w Hreq) as Hshape.
  unfold bind at 1 in H.
  destruct (ask w req) as [text|e] eqn:Hask.
  - unfold bind at 1 in H. rewrite judge_story_run in H.
    exists [ {| sent := req; received := Ok text |};
             {| sent := judge_request text;
                received := ask (after w req) (judge_request text) |} ].
    assert (Hafter : gateway_log (after (after w req) (judge_request text))
                     = gateway_log w
                         ++ [ {| sent := req; received := Ok text |};
                              {| sent := judge_request text;
                                 received := ask (after w req)
                                                 (judge_request text) |} ])
      by (cbn [after gateway_log]; rewrite Hask, <- app_assoc; reflexivity).
    destruct (ask (after w req) (judge_request text)) as [raw|e] eqn:Hj;
      cbn [rbind] in H.
    + destruct (parse_judge_response raw) as [jd|e] eqn:Hparse.
      * unfold bind at 1 in H.
        destruct (report text jd (after (after w req) (judge_request text)))
          as [[[]|e] w3] eqn:Hrep;
          apply Hreport in Hrep as [Hlog Hin];
          injection H as <- <-;
          (split; [rewrite Hlog; exact Hafter|]);
          (split; [rewrite Hin; reflexivity|]);
          (split; [exact Hshape|]);
          (split; [cbn [length]; lia|]);
          (split; [eauto|]).
        -- intros a Ha. injection Ha as <-. exists text, raw, jd. auto.
        -- intros a Ha. discriminate Ha.
      * injection H as <- <-.
        split; [exact Hafter|]. split; [reflexivity|].
        split; [exact Hshape|]. split; [cbn [length]; lia|].
        split; [eauto|]. intros a Ha. discriminate Ha.
    + injection H as <- <-.
      split; [exact Hafter|]. split; [reflexivity|].
      split; [exact Hshape|]. split; [cbn [length]; lia|].
      split; [eauto|]. intros a Ha. discriminate Ha.
  - injection H as <- <-.
    exists [ {| sent := req; received := Raise e |} ].
    split; [cbn [after gateway_log]; rewrite Hask; reflexivity|].
    split; [reflexivity|].
    split; [exact Hshape|]. split; [cbn [length]; lia|].
    split; [eauto|]. intros a Ha. discriminate Ha.
Qed.

Lemma bind_same_start {A B} (c1 c2 : M A) (k : A -> M B) (w : world) :
  c1 w = c2 w -> bind c1 k w = bind c2 k w.
Proof. intros H; unfold bind; rewrite H; reflexivity. Qed.

Lemma answered_pair (req1 req2 : request) (text raw : str) :
  Forall answered [ {| sent := req1; received := Ok text |};
                    {| sent := req2; received := Ok raw |} ].
Proof. repeat constructor; eexists; reflexivity. Qed.

(** Round 1, whatever its outcome. *)
Lemma first_round_log (user_request : str) (verbose : bool) (w w' : world)
      (r : result (str * pyval)) :
  first_round user_request verbose w = (r, w') ->
  exists new,
    gateway_log w' = gateway_log w ++ new
    /\ stdin w' = stdin w
    /\ session_log new
    /\ (1 <= length new <= 2)%nat
    /\ (exists e rest, new = e :: rest /\ sent e = draft_request user_request)
    /\ (forall a, r = Ok a -> Forall answered new /\ length new = 2%nat).
Proof.
  unfold first_round. intros H.
  rewrite (bind_same_start _
             (fun w0 => (ask w0 (draft_request user_request),
                         after w0 (draft_request user_request)))
             _ _ (generate_initial_story_run user_request w)) in H.
  destruct (round_log (draft_request user_request)
              (fun _ jd =>
                 if verbose
                 then report_round (nl ++ lit "--- Judge evaluation: round 1 ---")
                                   jd
                 else ret tt)
              (fun story jd => (story, jd)) w w' r eq_refl
              (fun _ jd w1 w2 r0 => optional_report_quiet verbose _ jd w1 w2 r0)
              H)
    as (new & Hlog & Hin & Hshape & Hlen & Hhead & Hok).
  exists new. repeat (split; [assumption|]).
  intros a Ha. destruct (Hok a Ha) as (text & raw & jd & -> & _).
  split; [apply answered_pair | reflexivity].
Qed.

(** A round of the loop, whatever its outcome: no exchange when the
    revision prompt cannot be built. *)
Lemma refine_body_log (verbose : bool) (round_idx : Z) (story : str)
      (judge_data : pyval) (w w' : world) (r : result (Z * str * pyval)) :
  refine_body verbose round_idx story judge_data w = (r, w') ->
  exists new,
    gateway_log w' = gateway_log w ++ new
    /\ stdin w' = stdin w
    /\ session_log new
    /\ (length new <= 2)%nat
    /\ (forall e, revision_prompt story judge_data = Raise e ->
                  new = [] /\ r = Raise e)
    /\ (forall a, r = Ok a ->
                  Forall answered new /\ length new = 2%nat
                  /\ fst (fst a) = round_idx + 1).
Proof.
  unfold refine_body. cbv zeta. intros H.
  destruct (revision_prompt story judge_data) as [prompt|e] eqn:Hprompt.
  - rewrite (bind_same_start _
               (fun w0 => (ask w0 (revise_request prompt),
                           after w0 (revise_request prompt)))
               _ _) in H
      by (rewrite revise_story_run, Hprompt; reflexivity).
    destruct (round_log (revise_request prompt)
                (fun _ jd =>
                   if verbose
                   then report_round
                          (lit "--- Judge evaluation: round "
                             ++ Py.str_of_int (round_idx + 1)
                             ++ lit " ---") jd
                   else ret tt)
                (fun text jd => (round_idx + 1, text, jd)) w w' r eq_refl
                (fun _ jd w1 w2 r0 =>
                   optional_report_quiet verbose _ jd w1 w2 r0)
                H)
      as (new & Hlog & Hin & Hshape & Hlen & _ & Hok).
    exists new.
    split; [exact Hlog|]. split; [exact Hin|]. split; [exact Hshape|].
    split; [lia|]. split; [intros e He; discriminate He|].
    intros a Ha. destruct (Hok a Ha) as (text & raw & jd & -> & _ & ->).
    split; [apply answered_pair|]. split; reflexivity.
  - unfold bind at 1 in H. rewrite revise_story_run, Hprompt in H.
    injection H as <- <-.
    exists []. rewrite app_nil_r.
    split; [reflexivity|]. split; [reflexivity|].
    split; [constructor|]. split; [cbn [length]; lia|].
    split; [intros e' He; injection He as <-; auto|].
    intros a Ha. discriminate Ha.
Qed.

(** The refinement loop, whatever its outcome: the exchanges it makes form
    a session, two at most for each round that is left. *)
Lemma refine_loop_log (fuel : nat) :
  forall (min_score max_rounds : Z) (verbose : bool) (round_idx : Z)
         (story : str) (judge_data : pyval) (w w' : world)
         (r : result (fueled (str * pyval))),
    refine_loop fuel min_score max_rounds verbose round_idx story judge_data w
    = (r, w') ->
    exists new,
      gateway_log w' = gateway_log w ++ new
      /\ stdin w' = stdin w
      /\ session_log new
      /\ (length new <= 2 * Z.to_nat (max_rounds - round_idx))%nat
      /\ (forall a, r = Ok a -> Forall answered new).
Proof.
  assert (Hnone : forall (w0 : world),
             exists new : list exchange,
               gateway_log w0 = gateway_log w0 ++ new
               /\ stdin w0 = stdin w0
               /\ session_log new
               /\ (length new <= 0)%nat
               /\ Forall answered new).
  { intros w0. exists []. rewrite app_nil_r.
    repeat split; constructor. }
  induction fuel as [|fuel IH]; intros min_score max_rounds verbose round_idx
    story judge_data w w' r H; cbn [refine_loop] in H;
    rewrite bind_lift in H;
    (destruct (loop_condition judge_data min_score round_idx max_rounds)
      as [[|]|e] eqn:Hcond;
     [| | injection H as <- <-;
          destruct (Hnone w) as (new & ? & ? & ? & ? & ?);
          exists new; repeat (split; [assumption || lia|]); auto]).
  - injection H as <- <-.
    destruct (Hnone w) as (new & ? & ? & ? & ? & ?).
    exists new. repeat (split; [assumption || lia|]). auto.
  - injection H as <- <-.
    destruct (Hnone w) as (new & ? & ? & ? & ? & ?).
    exists new. repeat (split; [assumption || lia|]). auto.
  - apply loop_condition_true in Hcond.
    unfold bind at 1 in H.
    destruct (refine_body verbose round_idx story judge_data w)
      as [[[[idx1 story1] jd1]|e] w1] eqn:Hbody;
      destruct (refine_body_log _ _ _ _ _ _ _ Hbody)
        as (new1 & Hlog1 & Hin1 & Hshape1 & Hlen1 & _ & Hok1).
    + destruct (Hok1 _ eq_refl) as (Hall1 & _ & Hidx). cbn [fst] in Hidx.
      subst idx1.
      destruct (IH _ _ _ _ _ _ _ _ _ H)
        as (new2 & Hlog2 & Hin2 & Hshape2 & Hlen2 & Hok2).
      exists (new1 ++ new2).
      split; [rewrite Hlog2, Hlog1, app_assoc; reflexivity|].
      split; [congruence|].
      split; [apply session_log_app; assumption|].
      split; [rewrite length_app; lia|].
      intros a Ha. apply Forall_app. split; [exact Hall1 | eauto].
    + injection H as <- <-.
      exists new1. repeat (split; [assumption || lia|]).
      intros a Ha. discriminate Ha.
  - injection H as <- <-.
    destruct (Hnone w) as (new & ? & ? & ? & ? & ?).
    exists new. repeat (split; [assumption || lia|]). auto.
Qed.

(** The pipeline, whatever its outcome. *)
Lemma story_pipeline_log (user_request : str) (min_score max_rounds : Z)
      (verbose : bool) (w w' : world)
      (r : result (fueled (str * pyval))) :
  story_pipeline user_request min_score max_rounds verbose w = (r, w') ->
  exists new,
    gateway_log w' = gateway_log w ++ new
    /\ stdin w' = stdin w
    /\ session_log new
    /\ (1 <= length new <= 2 * Nat.max 1 (Z.to_nat max_rounds))%nat
    /\ (exists e rest, new = e :: rest /\ sent e = draft_request user_request)
    /\ (forall a, r = Ok a -> Forall answered new /\ (2 <= length new)%nat).
Proof.
  unfold story_pipeline, story_pipeline_fuel. intros H.
  unfold bind at 1 in H.
  destruct (first_round user_request verbose w) as [[[story jd]|e] w1]
    eqn:Hfirst;
    destruct (first_round_log _ _ _ _ _ Hfirst)
      as (new1 & Hlog1 & Hin1 & Hshape1 & Hlen1 & Hhead1 & Hok1).
  - destruct (Hok1 _ eq_refl) as [Hall1 Htwo].
    destruct (refine_loop_log _ _ _ _ _ _ _ _ _ _ H)
      as (new2 & Hlog2 & Hin2 & Hshape2 & Hlen2 & Hok2).
    exists (new1 ++ new2).
    split; [rewrite Hlog2, Hlog1, app_assoc; reflexivity|].
    split; [congruence|].
    split; [apply session_log_app; assumption|].
    split; [rewrite length_app; lia|].
    split.
    { destruct Hhead1 as (e & rest & -> & He). exists e, (rest ++ new2).
      split; [reflexivity | exact He]. }
    intros a Ha. split; [|rewrite length_app; lia].
    apply Forall_app. split; [exact Hall1 | eauto].
  - injection H as <- <-.
    exists new1. repeat (split; [assumption || lia|]).
    intros a Ha. discriminate Ha.
Qed.

(** Whatever [story_pipeline] ends with (a result, an error of the
    endpoint, a [TypeError] on a malformed evaluation), the requests it made
    form a session that opens with the drafting request for the user's text:
    each text the endpoint wrote was sent to the judge in the very next
    request, nothing was asked after a request that failed, and no input was
    read. *)
Theorem story_pipeline_session (user_request : str)
        (min_score max_rounds : Z) (verbose : bool) (w : world) :
  exists first rest,
    gateway_log (snd (story_pipeline user_request min_score max_rounds
                                     verbose w))
    = gateway_log w ++ first :: rest
    /\ sent first
       = chat_request (story_writer_prompt_text user_request) 900 (8 # 10)
    /\ session_log (first :: rest)
    /\ (forall a,
          fst (story_pipeline user_request min_score max_rounds verbose w)
          = Ok a ->
          Forall answered (first :: rest))
    /\ stdin (snd (story_pipeline user_request min_score max_rounds
                                  verbose w))
       = stdin w.
Proof.
  destruct (story_pipeline user_request min_score max_rounds verbose w)
    as [r w'] eqn:Hrun.
  destruct (story_pipeline_log _ _ _ _ _ _ _ Hrun)
    as (new & Hlog & Hin & Hshape & _ & (e & rest & -> & He) & Hok).
  exists e, rest. cbn [fst snd].
  split; [exact Hlog|].
  split; [rewrite He; unfold draft_request;
          rewrite prompt_text_story_writer; reflexivity|].
  split; [exact Hshape|].
  split; [intros a Ha; apply (Hok a Ha) | exact Hin].
Qed.

(** The round budget holds on every path: whatever [story_pipeline] ends
    with, it made at least one request, at most two for each of
    [max 1 max_rounds] rounds, and at most [max 1 max_rounds] of them asked
    for an evaluation. *)
Theorem story_pipeline_budget (user_request : str)
        (min_score max_rounds : Z) (verbose : bool) (w : world) :
  let new :=
    exchanges_since w (snd (story_pipeline user_request min_score max_rounds
                                           verbose w)) in
  (1 <= length new <= 2 * Nat.max 1 (Z.to_nat max_rounds))%nat
  /\ (judge_requests new <= Nat.max 1 (Z.to_nat max_rounds))%nat.
Proof.
  destruct (story_pipeline user_request min_score max_rounds verbose w)
    as [r w'] eqn:Hrun.
  destruct (story_pipeline_log _ _ _ _ _ _ _ Hrun)
    as (new & Hlog & _ & Hshape & Hlen & _).
  cbn [snd]. rewrite (exchanges_since_app _ _ _ Hlog). cbv zeta.
  split; [exact Hlen|].
  apply session_log_judges in Hshape. lia.
Qed.

End SessionLogs.

(* ================================================================= *)
(** ** What [verbose] changes *)

Section Verbose.

Context {rt : Runtime}.

Lemma same_service_refl (w : world) : same_service w w.
Proof. split; reflexivity. Qed.

Lemma ask_same (w1 w2 : world) (req : request) :
  same_service w1 w2 -> ask w1 req = ask w2 req.
Proof. intros [Hlog _]. unfold ask. rewrite Hlog. reflexivity. Qed.

Lemma after_same (w1 w2 : world) (req : request) :
  same_service w1 w2 -> same_service (after w1 req) (after w2 req).
Proof.
  intros Hsame. pose proof (ask_same _ _ req Hsame) as Hask.
  destruct Hsame as [Hlog Hin].
  split; cbn [after gateway_log stdin]; congruence.
Qed.

Lemma bind_agree {A B} (c1 c2 : M A) (k1 k2 : A -> M B) (w1 w2 : world) :
  agree (c1 w1) (c2 w2) ->
  (forall a w1' w2', same_service w1' w2' -> agree (k1 a w1') (k2 a w2')) ->
  agree (bind c1 k1 w1) (bind c2 k2 w2).
Proof.
  unfold bind. intros [Hfst Hsame] Hk.
  destruct (c1 w1) as [[a|e] w1'], (c2 w2) as [[b|e'] w2'];
    cbn [fst snd] in *; try discriminate.
  - injection Hfst as <-. apply Hk. exact Hsame.
  - injection Hfst as <-. split; [reflexivity | exact Hsame].
Qed.

Lemma lift_agree {A} (r : result A) (w1 w2 : world) :
  same_service w1 w2 -> agree (lift r w1) (lift r w2).
Proof. intros H; split; [reflexivity | exact H]. Qed.

Lemma ret_agree {A} (a : A) (w1 w2 : world) :
  same_service w1 w2 -> agree (ret a w1) (ret a w2).
Proof. intros H; split; [reflexivity | exact H]. Qed.

Lemma call_model_agree (prompt : str) (max_tokens : Z) (temperature : Q)
      (w1 w2 : world) :
  same_service w1 w2 ->
  agree (call_model prompt max_tokens temperature w1)
        (call_model prompt max_tokens temperature w2).
Proof.
  intros H. rewrite !call_model_run.
  split; [apply ask_same; exact H | apply after_same; exact H].
Qed.

Lemma judge_story_agree (story : str) (w1 w2 : world) :
  same_service w1 w2 -> agree (judge_story story w1) (judge_story story w2).
Proof.
  intros H. rewrite !judge_story_run.
  split; cbn [fst snd];
    [rewrite (ask_same _ _ _ H); reflexivity | apply after_same; exact H].
Qed.

Lemma revise_story_agree (story : str) (judge_data : pyval) (w1 w2 : world) :
  same_service w1 w2 ->
  agree (revise_story story judge_data w1) (revise_story story judge_data w2).
Proof.
  intros H. unfold revise_story.
  apply bind_agree; [apply lift_agree; exact H|].
  intros prompt w1' w2' H'. apply call_model_agree. exact H'.
Qed.

Lemma generate_initial_story_agree (user_request : str) (w1 w2 : world) :
  same_service w1 w2 ->
  agree (generate_initial_story user_request w1)
        (generate_initial_story user_request w2).
Proof.
  intros H. unfold generate_initial_story.
  apply bind_agree; [apply lift_agree; exact H|].
  intros prompt w1' w2' H'. apply call_model_agree. exact H'.
Qed.

(** What is not a dict has no [get]. *)
Lemma get_of_other (o : pyval) (key : str) (default : pyval) :
  (forall entries, o <> PyDict entries) ->
  Py.get o key default = Raise AttributeError.
Proof.
  intros H. destruct o; try reflexivity. exfalso. eapply H. reflexivity.
Qed.

Lemma dict_or_other (o : pyval) :
  (exists entries, o = PyDict entries) \/ (forall entries, o <> PyDict entries).
Proof. destruct o; eauto; right; intros entries H; discriminate H. Qed.

(** The loop starts by reading the total: on what is not a dict it raises
    before anything else. *)
Lemma refine_loop_of_other (fuel : nat) (min_score max_rounds : Z)
      (verbose : bool) (round_idx : Z) (story : str) (judge_data : pyval)
      (w : world) :
  (forall entries, judge_data <> PyDict entries) ->
  refine_loop fuel min_score max_rounds verbose round_idx story judge_data w
  = (Raise AttributeError, w).
Proof.
  intros H. destruct fuel; cbn [refine_loop]; rewrite bind_lift;
    unfold loop_condition; rewrite (get_of_other _ _ _ H); reflexivity.
Qed.

Lemma report_round_of_other (heading : str) (judge_data : pyval) (w : world) :
  Str.encodable heading = true ->
  (forall entries, judge_data <> PyDict entries) ->
  fst (report_round heading judge_data w) = Raise AttributeError.
Proof.
  intros Hheading H. unfold report_round.
  destruct (print_quiet [PyStr heading] w) as (w1 & Hp & _ & _);
    [cbn [forallb Py.writable]; rewrite Hheading; reflexivity|].
  rewrite (bind_run _ _ _ _ _ Hp), bind_lift, (get_of_other _ _ _ H).
  reflexivity.
Qed.

Lemma round_heading_encodable (round_idx : Z) :
  Str.encodable (lit "--- Judge evaluation: round "
                   ++ Py.str_of_int round_idx ++ lit " ---") = true.
Proof.
  rewrite !encodable_app, encodable_str_of_int. reflexivity.
Qed.

Lemma refine_body_then {B} (verbose : bool) (round_idx : Z) (story : str)
      (judge_data : pyval) (k : Z * str * pyval -> M B) (w : world) :
  bind (refine_body verbose round_idx story judge_data) k w
  = bind (revise_story story judge_data)
         (fun story' =>
            bind (judge_story story')
                 (fun judge_data' =>
                    bind (if verbose
                          then report_round
                                 (lit "--- Judge evaluation: round "
                                    ++ Py.str_of_int (round_idx + 1)
                                    ++ lit " ---") judge_data'
                          else ret tt)
                         (fun _ => k (round_idx + 1, story', judge_data')))) w.
Proof.
  unfold refine_body, bind.
  destruct (revise_story story judge_data w) as [[story'|e] w1];
    [|reflexivity].
  destruct (judge_story story' w1) as [[jd'|e] w2]; [|reflexivity].
  destruct verbose; [|reflexivity].
  destruct (report_round _ jd' w2) as [[[]|e] w3]; reflexivity.
Qed.

Lemma first_round_then {B} (user_request : str) (verbose : bool)
      (k : str * pyval -> M B) (w : world) :
  bind (first_round user_request verbose) k w
  = bind (generate_initial_story user_request)
         (fun story =>
            bind (judge_story story)
                 (fun judge_data =>
                    bind (if verbose
                          then report_round
                                 (nl ++ lit "--- Judge evaluation: round 1 ---")
                                 judge_data
                          else ret tt)
                         (fun _ => k (story, judge_data)))) w.
Proof.
  unfold first_round, bind.
  destruct (generate_initial_story user_request w) as [[story|e] w1];
    [|reflexivity].
  destruct (judge_story story w1) as [[jd|e] w2]; [|reflexivity].
  destruct verbose; [|reflexivity].
  destruct (report_round _ jd w2) as [[[]|e] w3]; reflexivity.
Qed.

Lemma bind_agree_or_cut {A B} (c1 c2 : M A) (k1 k2 : A -> M B)
      (w1 w2 : world) :
  agree (c1 w1) (c2 w2) ->
  (forall a w1' w2',
      same_service w1' w2' ->
      agree (k1 a w1') (k2 a w2') \/ cut_short (k1 a w1') (k2 a w2')) ->
  agree (bind c1 k1 w1) (bind c2 k2 w2)
  \/ cut_short (bind c1 k1 w1) (bind c2 k2 w2).
Proof.
  unfold bind. intros [Hfst Hsame] Hk.
  destruct (c1 w1) as [[a|e] w1'], (c2 w2) as [[b|e'] w2'];
    cbn [fst snd] in *; try discriminate.
  - injection Hfst as <-. apply Hk. exact Hsame.
  - injection Hfst as <-. left. split; [reflexivity | exact Hsame].
Qed.

(** A report in front of the loop: when it goes through, the loop goes on
    as without it; on what is not a dict it raises what the loop would
    raise; and when it cannot encode what it writes, the run ends there
    while the run without the report goes on. *)
Lemma report_then_loop (fuel : nat) (min_score max_rounds : Z)
      (round_idx : Z) (story heading : str) (judge_data : pyval)
      (w1 w2 : world) :
  Str.encodable heading = true ->
  (forall idx s jd w1' w2',
      same_service w1' w2' ->
      agree (refine_loop fuel min_score max_rounds true idx s jd w1')
            (refine_loop fuel min_score max_rounds false idx s jd w2')
      \/ cut_short (refine_loop fuel min_score max_rounds true idx s jd w1')
                   (refine_loop fuel min_score max_rounds false idx s jd
                                w2')) ->
  same_service w1 w2 ->
  agree (bind (report_round heading judge_data)
              (fun _ => refine_loop fuel min_score max_rounds true round_idx
                                    story judge_data) w1)
        (bind (ret tt)
              (fun _ => refine_loop fuel min_score max_rounds false round_idx
                                    story judge_data) w2)
  \/ cut_short
       (bind (report_round heading judge_data)
             (fun _ => refine_loop fuel min_score max_rounds true round_idx
                                   story judge_data) w1)
       (bind (ret tt)
             (fun _ => refine_loop fuel min_score max_rounds false round_idx
                                   story judge_data) w2).
Proof.
  intros Hheading IH [Hlog Hin].
  destruct (report_round heading judge_data w1) as [r w1'] eqn:Hrep.
  pose proof (report_round_quiet _ _ _ _ _ Hrep) as [Hlog' Hin'].
  assert (Hsame : same_service w1' w2) by (split; congruence).
  change (bind (ret tt) ?k w2) with (k tt w2). cbv beta.
  unfold bind at 1 2. rewrite Hrep.
  destruct (dict_or_other judge_data) as [[entries ->]|Hother].
  - pose proof (report_round_result heading entries w1) as Hres.
    rewrite Hrep in Hres. cbn [fst] in Hres.
    destruct (round_reportable heading entries); subst r.
    + apply IH. exact Hsame.
    + right.
      destruct (refine_loop fuel min_score max_rounds false round_idx story
                            (PyDict entries) w2) as [r2 w2'] eqn:Hloop.
      destruct (refine_loop_log _ _ _ _ _ _ _ _ _ _ Hloop)
        as (new & Hlog2 & Hin2 & _).
      split; [reflexivity|]. cbn [snd].
      split; [exists new; congruence | congruence].
  - pose proof (report_round_of_other heading judge_data w1 Hheading Hother)
      as Hr.
    rewrite Hrep in Hr. cbn [fst] in Hr. subst r.
    rewrite refine_loop_of_other by exact Hother.
    left. split; [reflexivity | exact Hsame].
Qed.

Lemma refine_loop_agree_or_cut (fuel : nat) :
  forall (min_score max_rounds : Z) (round_idx : Z) (story : str)
         (judge_data : pyval) (w1 w2 : world),
    same_service w1 w2 ->
    agree (refine_loop fuel min_score max_rounds true round_idx story
                       judge_data w1)
          (refine_loop fuel min_score max_rounds false round_idx story
                       judge_data w2)
    \/ cut_short (refine_loop fuel min_score max_rounds true round_idx story
                              judge_data w1)
                 (refine_loop fuel min_score max_rounds false round_idx story
                              judge_data w2).
Proof.
  induction fuel as [|fuel IH]; intros min_score max_rounds round_idx story
    judge_data w1 w2 Hsame; cbn [refine_loop]; rewrite !bind_lift;
    destruct (loop_condition judge_data min_score round_idx max_rounds)
      as [[|]|e]; try (left; split; [reflexivity | exact Hsame]).
  rewrite !refine_body_then.
  apply bind_agree_or_cut; [apply revise_story_agree; exact Hsame|].
  intros story' w1' w2' Hsame'.
  apply bind_agree_or_cut; [apply judge_story_agree; exact Hsame'|].
  intros jd' w1'' w2'' Hsame''.
  apply report_then_loop;
    [apply round_heading_encodable | | exact Hsame''].
  intros idx s jd x y Hxy. apply IH. exact Hxy.
Qed.

Lemma silent_bind {A B} (c : M A) (k : A -> M B) :
  silent c -> (forall a, silent (k a)) -> silent (bind c k).
Proof.
  intros Hc Hk w. unfold bind. specialize (Hc w).
  destruct (c w) as [[a|e] w1]; cbn [snd] in *.
  - rewrite Hk. exact Hc.
  - exact Hc.
Qed.

Lemma silent_lift {A} (r : result A) : silent (lift r).
Proof. intros w. reflexivity. Qed.

Lemma silent_ret {A} (a : A) : silent (ret a).
Proof. intros w. reflexivity. Qed.

Lemma silent_call_model (prompt : str) (max_tokens : Z) (temperature : Q) :
  silent (call_model prompt max_tokens temperature).
Proof. intros w. reflexivity. Qed.

Lemma silent_judge_story (story : str) : silent (judge_story story).
Proof.
  unfold judge_story.
  apply silent_bind; [apply silent_lift|]. intros prompt.
  apply silent_bind; [apply silent_call_model|]. intros raw.
  apply silent_lift.
Qed.

Lemma silent_revise_story (story : str) (judge_data : pyval) :
  silent (revise_story story judge_data).
Proof.
  unfold revise_story.
  apply silent_bind; [apply silent_lift|]. intros prompt.
  apply silent_call_model.
Qed.

Lemma silent_refine_loop (fuel : nat) :
  forall (min_score max_rounds round_idx : Z) (story : str)
         (judge_data : pyval),
    silent (refine_loop fuel min_score max_rounds false round_idx story
                        judge_data).
Proof.
  induction fuel as [|fuel IH]; intros min_score max_rounds round_idx story
    judge_data; cbn [refine_loop];
    (apply silent_bind; [apply silent_lift|]); intros [|];
    try apply silent_ret.
  apply silent_bind.
  - unfold refine_body.
    apply silent_bind; [apply silent_revise_story|]. intros story'.
    apply silent_bind; [apply silent_judge_story|]. intros jd'.
    apply silent_bind; [apply silent_ret|]. intros _.
    apply silent_ret.
  - intros [[idx story'] jd']. apply IH.
Qed.

Lemma silent_story_pipeline (user_request : str) (min_score max_rounds : Z) :
  silent (story_pipeline user_request min_score max_rounds false).
Proof.
  unfold story_pipeline, story_pipeline_fuel.
  apply silent_bind.
  - unfold first_round.
    apply silent_bind.
    { unfold generate_initial_story.
      apply silent_bind; [apply silent_lift|]. intros prompt.
      apply silent_call_model. }
    intros story.
    apply silent_bind; [apply silent_judge_story|]. intros jd.
    apply silent_bind; [apply silent_ret|]. intros _.
    apply silent_ret.
  - intros [story jd]. apply silent_refine_loop.
Qed.

(** [verbose] adds reports and nothing else.  Without it
    [story_pipeline] prints nothing.  With it the run either ends as the
    run without it does (the same result or the same exception, after the
    same exchanges), or is cut short by a report that cannot encode the text
    it writes: then it raises [UnicodeEncodeError] after exchanges that the
    run without it has made too, before going on.  In particular a
    verbose run that returns has returned what the quiet run returns.
    Neither run reads input. *)
Theorem verbose_only_prints (user_request : str) (min_score max_rounds : Z)
        (w : world) :
  stdout (snd (story_pipeline user_request min_score max_rounds false w))
  = stdout w
  /\ stdin (snd (story_pipeline user_request min_score max_rounds true w))
     = stdin (snd (story_pipeline user_request min_score max_rounds false w))
  /\ ((fst (story_pipeline user_request min_score max_rounds true w)
       = fst (story_pipeline user_request min_score max_rounds false w)
       /\ gateway_log (snd (story_pipeline user_request min_score max_rounds
                                           true w))
          = gateway_log (snd (story_pipeline user_request min_score
                                             max_rounds false w)))
      \/ (fst (story_pipeline user_request min_score max_rounds true w)
          = Raise UnicodeEncodeError
          /\ exists more,
              gateway_log (snd (story_pipeline user_request min_score
                                               max_rounds false w))
              = gateway_log (snd (story_pipeline user_request min_score
                                                 max_rounds true w))
                  ++ more))
  /\ (forall a,
        fst (story_pipeline user_request min_score max_rounds true w) = Ok a ->
        fst (story_pipeline user_request min_score max_rounds false w) = Ok a
        /\ gateway_log (snd (story_pipeline user_request min_score
                                            max_rounds true w))
           = gateway_log (snd (story_pipeline user_request min_score
                                              max_rounds false w))).
Proof.
  assert (H : agree (story_pipeline user_request min_score max_rounds true w)
                    (story_pipeline user_request min_score max_rounds false
                                    w)
              \/ cut_short
                   (story_pipeline user_request min_score max_rounds true w)
                   (story_pipeline user_request min_score max_rounds false
                                   w)).
  { unfold story_pipeline, story_pipeline_fuel.
    rewrite !first_round_then.
    apply bind_agree_or_cut;
      [apply generate_initial_story_agree; apply same_service_refl|].
    intros story w1 w2 Hsame.
    apply bind_agree_or_cut; [apply judge_story_agree; exact Hsame|].
    intros jd w1' w2' Hsame'.
    apply report_then_loop; [reflexivity | | exact Hsame'].
    intros idx s jd' x y Hxy. apply refine_loop_agree_or_cut. exact Hxy. }
  split; [apply silent_story_pipeline|].
  destruct H as [(Hfst & Hlog & Hin)|(Hfst & Hmore & Hin)].
  - split; [exact Hin|]. split; [left; split; assumption|].
    intros a Ha. split; [rewrite <- Hfst; exact Ha | exact Hlog].
  - split; [exact Hin|]. split; [right; split; assumption|].
    intros a Ha. rewrite Hfst in Ha. discriminate Ha.
Qed.

End Verbose.

(* ================================================================= *)
(** ** The sessions of [main] *)

Section MainLogs.

Context {rt : Runtime}.

(** In a session that was answered throughout, every other request asked
    for an evaluation. *)
Lemma session_log_answered (new : list exchange) :
  session_log new -> Forall answered new ->
  length new = (2 * judge_requests new)%nat.
Proof.
  intros H. induction H as [|e err Hk Hr|e1 e2 text err H1 H2 H3 H4
                            |e1 e2 text raw rest H1 H2 H3 H4 Hrest IH];
    intros Hall; unfold judge_requests in *; cbn [filter length].
  - reflexivity.
  - inversion Hall as [|? ? [t Ht] _]; subst. congruence.
  - inversion Hall as [|? ? _ Hall']; subst.
    inversion Hall' as [|? ? [t Ht] _]; subst. congruence.
  - rewrite H1, H3, judge_request_is_judge. cbn [length].
    inversion Hall as [|? ? _ Hall']; subst.
    inversion Hall' as [|? ? _ Hall'']; subst.
    specialize (IH Hall''). lia.
Qed.

(** A rewrite from feedback, whatever its outcome. *)
Lemma apply_feedback_log (story feedback : str) (w w' : world)
      (r : result (str * pyval)) :
  apply_feedback story feedback w = (r, w') ->
  exists new,
    gateway_log w' = gateway_log w ++ new
    /\ stdin w' = stdin w
    /\ session_log new
    /\ (1 <= length new <= 2)%nat
    /\ (exists e rest,
          new = e :: rest /\ sent e = rewrite_request story feedback)
    /\ (forall a, r = Ok a -> Forall answered new /\ length new = 2%nat).
Proof.
  unfold apply_feedback, user_feedback_prompt. intros H.
  rewrite bind_lift, format_feedback_template in H.
  rewrite (bind_same_start _
             (fun w0 => (ask w0 (rewrite_request story feedback),
                         after w0 (rewrite_request story feedback)))
             _ _ (call_model_run _ _ _ w)) in H.
  destruct (round_log (rewrite_request story feedback)
              (fun text jd => report_update text jd)
              (fun text jd => (text, jd)) w w' r eq_refl
              (fun text jd w1 w2 r0 =>
                 console_only_report_update text jd w1 w2 r0)
              H)
    as (new & Hlog & Hin & Hshape & Hlen & Hhead & Hok).
  exists new. repeat (split; [assumption|]).
  intros a Ha. destruct (Hok a Ha) as (text & raw & jd & -> & _).
  split; [apply answered_pair | reflexivity].
Qed.

(** One pass of the loop of [main], whatever its outcome: it reads one
    line, and asks the endpoint only when the line is not blank. *)
Lemma feedback_iteration_log (story : str) (judge_data : pyval)
      (w w' : world) (r : result (option (str * pyval))) :
  feedback_iteration story judge_data w = (r, w') ->
  match stdin w with
  | [] =>
    r = Raise EOFError /\ gateway_log w' = gateway_log w /\ stdin w' = []
  | line :: rest =>
    stdin w' = rest
    /\ exists new,
        gateway_log w' = gateway_log w ++ new
        /\ session_log new
        /\ (length new <= 2)%nat
        /\ (blank line -> new = [])
        /\ (forall a, r = Ok a ->
                      Forall answered new
                      /\ match a with
                         | None => blank line /\ new = []
                         | Some _ => ~ blank line /\ length new = 2%nat
                         end)
  end.
Proof.
  unfold feedback_iteration, blank. intros H.
  unfold bind at 1 in H. rewrite input_run in H.
  destruct (stdin w) as [|line rest] eqn:Hstdin.
  - injection H as <- <-. cbn [after_input gateway_log stdin].
    rewrite Hstdin. auto.
  - destruct (Str.strip line) as [|c t] eqn:Hstrip;
      cbn [Py.truthy Str.eqb negb] in H.
    + unfold bind at 1 in H.
      destruct (say_goodnight judge_data (after_input w feedback_question))
        as [r1 w1] eqn:Hbye.
      apply console_only_say_goodnight in Hbye as [Hlog Hin].
      cbn [after_input gateway_log stdin] in Hlog, Hin.
      rewrite Hstdin in Hin. cbn [tl] in Hin.
      assert (Hend : w' = w1 /\ (forall a, r = Ok a -> a = None)).
      { destruct r1 as [[]|e]; unfold ret in H; injection H as <- <-;
          (split; [reflexivity|]); intros a Ha;
          [injection Ha as <-; reflexivity | discriminate Ha]. }
      destruct Hend as [-> Hnone].
      split; [exact Hin|].
      exists []. rewrite app_nil_r.
      split; [exact Hlog|]. split; [constructor|].
      split; [cbn [length]; lia|]. split; [reflexivity|].
      intros a Ha. split; [constructor|].
      rewrite (Hnone a Ha). auto.
    + unfold bind at 1 in H.
      destruct (apply_feedback story (c :: t)
                  (after_input w feedback_question)) as [r0 w0] eqn:Hrun.
      apply apply_feedback_log in Hrun
        as (new & Hlog & Hin & Hshape & Hlen & _ & Hok).
      cbn [after_input gateway_log stdin] in Hlog, Hin.
      rewrite Hstdin in Hin. cbn [tl] in Hin.
      assert (Hend : w' = w0
                     /\ (forall a, r = Ok a ->
                                   exists updated,
                                     a = Some updated /\ r0 = Ok updated)).
      { destruct r0 as [updated|e]; unfold ret in H; injection H as <- <-;
          (split; [reflexivity|]); intros a Ha;
          [injection Ha as <-; eauto | discriminate Ha]. }
      destruct Hend as [-> Hsome].
      split; [exact Hin|].
      exists new. split; [exact Hlog|]. split; [exact Hshape|].
      split; [lia|]. split; [discriminate|].
      intros a Ha. destruct (Hsome a Ha) as (updated & -> & Hr0).
      destruct (Hok _ Hr0) as [Hall Htwo].
      split; [exact Hall|]. split; [discriminate | exact Htwo].
Qed.

(** The loop of [main], whatever its outcome: two exchanges at most for
    each line it reads, and it ends normally on a blank line only. *)
Lemma feedback_loop_log (fuel : nat) :
  forall (story : str) (judge_data : pyval) (w w' : world)
         (r : result (fueled (str * pyval))),
    feedback_loop fuel story judge_data w = (r, w') ->
    exists used new,
      stdin w = used ++ stdin w'
      /\ gateway_log w' = gateway_log w ++ new
      /\ session_log new
      /\ (length new <= 2 * length used)%nat
      /\ (forall p, r = Ok (Done p) ->
                    exists lines stop,
                      used = lines ++ [stop]
                      /\ Forall (fun line => ~ blank line) lines
                      /\ blank stop
                      /\ Forall answered new
                      /\ length new = (2 * length lines)%nat).
Proof.
  induction fuel as [|fuel IH]; intros story judge_data w w' r H;
    cbn [feedback_loop] in H.
  - injection H as <- <-. exists [], []. rewrite app_nil_r.
    split; [reflexivity|]. split; [reflexivity|]. split; [constructor|].
    split; [cbn [length]; lia|]. intros p Hp. discriminate Hp.
  - unfold bind at 1 in H.
    destruct (feedback_iteration story judge_data w) as [next w1] eqn:Hiter.
    apply feedback_iteration_log in Hiter.
    destruct (stdin w) as [|line rest] eqn:Hstdin.
    + destruct Hiter as (-> & Hlog & Hin). injection H as <- <-.
      exists [], []. rewrite app_nil_r, Hin.
      split; [reflexivity|]. split; [exact Hlog|]. split; [constructor|].
      split; [cbn [length]; lia|]. intros p Hp. discriminate Hp.
    + destruct Hiter as (Hin & new & Hlog & Hshape & Hlen & _ & Hok).
      destruct next as [[[story1 jd1]|]|e].
      * destruct (Hok _ eq_refl) as (Hall & Hline & Htwo).
        destruct (IH _ _ _ _ _ H)
          as (used2 & new2 & Hin2 & Hlog2 & Hshape2 & Hlen2 & Hok2).
        exists (line :: used2), (new ++ new2).
        split; [cbn [app]; rewrite <- Hin2, Hin; reflexivity|].
        split; [rewrite Hlog2, Hlog, app_assoc; reflexivity|].
        split; [apply session_log_app; assumption|].
        split; [rewrite length_app; cbn [length]; lia|].
        intros p Hp.
        destruct (Hok2 p Hp) as (lines & stop & -> & Hlines & Hstop & Hall2
                                 & Hcount).
        exists (line :: lines), stop.
        split; [reflexivity|].
        split; [constructor; assumption|].
        split; [exact Hstop|].
        split; [apply Forall_app; split; assumption|].
        rewrite length_app. cbn [length]. lia.
      * destruct (Hok _ eq_refl) as (_ & Hline & ->).
        injection H as <- <-.
        exists [line], []. 
        split; [cbn [app]; rewrite Hin; reflexivity|].
        split; [exact Hlog|]. split; [constructor|].
        split; [cbn [length]; lia|].
        intros p _. exists [], line.
        split; [reflexivity|]. split; [constructor|].
        split; [exact Hline|]. split; [constructor | reflexivity].
      * injection H as <- <-.
        exists [line], new.
        split; [cbn [app]; rewrite Hin; reflexivity|].
        split; [exact Hlog|]. split; [exact Hshape|].
        split; [cbn [length]; lia|].
        intros p Hp. discriminate Hp.
Qed.

(** [main] up to its loop, whatever its outcome: nothing is asked before
    the request is read, and then the pipeline runs on the line as it was
    typed. *)
Lemma main_pipeline_log (w w' : world) (r : result (fueled (str * pyval))) :
  main_pipeline w = (r, w') ->
  match stdin w with
  | [] =>
    r = Raise EOFError /\ gateway_log w' = gateway_log w /\ stdin w' = []
  | request :: rest =>
    stdin w' = rest
    /\ exists new,
        gateway_log w' = gateway_log w ++ new
        /\ session_log new
        /\ (1 <= length new <= 6)%nat
        /\ (exists e more, new = e :: more /\ sent e = draft_request request)
        /\ (forall a, r = Ok a ->
                      Forall answered new /\ (2 <= length new)%nat)
  end.
Proof.
  unfold main_pipeline. intros H.
  rewrite (bind_run _ _ _ _ _
             (print_ok
                [PyStr (lit "Welcome to the Bedtime Story Maker (ages 5â€“10) ðŸŒ™"
                          ++ nl)] w eq_refl)) in H.
  unfold bind at 1 in H. rewrite input_run in H.
  cbn [stdin after_input gateway_log] in H.
  destruct (stdin w) as [|request rest] eqn:Hstdin.
  - injection H as <- <-. cbn [gateway_log stdin]. auto.
  - unfold bind at 1 in H. cbn [tl] in H.
    match type of H with
    | context [story_pipeline request 40 3 true ?w0] =>
      destruct (story_pipeline request 40 3 true w0) as [outcome w2] eqn:Hrun
    end.
    apply story_pipeline_log in Hrun
      as (new & Hlog & Hin & Hshape & Hlen & Hhead & Hok).
    cbn [after_input gateway_log stdin tl] in Hlog, Hin.
    change (2 * Nat.max 1 (Z.to_nat 3))%nat with 6%nat in Hlen.
    destruct outcome as [[[story jd]|]|e].
    + apply console_only_main_report in H as [Hlog' Hin'].
      split; [congruence|].
      exists new. split; [congruence|].
      split; [exact Hshape|]. split; [exact Hlen|]. split; [exact Hhead|].
      intros a _. apply (Hok _ eq_refl).
    + injection H as <- <-.
      split; [exact Hin|].
      exists new. repeat (split; [assumption|]).
      intros a _. apply (Hok _ eq_refl).
    + injection H as <- <-.
      split; [exact Hin|].
      exists new. repeat (split; [assumption|]).
      intros a Ha. discriminate Ha.
Qed.

(** [main], whatever its outcome. *)
Lemma main_log (w w' : world) (r : result (fueled (str * pyval))) :
  main w = (r, w') ->
  exists used new,
    stdin w = used ++ stdin w'
    /\ gateway_log w' = gateway_log w ++ new
    /\ session_log new
    /\ (length new <= 6 + 2 * pred (length used))%nat
    /\ (used = [] -> new = [] /\ r = Raise EOFError)
    /\ (forall request more,
          used = request :: more ->
          exists e rest, new = e :: rest /\ sent e = draft_request request)
    /\ (forall a, r = Ok a ->
                  exists request lines stop,
                    used = request :: lines ++ [stop]
                    /\ Forall (fun line => ~ blank line) lines
                    /\ blank stop
                    /\ Forall answered new
                    /\ length new = (2 * judge_requests new)%nat
                    /\ (1 + length lines <= judge_requests new
                        <= 3 + length lines)%nat).
Proof.
  intros H. pose proof (main_never_out_of_fuel w w') as Hfuel.
  pose proof H as Hmain.
  unfold main in H. unfold bind at 1 in H.
  destruct (main_pipeline w) as [outcome w1] eqn:Hpipe.
  apply main_pipeline_log in Hpipe.
  destruct (stdin w) as [|request rest] eqn:Hstdin.
  - destruct Hpipe as (-> & Hlog & Hin). injection H as <- <-.
    exists [], []. rewrite app_nil_r, Hin.
    split; [reflexivity|]. split; [exact Hlog|]. split; [constructor|].
    split; [cbn [length]; lia|]. split; [auto|].
    split; [intros ? ? Hused; discriminate Hused|].
    intros a Ha. discriminate Ha.
  - destruct Hpipe as (Hin & new & Hlog & Hshape & Hlen & Hhead & Hok).
    destruct outcome as [[[story jd]|]|e].
    + destruct (Hok _ eq_refl) as [Hall Htwo].
      apply feedback_loop_log in H
        as (used2 & new2 & Hin2 & Hlog2 & Hshape2 & Hlen2 & Hok2).
      exists (request :: used2), (new ++ new2).
      split; [cbn [app]; rewrite <- Hin2, Hin; reflexivity|].
      split; [rewrite Hlog2, Hlog, app_assoc; reflexivity|].
      split; [apply session_log_app; assumption|].
      split; [rewrite length_app; cbn [length pred]; lia|].
      split; [intros Hused; discriminate Hused|].
      split.
      { intros request' more Hused. injection Hused as <- _.
        destruct Hhead as (e & rest' & -> & He).
        exists e, (rest' ++ new2). split; [reflexivity | exact He]. }
      intros a Ha.
      destruct a as [p|];
        [|exfalso; apply Hfuel; rewrite Hmain, Ha; reflexivity].
      destruct (Hok2 p Ha) as (lines & stop & -> & Hlines & Hstop & Hall2
                               & Hcount).
      exists request, lines, stop.
      split; [reflexivity|]. split; [exact Hlines|]. split; [exact Hstop|].
      split; [apply Forall_app; split; assumption|].
      pose proof (session_log_answered _ Hshape Hall) as Heven.
      pose proof (session_log_answered _ Hshape2 Hall2) as Heven2.
      rewrite length_app, judge_requests_app. lia.
    + injection H as <- <-. exfalso. exact (Hfuel Hmain).
    + injection H as <- <-.
      exists [request], new.
      split; [cbn [app]; rewrite Hin; reflexivity|].
      split; [exact Hlog|]. split; [exact Hshape|].
      split; [cbn [length pred]; lia|].
      split; [intros Hused; discriminate Hused|].
      split.
      { intros request' more Hused. injection Hused as <- _. exact Hhead. }
      intros a Ha. discriminate Ha.
Qed.

(** Whatever [main] ends with, what it asked of the endpoint is bounded by
    what it read: nothing when the input was empty (it raises [EOFError]
    before any request), and otherwise at most six exchanges for the first
    story and two for each further line, at most three and one of them
    evaluations.  The first request is the drafting prompt around the first
    line exactly as typed, and the exchanges form a session. *)
Theorem main_session (w : world) :
  let w' := snd (main w) in
  let new := exchanges_since w w' in
  exists used,
    stdin w = used ++ stdin w'
    /\ gateway_log w' = gateway_log w ++ new
    /\ session_log new
    /\ (length new <= 6 + 2 * pred (length used))%nat
    /\ (judge_requests new <= 3 + pred (length used))%nat
    /\ match used with
       | [] => new = [] /\ fst (main w) = Raise EOFError
       | request :: _ =>
         exists e rest,
           new = e :: rest
           /\ sent e
              = chat_request (story_writer_prompt_text request) 900 (8 # 10)
       end.
Proof.
  destruct (main w) as [r w'] eqn:Hrun. cbn [fst snd]. cbv zeta.
  destruct (main_log _ _ _ Hrun)
    as (used & new & Hin & Hlog & Hshape & Hlen & Hnil & Hhead & _).
  rewrite (exchanges_since_app _ _ _ Hlog).
  exists used.
  split; [exact Hin|]. split; [exact Hlog|]. split; [exact Hshape|].
  split; [exact Hlen|].
  split; [apply session_log_judges in Hshape; lia|].
  destruct used as [|request more].
  - apply Hnil. reflexivity.
  - destruct (Hhead request more eq_refl) as (e & rest & -> & He).
    exists e, rest. split; [reflexivity|].
    rewrite He. unfold draft_request.
    rewrite prompt_text_story_writer. reflexivity.
Qed.

(** [main] returns only after a blank line: when it ends normally it has
    read the request, then lines of feedback none of which was blank, then
    one blank line, and nothing after it.  Every exchange was answered,
    every other one was an evaluation, and there was one evaluation for each
    line of feedback besides the one to three of the pipeline. *)
Theorem main_ends_on_blank_line (w w' : world)
        (a : fueled (str * pyval)) :
  main w = (Ok a, w') ->
  exists request lines stop,
    stdin w = request :: lines ++ stop :: stdin w'
    /\ Forall (fun line => ~ blank line) lines
    /\ blank stop
    /\ Forall answered (exchanges_since w w')
    /\ length (exchanges_since w w')
       = (2 * judge_requests (exchanges_since w w'))%nat
    /\ (1 + length lines <= judge_requests (exchanges_since w w')
        <= 3 + length lines)%nat.
Proof.
  intros Hrun.
  destruct (main_log _ _ _ Hrun)
    as (used & new & Hin & Hlog & _ & _ & _ & _ & Hok).
  rewrite (exchanges_since_app _ _ _ Hlog).
  destruct (Hok a eq_refl)
    as (request & lines & stop & -> & Hlines & Hstop & Hall & Heven & Hcount).
  exists request, lines, stop.
  split; [rewrite Hin; cbn [app]; rewrite <- app_assoc; reflexivity|].
  auto.
Qed.

End MainLogs.

Lemma main_ends_on_blank_line_witness :
  exists request lines stop,
    [ lit "a cat who is afraid of the dark"; lit "make it funnier";
      lit "  "; lit "never read" ]
    = request :: lines ++ stop :: [lit "never read"]
    /\ Forall (fun line => ~ blank line) lines
    /\ blank stop.
Proof.
  destruct (main_ends_on_blank_line (rt := Mock.runtime Mock.three_rounds)
              (Mock.fresh [ lit "a cat who is afraid of the dark";
                            lit "make it funnier"; lit "  ";
                            lit "never read" ])
              (snd (main (rt := Mock.runtime Mock.three_rounds)
                      (Mock.fresh [ lit "a cat who is afraid of the dark";
                                    lit "make it funnier"; lit "  ";
                                    lit "never read" ])))
              (Done (lit "A funnier draft.",
                     PyDict [(lit "total_score", PyInt 44)])))
    as (request & lines & stop & Hin & Hlines & Hstop & _).
  - vm_compute. reflexivity.
  - exists request, lines, stop. split; [exact Hin|]. split; assumption.
Defined.

(* ================================================================= *)
(** ** Evaluations the program cannot use *)

Section Malformed.

Context {rt : Runtime}.

Lemma refine_loop_raises (fuel : nat) (min_score max_rounds : Z)
      (verbose : bool) (round_idx : Z) (story : str) (judge_data : pyval)
      (w : world) (e : exn) :
  loop_condition judge_data min_score round_idx max_rounds = Raise e ->
  refine_loop fuel min_score max_rounds verbose round_idx story judge_data w
  = (Raise e, w).
Proof.
  intros H. destruct fuel; cbn [refine_loop]; rewrite bind_lift, H;
    reflexivity.
Qed.

(** A report on a dict goes through and touches the console only. *)
Lemma optional_report_dict {B} (verbose : bool) (heading : str)
      (entries : list (str * pyval)) (k : unit -> M B) (w : world) :
  round_reportable heading entries = true ->
  exists w1,
    gateway_log w1 = gateway_log w
    /\ stdin w1 = stdin w
    /\ bind (if verbose then report_round heading (PyDict entries)
             else ret tt) k w
       = k tt w1.
Proof.
  intros Hreportable. destruct verbose.
  - destruct (report_round heading (PyDict entries) w) as [r w1] eqn:Hrep.
    pose proof (report_round_dict heading entries w Hreportable) as Hok.
    rewrite Hrep in Hok. cbn [fst] in Hok. subst r.
    apply report_round_quiet in Hrep as Hq. destruct Hq as [Hlog Hin].
    exists w1. split; [exact Hlog|]. split; [exact Hin|].
    unfold bind. rewrite Hrep. reflexivity.
  - exists w. split; [reflexivity|]. split; reflexivity.
Qed.

Lemma bullet_text_iterable (items : pyval) :
  iterable items = true -> exists text, bullet_text items = Ok text.
Proof.
  unfold bullet_text.
  destruct items; try discriminate; intros _; cbn [Py.iter rbind]; eauto.
Qed.

Lemma bullet_text_not_iterable (items : pyval) :
  iterable items = false -> bullet_text items = Raise TypeError.
Proof. destruct items; try discriminate; reflexivity. Qed.

(** [revise_story] fails before it asks: on an evaluation that is not a
    dict it raises [AttributeError], on one whose issues or suggested fixes
    are present but are no list, string or dict ([null], a number, a
    boolean) it raises [TypeError], and in both cases no request is made.
    In every other case the prompt is built and exactly one request is
    made, for 900 tokens at temperature 0.7. *)
Theorem revise_story_fails_before_asking (story : str) (judge_data : pyval)
        (w : world) :
  match judge_data with
  | PyDict entries =>
    if iterable (entry entries (lit "issues") (PyList []))
       && iterable (entry entries (lit "suggested_fixes") (PyList []))
    then exists prompt,
        revision_prompt story judge_data = Ok prompt
        /\ revise_story story judge_data w
           = (ask w (chat_request prompt 900 (7 # 10)),
              after w (chat_request prompt 900 (7 # 10)))
    else revise_story story judge_data w = (Raise TypeError, w)
  | _ => revise_story story judge_data w = (Raise AttributeError, w)
  end.
Proof.
  rewrite revise_story_run.
  destruct judge_data as [| | | | | |entries]; try reflexivity.
  unfold revision_prompt, entry. cbn [Py.get].
  destruct (Py.lookup entries (lit "issues")) as [issues|];
    destruct (Py.lookup entries (lit "suggested_fixes")) as [fixes|];
    cbn [rbind].
  - destruct (iterable issues) eqn:Hi.
    + destruct (bullet_text_iterable _ Hi) as [itext ->]. cbn [rbind].
      destruct (iterable fixes) eqn:Hf; cbn [andb].
      * destruct (bullet_text_iterable _ Hf) as [ftext ->]. cbn [rbind].
        rewrite format_revision_template. eauto.
      * rewrite (bullet_text_not_iterable _ Hf). reflexivity.
    + rewrite (bullet_text_not_iterable _ Hi). reflexivity.
  - destruct (iterable issues) eqn:Hi.
    + destruct (bullet_text_iterable _ Hi) as [itext ->]. cbn [rbind].
      rewrite bullet_text_list. cbn [rbind iterable andb].
      rewrite format_revision_template. eauto.
    + rewrite (bullet_text_not_iterable _ Hi). reflexivity.
  - rewrite bullet_text_list. cbn [rbind iterable andb].
    destruct (iterable fixes) eqn:Hf.
    + destruct (bullet_text_iterable _ Hf) as [ftext ->]. cbn [rbind].
      rewrite format_revision_template. eauto.
    + rewrite (bullet_text_not_iterable _ Hf). reflexivity.
  - rewrite !bullet_text_list. cbn [rbind iterable andb].
    rewrite format_revision_template. eauto.
Qed.

(** A total that is not a number stops the pipeline: when the first
    evaluation is a dict whose [total_score] is [null], a string, a list or
    a dict, [story_pipeline] raises at round 1, after the draft and its
    evaluation and nothing else, whatever the threshold and the number of
    rounds.  It raises [TypeError] at the first test of the loop; only a
    verbose run whose report cannot encode the total or the issues (a
    string that holds a surrogate) raises [UnicodeEncodeError] in the
    report, before the test. *)
Theorem total_that_is_no_number_raises (user_request : str)
        (min_score max_rounds : Z) (verbose : bool) (w : world)
        (text raw : str) (entries : list (str * pyval)) (total : pyval) :
  ask w (draft_request user_request) = Ok text ->
  ask (after w (draft_request user_request)) (judge_request text) = Ok raw ->
  parse_judge_response raw = Ok (PyDict entries) ->
  Py.lookup entries (lit "total_score") = Some total ->
  numeric total = false ->
  fst (story_pipeline user_request min_score max_rounds verbose w)
  = (if verbose
        && negb (Py.writable total
                 && Py.writable (entry entries (lit "issues") PyNone))
     then Raise UnicodeEncodeError
     else Raise TypeError)
  /\ exchanges_since w
       (snd (story_pipeline user_request min_score max_rounds verbose w))
     = [ {| sent := draft_request user_request; received := Ok text |};
         {| sent := judge_request text; received := Ok raw |} ].
Proof.
  intros Hdraft Hjudge Hparse Htotal Hnum.
  assert (Hcond : forall idx,
             loop_condition (PyDict entries) min_score idx max_rounds
             = Raise TypeError).
  { intros idx. unfold loop_condition. cbn [Py.get]. rewrite Htotal.
    cbn [rbind]. destruct total as [| | |f| | |]; try discriminate Hnum;
      reflexivity. }
  assert (Hreportable :
            round_reportable (nl ++ lit "--- Judge evaluation: round 1 ---")
                             entries
            = Py.writable total
              && Py.writable (entry entries (lit "issues") PyNone)).
  { unfold round_reportable, entry. rewrite Htotal. reflexivity. }
  assert (Hrun : exists w1,
             gateway_log w1
             = gateway_log (after (after w (draft_request user_request))
                                  (judge_request text))
             /\ story_pipeline user_request min_score max_rounds verbose w
                = (if verbose
                      && negb (Py.writable total
                               && Py.writable (entry entries (lit "issues")
                                                     PyNone))
                   then Raise UnicodeEncodeError
                   else Raise TypeError, w1)).
  { unfold story_pipeline, story_pipeline_fuel.
    rewrite first_round_then.
    unfold bind at 1. rewrite generate_initial_story_run, Hdraft.
    unfold bind at 1. rewrite judge_story_run, Hjudge. cbn [rbind].
    rewrite Hparse.
    destruct verbose; cbn [andb].
    - match goal with
      | |- context [bind (report_round ?h _) ?k ?w0] =>
        destruct (report_round h (PyDict entries) w0) as [r w1] eqn:Hrep;
        pose proof (report_round_result h entries w0) as Hres
      end.
      rewrite Hrep in Hres. cbn [fst] in Hres.
      apply report_round_quiet in Hrep as Hq. destruct Hq as [Hlog _].
      exists w1. split; [exact Hlog|].
      unfold bind at 1. rewrite Hrep, Hres, Hreportable.
      destruct (Py.writable total
                && Py.writable (entry entries (lit "issues") PyNone));
        cbn [negb]; [|reflexivity].
      apply refine_loop_raises. apply Hcond.
    - eexists. split; [reflexivity|].
      change (bind (ret tt) ?k ?w0) with (k tt w0). cbv beta.
      apply refine_loop_raises. apply Hcond. }
  destruct Hrun as (w1 & Hlog & ->).
  cbn [fst snd]. split; [reflexivity|].
  apply exchanges_since_app. rewrite Hlog.
  cbn [after gateway_log]. rewrite Hdraft, Hjudge, <- app_assoc.
  reflexivity.
Qed.

Lemma revision_prompt_fallback (story : str) :
  exists prompt, revision_prompt story fallback_record = Ok prompt.
Proof.
  eexists. unfold fallback_record.
  apply revision_prompt_of_lists; vm_compute; reflexivity.
Qed.

Lemma loop_condition_fallback (min_score round_idx max_rounds : Z) :
  0 < min_score ->
  loop_condition fallback_record min_score round_idx max_rounds
  = Ok (round_idx <? max_rounds).
Proof.
  intros Hmin. unfold loop_condition.
  change (Py.get fallback_record (lit "total_score") (PyInt 0))
    with (Ok (A := pyval) (PyInt 0)).
  cbn [rbind Py.lt_int].
  apply Z.ltb_lt in Hmin. rewrite Hmin. reflexivity.
Qed.

(** The fallback record can be reported under any heading that can be
    written. *)
Lemma fallback_reportable (heading : str) (entries : list (str * pyval)) :
  Str.encodable heading = true ->
  PyDict entries = fallback_record ->
  round_reportable heading entries = true.
Proof.
  intros Hheading Hentries. injection Hentries as ->.
  unfold round_reportable. rewrite Hheading. vm_compute. reflexivity.
Qed.

(** The loop when no evaluation can be read: it runs every round that is
    left. *)
Lemma refine_loop_unreadable (min_score max_rounds : Z) (verbose : bool) :
  (forall log req, exists text, ChatCompletion_create log req = Ok text) ->
  (forall log req raw,
      is_judge_request req = true ->
      ChatCompletion_create log req = Ok raw ->
      parse_judge_response raw = Ok fallback_record) ->
  0 < min_score ->
  forall (fuel : nat) (round_idx : Z) (story : str) (w : world),
    (Z.to_nat (max_rounds - round_idx) <= fuel)%nat ->
    exists story' w' new,
      refine_loop fuel min_score max_rounds verbose round_idx story
                  fallback_record w
      = (Ok (Done (story', fallback_record)), w')
      /\ gateway_log w' = gateway_log w ++ new
      /\ length new = (2 * Z.to_nat (max_rounds - round_idx))%nat
      /\ judge_requests new = Z.to_nat (max_rounds - round_idx).
Proof.
  intros Hanswers Hunreadable Hmin.
  induction fuel as [|fuel IH]; intros round_idx story w Hfuel;
    cbn [refine_loop]; rewrite bind_lift,
      (loop_condition_fallback _ _ _ Hmin);
    destruct (round_idx <? max_rounds) eqn:Hleft;
    try (apply Z.ltb_ge in Hleft;
         exists story, w, []; rewrite app_nil_r;
         replace (Z.to_nat (max_rounds - round_idx)) with 0%nat by lia;
         repeat split; reflexivity);
    apply Z.ltb_lt in Hleft.
  - lia.
  - rewrite refine_body_then.
    destruct (revision_prompt_fallback story) as [prompt Hprompt].
    unfold bind at 1. rewrite revise_story_run, Hprompt.
    destruct (Hanswers (gateway_log w) (revise_request prompt))
      as [text Htext].
    change (ask w (revise_request prompt) = Ok text) in Htext.
    rewrite Htext.
    unfold bind at 1. rewrite judge_story_run.
    destruct (Hanswers (gateway_log (after w (revise_request prompt)))
                       (judge_request text)) as [raw Hraw].
    pose proof (Hunreadable _ _ _ (judge_request_is_judge text) Hraw)
      as Hparse.
    change (ask (after w (revise_request prompt)) (judge_request text)
            = Ok raw) in Hraw.
    rewrite Hraw. cbn [rbind]. rewrite Hparse.
    unfold fallback_record at 1.
    match goal with
    | |- context [bind (if verbose then report_round ?h (PyDict ?es) else _)
                       ?k ?w0] =>
      destruct (optional_report_dict verbose h es k w0
                  (fallback_reportable h es
                     (round_heading_encodable (round_idx + 1)) eq_refl))
        as (w1 & Hlog & _ & ->)
    end.
    destruct (IH (round_idx + 1) text w1) as (story' & w' & new & Hrun & Hlog'
                                              & Hlen & Hcount); [lia|].
    exists story', w',
      ([ {| sent := revise_request prompt; received := Ok text |};
         {| sent := judge_request text; received := Ok raw |} ] ++ new).
    split; [exact Hrun|].
    split.
    { rewrite Hlog', Hlog. cbn [after gateway_log].
      rewrite Htext, Hraw, <- !app_assoc. reflexivity. }
    split.
    { rewrite length_app, Hlen. cbn [length]. lia. }
    rewrite judge_requests_app, Hcount.
    unfold judge_requests at 1. cbn [filter sent].
    rewrite judge_request_is_judge.
    change (is_judge_request (revise_request prompt)) with false.
    cbn [length]. lia.
Qed.

(** A judge that cannot be read costs the whole budget.  When the endpoint
    answers every request, every reply to an evaluation request fails to
    parse (so that each evaluation is the fallback record, total 0) and the
    threshold is positive, [story_pipeline] runs [max 1 max_rounds] rounds,
    two exchanges each, and returns a story with the fallback record. *)
Theorem unreadable_judge_spends_budget (user_request : str)
        (min_score max_rounds : Z) (verbose : bool) (w : world) :
  (forall log req, exists text, ChatCompletion_create log req = Ok text) ->
  (forall log req raw,
      is_judge_request req = true ->
      ChatCompletion_create log req = Ok raw ->
      parse_judge_response raw = Ok fallback_record) ->
  0 < min_score ->
  exists story w',
    story_pipeline user_request min_score max_rounds verbose w
    = (Ok (Done (story, fallback_record)), w')
    /\ judge_requests (exchanges_since w w')
       = Nat.max 1 (Z.to_nat max_rounds)
    /\ length (exchanges_since w w')
       = (2 * Nat.max 1 (Z.to_nat max_rounds))%nat.
Proof.
  intros Hanswers Hunreadable Hmin.
  unfold story_pipeline, story_pipeline_fuel.
  rewrite first_round_then.
  unfold bind at 1. rewrite generate_initial_story_run.
  destruct (Hanswers (gateway_log w) (draft_request user_request))
    as [text Htext].
  change (ask w (draft_request user_request) = Ok text) in Htext.
  rewrite Htext.
  unfold bind at 1. rewrite judge_story_run.
  destruct (Hanswers (gateway_log (after w (draft_request user_request)))
                     (judge_request text)) as [raw Hraw].
  pose proof (Hunreadable _ _ _ (judge_request_is_judge text) Hraw)
    as Hparse.
  change (ask (after w (draft_request user_request)) (judge_request text)
          = Ok raw) in Hraw.
  rewrite Hraw. cbn [rbind]. rewrite Hparse.
  unfold fallback_record at 1.
  match goal with
  | |- context [bind (if verbose then report_round ?h (PyDict ?es) else _)
                     ?k ?w0] =>
    destruct (optional_report_dict verbose h es k w0
                (fallback_reportable h es eq_refl eq_refl))
      as (w1 & Hlog & _ & ->)
  end.
  destruct (refine_loop_unreadable min_score max_rounds verbose Hanswers
              Hunreadable Hmin (Z.to_nat max_rounds) 1 text w1)
    as (story' & w' & new & Hrun & Hlog' & Hlen & Hcount); [lia|].
  exists story', w'. split; [exact Hrun|].
  assert (Hsince : exchanges_since w w'
                   = [ {| sent := draft_request user_request;
                          received := Ok text |};
                       {| sent := judge_request text; received := Ok raw |} ]
                       ++ new).
  { apply exchanges_since_app. rewrite Hlog', Hlog.
    cbn [after gateway_log]. rewrite Htext, Hraw, <- !app_assoc.
    reflexivity. }
  rewrite Hsince. split.
  - rewrite judge_requests_app, Hcount.
    unfold judge_requests at 1. cbn [filter sent].
    rewrite judge_request_is_judge.
    change (is_judge_request (draft_request user_request)) with false.
    cbn [length]. lia.
  - rewrite length_app, Hlen. cbn [length]. lia.
Qed.

End Malformed.

Lemma total_that_is_no_number_raises_witness :
  fst (story_pipeline
         (rt := Mock.runtime
                  [ Ok (lit "A draft.");
                    Ok (lit "{" ++ dq ++ lit "total_score" ++ dq ++ lit ": "
                          ++ dq ++ lit "45" ++ dq ++ lit "}") ])
         (lit "a cat who is afraid of the dark") 40 3 true (Mock.fresh []))
  = Raise TypeError
  /\ fst (story_pipeline
            (rt := Mock.runtime
                     [ Ok (lit "A draft.");
                       Ok (lit "{" ++ dq ++ lit "total_score" ++ dq
                             ++ lit ": " ++ dq ++ [55296%N] ++ dq
                             ++ lit "}") ])
            (lit "a cat who is afraid of the dark") 40 3 true
            (Mock.fresh []))
     = Raise UnicodeEncodeError.
Proof.
  split.
  - destruct (total_that_is_no_number_raises
                (rt := Mock.runtime
                         [ Ok (lit "A draft.");
                           Ok (lit "{" ++ dq ++ lit "total_score" ++ dq
                                 ++ lit ": " ++ dq ++ lit "45" ++ dq
                                 ++ lit "}") ])
                (lit "a cat who is afraid of the dark") 40 3 true
                (Mock.fresh []) (lit "A draft.")
                (lit "{" ++ dq ++ lit "total_score" ++ dq ++ lit ": "
                   ++ dq ++ lit "45" ++ dq ++ lit "}")
                [(lit "total_score", PyStr (lit "45"))]
                (PyStr (lit "45"))) as [Hres _];
      [vm_compute; reflexivity .. | exact Hres].
  - destruct (total_that_is_no_number_raises
                (rt := Mock.runtime
                         [ Ok (lit "A draft.");
                           Ok (lit "{" ++ dq ++ lit "total_score" ++ dq
                                 ++ lit ": " ++ dq ++ [55296%N] ++ dq
                                 ++ lit "}") ])
                (lit "a cat who is afraid of the dark") 40 3 true
                (Mock.fresh []) (lit "A draft.")
                (lit "{" ++ dq ++ lit "total_score" ++ dq ++ lit ": "
                   ++ dq ++ [55296%N] ++ dq ++ lit "}")
                [(lit "total_score", PyStr [55296%N])]
                (PyStr [55296%N])) as [Hres _];
      [vm_compute; reflexivity .. | exact Hres].
Defined.

Lemma unreadable_judge_spends_budget_witness :
  exists story w',
    story_pipeline
      (rt := Steady.runtime (lit "Once upon a time.")
                            (lit "I cannot judge this."))
      (lit "a cat who is afraid of the dark") 40 3 false (Mock.fresh [])
    = (Ok (Done (story, fallback_record)), w')
    /\ judge_requests (exchanges_since (Mock.fresh []) w') = 3%nat
    /\ length (exchanges_since (Mock.fresh []) w') = 6%nat.
Proof.
  apply (unreadable_judge_spends_budget
           (rt := Steady.runtime (lit "Once upon a time.")
                                 (lit "I cannot judge this."))
           (lit "a cat who is afraid of the dark") 40 3 false
           (Mock.fresh [])).
  - intros log req. eexists. reflexivity.
  - intros log req raw Hjudge Hraw.
    change (Ok (if is_judge_request req
                then lit "I cannot judge this."
                else lit "Once upon a time.") = Ok raw) in Hraw.
    rewrite Hjudge in Hraw. injection Hraw as <-.
    vm_compute. reflexivity.
  - lia.
Defined.

(* ================================================================= *)
(** ** What [story_pipeline] returns *)

Section Outcome.

Context {rt : Runtime}.

(** The loop ends normally at a round where its test is false. *)
Lemma refine_loop_post (fuel : nat) :
  forall (min_score max_rounds : Z) (verbose : bool) (round_idx : Z)
         (story : str) (judge_data : pyval) (w w' : world)
         (story' : str) (judge_data' : pyval),
    refine_loop fuel min_score max_rounds verbose round_idx story judge_data w
    = (Ok (Done (story', judge_data')), w') ->
    exists round_idx' new,
      gateway_log w' = gateway_log w ++ new
      /\ round_idx <= round_idx'
      /\ (round_idx' = round_idx \/ round_idx' <= max_rounds)
      /\ Z.of_nat (judge_requests new) = round_idx' - round_idx
      /\ loop_condition judge_data' min_score round_idx' max_rounds
         = Ok false.
Proof.
  induction fuel as [|fuel IH]; intros min_score max_rounds verbose round_idx
    story judge_data w w' story' judge_data' H; cbn [refine_loop] in H;
    rewrite bind_lift in H;
    (destruct (loop_condition judge_data min_score round_idx max_rounds)
      as [[|]|e] eqn:Hcond; [| | discriminate H]);
    try (injection H as <- <- <-; exists round_idx, [];
         rewrite app_nil_r; cbn [judge_requests filter length];
         repeat split; auto; lia).
  - discriminate H.
  - apply loop_condition_true in Hcond.
    unfold bind at 1 in H.
    destruct (refine_body verbose round_idx story judge_data w)
      as [[[[idx1 story1] jd1]|e] w1] eqn:Hbody; [|discriminate H].
    destruct (refine_body_log _ _ _ _ _ _ _ Hbody)
      as (new1 & Hlog1 & _ & Hshape1 & _ & _ & Hok1).
    destruct (Hok1 _ eq_refl) as (Hall1 & Htwo & Hidx). cbn [fst] in Hidx.
    subst idx1.
    pose proof (session_log_answered _ Hshape1 Hall1) as Hone.
    destruct (IH _ _ _ _ _ _ _ _ _ _ H)
      as (idx' & new2 & Hlog2 & Hle & Hcap & Hcount & Hstop).
    exists idx', (new1 ++ new2).
    split; [rewrite Hlog2, Hlog1, app_assoc; reflexivity|].
    split; [lia|]. split; [right; lia|].
    split; [rewrite judge_requests_app; lia | exact Hstop].
Qed.

(** What comes back from [story_pipeline] can be reported: the evaluation
    is a dict whose total (0 when the key is missing) is a number, and
    either that total is not below the threshold or all of the
    [max 1 max_rounds] rounds were evaluated. *)
Theorem story_pipeline_returns_reached_or_spent (user_request : str)
        (min_score max_rounds : Z) (verbose : bool) (w w' : world)
        (story : str) (judge_data : pyval) :
  story_pipeline user_request min_score max_rounds verbose w
  = (Ok (Done (story, judge_data)), w') ->
  exists entries,
    judge_data = PyDict entries
    /\ numeric (entry entries (lit "total_score") (PyInt 0)) = true
    /\ (Py.lt_int (entry entries (lit "total_score") (PyInt 0)) min_score
        = Ok false
        \/ judge_requests (exchanges_since w w')
           = Nat.max 1 (Z.to_nat max_rounds)).
Proof.
  unfold story_pipeline, story_pipeline_fuel. intros H.
  unfold bind at 1 in H.
  destruct (first_round user_request verbose w) as [[[story1 jd1]|e] w1]
    eqn:Hfirst; [|discriminate H].
  destruct (first_round_log _ _ _ _ _ Hfirst)
    as (new1 & Hlog1 & _ & Hshape1 & _ & _ & Hok1).
  destruct (Hok1 _ eq_refl) as [Hall1 Htwo].
  pose proof (session_log_answered _ Hshape1 Hall1) as Hone.
  destruct (refine_loop_post _ _ _ _ _ _ _ _ _ _ _ H)
    as (idx' & new2 & Hlog2 & Hle & Hcap & Hcount & Hstop).
  assert (Hsince : exchanges_since w w' = new1 ++ new2)
    by (apply exchanges_since_app; rewrite Hlog2, Hlog1, app_assoc;
        reflexivity).
  rewrite Hsince, judge_requests_app.
  unfold loop_condition in Hstop.
  destruct judge_data as [| | | | | |entries]; try discriminate Hstop.
  exists entries. split; [reflexivity|].
  unfold entry. cbn [Py.get] in Hstop.
  assert (Hget : (match Py.lookup entries (lit "total_score") with
                  | Some v => Ok v
                  | None => Ok (PyInt 0)
                  end)
                 = Ok (match Py.lookup entries (lit "total_score") with
                       | Some v => v
                       | None => PyInt 0
                       end))
    by (destruct (Py.lookup entries (lit "total_score")); reflexivity).
  rewrite Hget in Hstop. cbn [rbind] in Hstop.
  destruct (Py.lt_int _ min_score) as [below|e] eqn:Hlt;
    [|discriminate Hstop].
  cbn [rbind] in Hstop. injection Hstop as Hstop.
  split.
  - destruct (match Py.lookup entries (lit "total_score") with
              | Some v => v
              | None => PyInt 0
              end); try reflexivity; discriminate Hlt.
  - apply andb_false_iff in Hstop as [-> | Hspent]; [left; reflexivity|].
    right. apply Z.ltb_ge in Hspent. lia.
Qed.

End Outcome.

Lemma story_pipeline_returns_reached_or_spent_witness :
  exists entries,
    PyDict [(lit "total_score", PyInt 20)] = PyDict entries
    /\ numeric (entry entries (lit "total_score") (PyInt 0)) = true.
Proof.
  destruct (story_pipeline_returns_reached_or_spent
              (rt := Mock.runtime Mock.three_rounds)
              (lit "a cat who is afraid of the dark") 40 3 true
              (Mock.fresh [])
              (snd (story_pipeline (rt := Mock.runtime Mock.three_rounds)
                      (lit "a cat who is afraid of the dark") 40 3 true
                      (Mock.fresh [])))
              (lit "A third draft.")
              (PyDict [(lit "total_score", PyInt 20)]))
    as (entries & Hdict & Hnum & _).
  - vm_compute. reflexivity.
  - exists entries. split; assumption.
Defined.
